(** * A shallow embedding of the RAG website chatbot

    The Python sources embedded here are [src/ingestion.py],
    [src/web_scraper.py], [src/vector_store.py], [src/rag_pipeline.py],
    [chatbot.py] and the scraper of [flask_app.py].  Python [str] values
    are Rocq strings whose characters are the code points 0..255; Python
    [int] values are [Z]; a call that may raise returns an [outcome]. *)

From Stdlib Require Import ZArith List String Ascii Bool Lia DecimalString.
From Stdlib Require Import DecimalPos DecimalZ.
From stdpp Require Import base option list gmap strings.
Import ListNotations.

Local Open Scope Z_scope.

(** ** Python primitives *)

Module Py.

(** Exceptions below [Exception] in Python's class hierarchy.  [str_exn]
    is [str(e)]. *)
Inductive exn : Type :=
| ValueError (msg : string)
| KeyError (msg : string)
| HTTPError (status_code : Z) (msg : string)
| OtherError (msg : string).

Definition str_exn (e : exn) : string :=
  match e with
  | ValueError m => m
  | KeyError m => m
  | HTTPError _ m => m
  | OtherError m => m
  end.

Inductive outcome (A : Type) : Type :=
| Returned (a : A)
| Raised (e : exn).
Arguments Returned {A} a.
Arguments Raised {A} e.

Definition bind {A B} (c : outcome A) (k : A -> outcome B) : outcome B :=
  match c with
  | Returned a => k a
  | Raised e => Raised e
  end.

(** [try: c  except Exception as e: h e] *)
Definition try_except {A} (c : outcome A) (h : exn -> outcome A) : outcome A :=
  match c with
  | Returned a => Returned a
  | Raised e => h e
  end.

#[global] Instance outcome_ret : MRet outcome := fun _ a => Returned a.
#[global] Instance outcome_bind : MBind outcome := fun _ _ k c => bind c k.

(** [while cond: body], for at most [fuel] turns of the body: [None] when
    that many turns do not end the loop. *)
Fixpoint while_loop {S : Type} (cond : S -> bool) (body : S -> S)
    (fuel : nat) (st : S) : option S :=
  if cond st then
    match fuel with
    | O => None
    | S fuel' => while_loop cond body fuel' (body st)
    end
  else Some st.

(** Characters and strings. *)
Definition chars (s : string) : list ascii := list_ascii_of_string s.
Definition str (l : list ascii) : string := string_of_list_ascii l.
Definition code (c : ascii) : Z := Z.of_nat (nat_of_ascii c).

(** [len(s)] *)
Definition len (s : string) : Z := Z.of_nat (length (chars s)).

(** One bound of a slice, as CPython's [PySlice_AdjustIndices] clamps it. *)
Definition clamp (n i : Z) : Z :=
  if i <? 0 then Z.max 0 (i + n) else Z.min i n.

(** [s[lo:hi]] *)
Definition slice (s : string) (lo hi : Z) : string :=
  let n := len s in
  let a := clamp n lo in
  let b := clamp n hi in
  str (take (Z.to_nat (b - a)) (drop (Z.to_nat a) (chars s))).

(** [s[lo:]] *)
Definition slice_from (s : string) (lo : Z) : string :=
  slice s lo (len s).

(** [str.isspace] on one character: tab..carriage return, the four
    separators 0x1c..0x1f, space, NEL and the no-break space. *)
Definition is_space (c : ascii) : bool :=
  let n := code c in
  ((9 <=? n) && (n <=? 13)) || ((28 <=? n) && (n <=? 32))
  || (n =? 133) || (n =? 160).

Fixpoint lstrip_chars (l : list ascii) : list ascii :=
  match l with
  | c :: l' => if is_space c then lstrip_chars l' else l
  | [] => []
  end.

Definition rstrip_chars (l : list ascii) : list ascii :=
  rev (lstrip_chars (rev l)).

(** [s.strip()] *)
Definition strip (s : string) : string :=
  str (rstrip_chars (lstrip_chars (chars s))).

(** [range(start, stop, step)], enumerated. *)
Definition range_len (start stop step : Z) : Z :=
  if 0 <? step then
    (if start <? stop then (stop - start - 1) / step + 1 else 0)
  else
    (if stop <? start then (start - stop - 1) / (- step) + 1 else 0).

Definition range (start stop step : Z) : outcome (list Z) :=
  if step =? 0 then Raised (ValueError "range() arg 3 must not be zero")
  else Returned (map (fun k => start + Z.of_nat k * step)
                     (seq 0 (Z.to_nat (range_len start stop step)))).

(** [str(n)] for an integer. *)
Definition str_of_int (n : Z) : string :=
  NilZero.string_of_int (Z.to_int n).

(** [not s] is true exactly for the empty string. *)
Definition truthy (s : string) : bool :=
  negb (String.eqb s "").

Definition is_newline (c : ascii) : bool := code c =? 10.

(** The double quote character, and a line feed as a string. *)
Definition dquote : ascii := ascii_of_nat 34.
Definition newline : string := String (ascii_of_nat 10) "".

(** Lower-casing of one character.  Only the ASCII capitals are mapped:
    no other character below 256 lower-cases to an ASCII letter, and the
    results are only ever compared with ASCII text. *)
Definition lower_char (c : ascii) : ascii :=
  let n := code c in
  if (65 <=? n) && (n <=? 90) then ascii_of_nat (Z.to_nat (n + 32)) else c.

(** [s.endswith(suffix)] *)
Definition endswith (s suffix : string) : bool :=
  let l := chars s in
  let x := chars suffix in
  bool_decide (drop (length l - length x)%nat l = x).

(** [s.split(c)[0]]: the text before the first [c]. *)
Fixpoint before_chars (c : ascii) (l : list ascii) : list ascii :=
  match l with
  | [] => []
  | x :: r => if bool_decide (x = c) then [] else x :: before_chars c r
  end.

Definition before (c : ascii) (s : string) : string :=
  str (before_chars c (chars s)).

(** [len(s.split())]: the number of maximal runs of non-space characters. *)
Fixpoint count_words (l : list ascii) (in_word : bool) : Z :=
  match l with
  | [] => 0
  | c :: r =>
      if is_space c then count_words r false
      else (if in_word then 0 else 1) + count_words r true
  end.

Definition word_count_of (s : string) : Z := count_words (chars s) false.

(** [c in chars] for a string of allowed characters. *)
Definition char_in (allowed : string) (c : ascii) : bool :=
  bool_decide (c ∈ chars allowed).

(** The class [\w]: letters, digits of any kind, and the underscore. *)
Definition is_word_char (c : ascii) : bool :=
  let n := code c in
  ((48 <=? n) && (n <=? 57)) || ((65 <=? n) && (n <=? 90))
  || ((97 <=? n) && (n <=? 122)) || (n =? 95)
  || (n =? 170) || (n =? 178) || (n =? 179) || (n =? 181) || (n =? 185)
  || (n =? 186) || ((188 <=? n) && (n <=? 190))
  || ((192 <=? n) && (n <=? 214)) || ((216 <=? n) && (n <=? 246))
  || ((248 <=? n) && (n <=? 255)).

End Py.
Import Py.

(** ** The regular expressions of the scraper

    The fragment of Python's [re] syntax that [skip_patterns] uses: literal
    characters, [.*], alternation, concatenation and [$], matched with
    [re.IGNORECASE]. *)

Module Regex.

Inductive regex : Type :=
| Eps
| Lit (c : ascii)
| DotStar
| Cat (r1 r2 : regex)
| Alt (r1 r2 : regex)
| Eol.

(** [.*]: any run of characters other than the newline. *)
Fixpoint dot_star (k : list ascii -> bool) (s : list ascii) : bool :=
  k s || match s with
         | x :: s' => negb (is_newline x) && dot_star k s'
         | [] => false
         end.

(** [$]: the end of the text, or just before a newline that ends it. *)
Definition at_eol (s : list ascii) : bool :=
  match s with
  | [] => true
  | [x] => is_newline x
  | _ => false
  end.

(** [matches r s k]: some prefix of [s] matches [r] and the continuation
    [k] accepts what is left. *)
Fixpoint matches (r : regex) (s : list ascii) (k : list ascii -> bool) : bool :=
  match r with
  | Eps => k s
  | Lit c =>
      match s with
      | x :: s' => bool_decide (lower_char x = lower_char c) && k s'
      | [] => false
      end
  | DotStar => dot_star k s
  | Cat r1 r2 => matches r1 s (fun s' => matches r2 s' k)
  | Alt r1 r2 => matches r1 s k || matches r2 s k
  | Eol => at_eol s && k s
  end.

(** [re.match(pattern, s, re.IGNORECASE)] as a truth value: the match is
    anchored at the start of [s] and may end anywhere. *)
Definition re_match (r : regex) (s : string) : bool :=
  matches r (chars s) (fun _ => true).

(** A literal word. *)
Definition word (w : string) : regex :=
  foldr (fun c r => Cat (Lit c) r) Eps (chars w).

(** [(w1|w2|...)] *)
Definition one_of (ws : list string) : regex :=
  match ws with
  | [] => Eps
  | w :: rest => foldl (fun r w' => Alt r (word w')) (word w) rest
  end.

(** [re.sub(p+, ' ', text)] for a character class [p]: every maximal run
    of characters of the class becomes one space. *)
Fixpoint runs_to_space (p : ascii -> bool) (l : list ascii) (in_run : bool)
  : list ascii :=
  match l with
  | [] => []
  | c :: r =>
      if p c then
        (if in_run then runs_to_space p r true
         else " "%char :: runs_to_space p r true)
      else c :: runs_to_space p r false
  end.

(** [re.sub(r'([.!?])\1+', r'\1', text)]: a run of one and the same
    sentence terminator becomes a single one. *)
Definition is_terminator (c : ascii) : bool := char_in ".!?" c.

Fixpoint squeeze_terminators (l : list ascii) (prev : option ascii)
  : list ascii :=
  match l with
  | [] => []
  | c :: r =>
      if is_terminator c && bool_decide (prev = Some c)
      then squeeze_terminators r prev
      else c :: squeeze_terminators r (Some c)
  end.

(** [re.sub(m.*$, '', text)] for a marker character [m]: the text is cut
    at the first [m] after which no newline occurs, except that a newline
    ending the text is allowed and kept. *)
Definition one_line (r : list ascii) : bool :=
  match reverse r with
  | c :: before => forallb (fun x => negb (is_newline x)) before
  | [] => true
  end.

Definition final_newline (r : list ascii) : list ascii :=
  match reverse r with
  | c :: _ => if is_newline c then [c] else []
  | [] => []
  end.

Fixpoint cut_from (m : ascii) (l : list ascii) : list ascii :=
  match l with
  | [] => []
  | c :: r =>
      if bool_decide (c = m) && one_line r then final_newline r
      else c :: cut_from m r
  end.

(** [re.split(r'[.!?]+', text)] *)
Fixpoint split_terminators (l : list ascii) (in_run : bool) (cur : list ascii)
  : list (list ascii) :=
  match l with
  | [] => [reverse cur]
  | c :: r =>
      if is_terminator c then
        (if in_run then split_terminators r true cur
         else reverse cur :: split_terminators r true [])
      else split_terminators r false (c :: cur)
  end.

End Regex.

(** ** [urllib.parse.urlparse]

    What the scraper reads of a parsed URL is its scheme and its network
    location.  [urlsplit] follows CPython's function of that name for
    these two fields; the validation of a bracketed IPv6 host and the
    normalization check of a non-ASCII location are left out.  The
    functions of the scraper take the parser as an argument. *)

Module Url.

Record ParseResult : Type := {
  scheme : string;
  netloc : string
}.

Definition is_ascii_alpha (c : ascii) : bool :=
  let n := code c in
  ((65 <=? n) && (n <=? 90)) || ((97 <=? n) && (n <=? 122)).

Definition is_ascii_digit (c : ascii) : bool :=
  let n := code c in (48 <=? n) && (n <=? 57).

(** [scheme_chars]: letters, digits and [+-.] *)
Definition is_scheme_char (c : ascii) : bool :=
  is_ascii_alpha c || is_ascii_digit c
  || (code c =? 43) || (code c =? 45) || (code c =? 46).

(** [_WHATWG_C0_CONTROL_OR_SPACE] *)
Definition is_c0_or_space (c : ascii) : bool := code c <=? 32.

(** [_UNSAFE_URL_BYTES_TO_REMOVE]: tab, carriage return, newline. *)
Definition is_unsafe (c : ascii) : bool :=
  (code c =? 9) || (code c =? 13) || (code c =? 10).

Fixpoint drop_while (p : ascii -> bool) (l : list ascii) : list ascii :=
  match l with
  | c :: r => if p c then drop_while p r else l
  | [] => []
  end.

Fixpoint take_while (p : ascii -> bool) (l : list ascii) : list ascii :=
  match l with
  | c :: r => if p c then c :: take_while p r else []
  | [] => []
  end.

(** [url.find(':')] *)
Fixpoint find_colon (l : list ascii) : option nat :=
  match l with
  | [] => None
  | c :: r => if code c =? 58 then Some 0%nat else S <$> find_colon r
  end.

(** The scheme and the rest of the URL. *)
Definition split_scheme (u : list ascii) : list ascii * list ascii :=
  match find_colon u, u with
  | Some (S i), c0 :: _ =>
      if is_ascii_alpha c0 && forallb is_scheme_char (take (S i) u)
      then (map lower_char (take (S i) u), drop (S (S i)) u)
      else ([], u)
  | _, _ => ([], u)
  end.

(** [/], [?] or [#]: the end of the network location. *)
Definition is_netloc_delim (c : ascii) : bool :=
  (code c =? 47) || (code c =? 63) || (code c =? 35).

Definition urlsplit (url : string) : outcome ParseResult :=
  let u := filter (fun c => negb (is_unsafe c))
                  (drop_while is_c0_or_space (chars url)) in
  let '(sch, rest) := split_scheme u in
  if bool_decide (take 2 rest = chars "//") then
    let loc := take_while (fun c => negb (is_netloc_delim c)) (drop 2 rest) in
    let lb := bool_decide ("["%char ∈ loc) in
    let rb := bool_decide ("]"%char ∈ loc) in
    if (lb && negb rb) || (rb && negb lb)
    then Raised (ValueError "Invalid IPv6 URL")
    else Returned {| scheme := str sch; netloc := str loc |}
  else Returned {| scheme := str sch; netloc := "" |}.

End Url.

(** ** The web, as the scraper sees it

    [requests] and [BeautifulSoup] are outside the repository.  A [Soup]
    holds what the scraper asks of a parsed page, after the elements it
    discards have been removed; a request either returns one or raises (a
    failed connection, [raise_for_status]).  Requests are numbered, so
    that the same URL may answer differently each time. *)

Module Web.

Record Soup : Type := {
  (** [soup.find('title').get_text()] *)
  soup_title : option string;
  (** the [content] attribute of [meta name="description"] *)
  soup_meta_description : option string;
  (** [soup.select_one(selector).get_text()] *)
  soup_select_one : string -> option string;
  (** [soup.find('body').get_text()] *)
  soup_body : option string;
  (** [elem.get_text()] for [soup.find_all(level)] *)
  soup_find_all : string -> list string;
  (** the [href] of every anchor that has one, in document order *)
  soup_anchors : list string
}.

Definition session : Type := nat -> string -> outcome Soup.

End Web.

(** ** [src/ingestion.py]: class [WebsiteIngestion] *)

Module Ingestion.
Import Web Url.

(** The dictionary that [scrape_page] returns. *)
Record Page : Type := {
  url : string;
  title : string;
  content : string;
  links : list string
}.

(** A chunk dictionary; [chunk_text] is its ['content'] entry. *)
Record Chunk : Type := {
  chunk_url : string;
  chunk_title : string;
  chunk_text : string;
  chunk_id : string
}.

(** The selector [[role="main"]]. *)
Definition role_main : string :=
  "[role=" +:+ String dquote ("main" +:+ String dquote "]").

Definition content_selectors : list string :=
  ["main"; "article"; role_main; ".content"; ".main-content";
   "#content"; "#main"].

(** The first selector that finds an element gives the text. *)
Fixpoint first_selected (soup : Soup) (selectors : list string)
  : option string :=
  match selectors with
  | [] => None
  | selector :: rest =>
      match soup_select_one soup selector with
      | Some text => Some text
      | None => first_selected soup rest
      end
  end.

Definition _extract_main_content (soup : Soup) : string :=
  let main_content := default "" (first_selected soup content_selectors) in
  if truthy main_content then main_content
  else default "" (soup_body soup).

Definition _clean_text (text : string) : string :=
  let t1 := Regex.runs_to_space is_space (chars text) false in
  let t2 := filter (fun c => is_word_char c || is_space c
                             || char_in ".,!?;:-()" c) t1 in
  let t3 := Regex.runs_to_space (fun c => bool_decide (c = " "%char)) t2 false in
  strip (str t3).

Definition static_extensions : list string :=
  [".pdf"; ".jpg"; ".png"; ".gif"; ".zip"; ".css"; ".js"].

(** The condition under which [_extract_links] keeps a resolved link. *)
Definition link_accepted (parsed_url : ParseResult) (base_domain : string)
    (full_url : string) : bool :=
  bool_decide (netloc parsed_url = base_domain)
  && (bool_decide (scheme parsed_url = "http")
      || bool_decide (scheme parsed_url = "https"))
  && negb (existsb (endswith full_url) static_extensions).

Section Scraping.

(** [urllib.parse.urlparse] and [urljoin]; the order in which Python
    lists the elements of a set; the HTTP session. *)
Variable urlparse : string -> outcome ParseResult.
Variable urljoin : string -> string -> outcome string.
Variable list_of_set : gset string -> list string.
Variable get : session.

(** The loop over the anchors, on the set of links found so far. *)
Fixpoint collect_links (hrefs : list string) (base_url base_domain : string)
    (found : gset string) : outcome (gset string) :=
  match hrefs with
  | [] => mret found
  | href :: rest =>
      full_url ← urljoin base_url href;
      parsed_url ← urlparse full_url;
      if link_accepted parsed_url base_domain full_url then
        let clean_url := before "#"%char full_url in
        if bool_decide (clean_url ≠ base_url)
        then collect_links rest base_url base_domain ({[clean_url]} ∪ found)
        else collect_links rest base_url base_domain found
      else collect_links rest base_url base_domain found
  end.

Definition _extract_links (soup : Soup) (base_url : string)
  : outcome (list string) :=
  base ← urlparse base_url;
  found ← collect_links (soup_anchors soup) base_url (netloc base) ∅;
  mret (list_of_set found).

(** [scrape_page], as the request numbered [n].  Both handlers return
    [None]. *)
Definition scrape_page (n : nat) (url : string) : option Page :=
  match get n url with
  | Raised _ => None
  | Returned soup =>
      let title_text := default "" (strip <$> soup_title soup) in
      let content := _extract_main_content soup in
      if (negb (truthy content) || (len (strip content) <? 100))
         && (negb (truthy content) || (len (strip content) =? 0))
      then None
      else
        match _extract_links soup url with
        | Raised _ => None
        | Returned links =>
            Some {| url := url;
                    title := title_text;
                    content := _clean_text content;
                    links := links |}
        end
  end.

(** The variables of [scrape_website].  [requests] counts the requests
    made so far and [scraped] lists the arguments of the calls of
    [scrape_page], oldest first. *)
Record crawl_state : Type := {
  pages : list Page;
  visited_urls : gset string;
  urls_to_visit : list string;
  requests : nat;
  scraped : list string
}.

Definition crawl_init (base_url : string) : crawl_state :=
  {| pages := [];
     visited_urls := ∅;
     urls_to_visit := [base_url];
     requests := 0;
     scraped := [] |}.

(** [while urls_to_visit and len(pages) < max_pages] *)
Definition crawl_continues (max_pages : Z) (st : crawl_state) : bool :=
  negb (bool_decide (urls_to_visit st = []))
  && (Z.of_nat (length (pages st)) <? max_pages).

(** One turn of the loop body. *)
Definition crawl_step (max_pages : Z) (st : crawl_state) : crawl_state :=
  match urls_to_visit st with
  | [] => st
  | url :: rest =>
      if bool_decide (url ∈ visited_urls st) then
        {| pages := pages st;
           visited_urls := visited_urls st;
           urls_to_visit := rest;
           requests := requests st;
           scraped := scraped st |}
      else
        let visited := {[url]} ∪ visited_urls st in
        match scrape_page (requests st) url with
        | Some page_data =>
            let pages' := pages st ++ [page_data] in
            {| pages := pages';
               visited_urls := visited;
               urls_to_visit :=
                 if Z.of_nat (length pages') <? max_pages
                 then rest ++ links page_data
                 else rest;
               requests := S (requests st);
               scraped := scraped st ++ [url] |}
        | None =>
            {| pages := pages st;
               visited_urls := visited;
               urls_to_visit := rest;
               requests := S (requests st);
               scraped := scraped st ++ [url] |}
        end
  end.

Definition crawl_loop (fuel : nat) (max_pages : Z) (st : crawl_state)
  : option crawl_state :=
  while_loop (crawl_continues max_pages) (crawl_step max_pages) fuel st.

Definition scrape_website (fuel : nat) (base_url : string) (max_pages : Z)
  : option (list Page) :=
  pages <$> crawl_loop fuel max_pages (crawl_init base_url).

End Scraping.

(** The body of [for page in pages], for one page. *)
Definition chunk_page (page : Page) (chunk_size overlap : Z)
  : outcome (list Chunk) :=
  idx ← range 0 (len (content page)) (chunk_size - overlap);
  mret (flat_map (fun i =>
      let window := slice (content page) i (i + chunk_size) in
      if 50 <? len (strip window) then
        [ {| chunk_url := url page;
             chunk_title := title page;
             chunk_text := window;
             chunk_id := url page +:+ "_"
                         +:+ str_of_int (i / (chunk_size - overlap)) |} ]
      else []) idx).

Fixpoint chunk_content (pages : list Page) (chunk_size overlap : Z)
  : outcome (list Chunk) :=
  match pages with
  | [] => mret []
  | page :: rest =>
      cs ← chunk_page page chunk_size overlap;
      more ← chunk_content rest chunk_size overlap;
      mret (cs ++ more)
  end.

End Ingestion.

(** ** [src/web_scraper.py]: class [AdvancedWebScraper] *)

Module WebScraper.
Import Web Url Regex.

(** The attributes of the scraper that its methods read or write.
    [visited_urls] lives as long as the scraper: a second crawl starts
    with the set the first one left. *)
Record Scraper : Type := {
  max_depth : Z;
  visited_urls : gset string;
  domain_restrictions : bool
}.

(** The dictionary that [scrape_page] returns. *)
Record Page : Type := {
  url : string;
  title : string;
  description : string;
  content : string;
  headings : gmap string (list string);
  word_count : Z
}.

Inductive chunk_kind : Type := semantic | fixed_size.

Record Chunk : Type := {
  chunk_url : string;
  chunk_title : string;
  chunk_text : string;
  chunk_id : string;
  chunk_type : chunk_kind
}.

Definition static_extensions : list string :=
  ["pdf"; "jpg"; "jpeg"; "png"; "gif"; "svg"; "css"; "js"; "ico"].

Definition blocked_words : list string :=
  ["login"; "register"; "logout"; "admin"; "api"; "feed"; "sitemap";
   "search"; "cart"; "checkout"; "account"; "profile"; "settings"; "help";
   "faq"; "contact"; "privacy"; "terms"; "cookie"; "legal"].

(** [.*\.(pdf|jpg|...)$] *)
Definition extension_pattern : regex :=
  Cat DotStar (Cat (Lit "."%char) (Cat (one_of static_extensions) Eol)).

(** [.*/w.*] *)
Definition path_pattern (w : string) : regex :=
  Cat DotStar (Cat (word ("/" +:+ w)) DotStar).

Definition skip_patterns : list regex :=
  extension_pattern :: map path_pattern blocked_words.

Definition level_names : list string := ["h1"; "h2"; "h3"; "h4"; "h5"; "h6"].

Definition content_strategies : list (list string) :=
  [ ["main"; "article"; Ingestion.role_main];
    [".content"; ".main-content"; ".post-content"; ".entry-content";
     ".article-content"];
    ["#content"; "#main"; "#post-content"; "#article-content"];
    ["div"; "section"] ].

(** The first selected element whose stripped text is long enough. *)
Fixpoint first_substantial (soup : Soup) (selectors : list string)
  : option string :=
  match selectors with
  | [] => None
  | selector :: rest =>
      match soup_select_one soup selector with
      | Some text =>
          let content := strip text in
          if (200 <? len content) && (50 <? word_count_of content)
          then Some content
          else first_substantial soup rest
      | None => first_substantial soup rest
      end
  end.

Definition _extract_content_smart (soup : Soup) : string :=
  match first_substantial soup (concat content_strategies) with
  | Some content => content
  | None => default "" (strip <$> soup_body soup)
  end.

Definition _extract_headings (soup : Soup) : gmap string (list string) :=
  list_to_map
    (map (fun level =>
            (level, filter (fun t => truthy t = true)
                           (map strip (soup_find_all soup level))))
         level_names).

Definition _clean_text (text : string) : string :=
  let t1 := runs_to_space is_space (chars text) false in
  let t2 := filter (fun c => is_word_char c || is_space c
                             || char_in ".,!?;:-()[]{}'/@#$%&*+=~`" c
                             || bool_decide (c = dquote)) t1 in
  let t3 := runs_to_space (fun c => bool_decide (c = " "%char)) t2 false in
  let t4 := squeeze_terminators t3 None in
  strip (str t4).

(** The sentence loop of [_chunk_by_headings]: the chunks flushed so far
    and the chunk being filled. *)
Fixpoint accumulate (sentences : list string) (chunks : list string)
    (current_chunk : string) : list string * string :=
  match sentences with
  | [] => (chunks, current_chunk)
  | raw :: rest =>
      let sentence := strip raw in
      if negb (truthy sentence) then accumulate rest chunks current_chunk
      else if len current_chunk + len sentence <? 1000
      then accumulate rest chunks (current_chunk +:+ sentence +:+ ". ")
      else accumulate rest
             (if truthy current_chunk
              then chunks ++ [strip current_chunk] else chunks)
             (sentence +:+ ". ")
  end.

Definition _chunk_by_headings (content : string)
    (headings : gmap string (list string)) : list string :=
  let sentences := map str (split_terminators (chars content) false []) in
  let '(chunks, current_chunk) := accumulate sentences [] "" in
  if truthy current_chunk then chunks ++ [strip current_chunk] else chunks.

(** The chunks that one page adds to [chunks]. *)
Definition chunk_page (page : Page) (chunk_size overlap : Z)
    (chunks : list Chunk) : outcome (list Chunk) :=
  let heading_chunks := _chunk_by_headings (content page) (headings page) in
  if negb (bool_decide (heading_chunks = [])) then
    mret (foldl (fun chunks chunk_text =>
             if 50 <? len (strip chunk_text) then
               chunks ++
               [ {| chunk_url := url page;
                    chunk_title := title page;
                    chunk_text := chunk_text;
                    chunk_id := url page +:+ "_"
                        +:+ str_of_int (Z.of_nat (length chunks));
                    chunk_type := semantic |} ]
             else chunks) chunks heading_chunks)
  else
    idx ← range 0 (len (content page)) (chunk_size - overlap);
    mret (chunks ++ flat_map (fun i =>
      let window := slice (content page) i (i + chunk_size) in
      if 50 <? len (strip window) then
        [ {| chunk_url := url page;
             chunk_title := title page;
             chunk_text := window;
             chunk_id := url page +:+ "_"
                         +:+ str_of_int (i / (chunk_size - overlap));
             chunk_type := fixed_size |} ]
      else []) idx).

Fixpoint chunk_pages (pages : list Page) (chunk_size overlap : Z)
    (chunks : list Chunk) : outcome (list Chunk) :=
  match pages with
  | [] => mret chunks
  | page :: rest =>
      chunks' ← chunk_page page chunk_size overlap chunks;
      chunk_pages rest chunk_size overlap chunks'
  end.

Definition chunk_content_by_structure (pages : list Page)
    (chunk_size overlap : Z) : outcome (list Chunk) :=
  chunk_pages pages chunk_size overlap [].

Section Scraping.

Variable urlparse : string -> outcome ParseResult.
Variable urljoin : string -> string -> outcome string.
Variable list_of_set : gset string -> list string.
Variable get : session.

Definition is_valid_url (self : Scraper) (url base_domain : string) : bool :=
  match (parsed ← urlparse url;
         base_parsed ← urlparse base_domain;
         if domain_restrictions self
            && negb (bool_decide (netloc parsed = netloc base_parsed))
         then mret false
         else mret (negb (existsb (fun pattern => re_match pattern url)
                                  skip_patterns)))
  with
  | Returned b => b
  | Raised _ => false
  end.

(** The loop over the anchors of [extract_links]. *)
Fixpoint collect_links (self : Scraper) (hrefs : list string)
    (base_url : string) (found : list string) : outcome (list string) :=
  match hrefs with
  | [] => mret found
  | href :: rest =>
      absolute_url ← urljoin base_url href;
      let clean_url :=
        str (cut_from "?"%char (cut_from "#"%char (chars absolute_url))) in
      if is_valid_url self clean_url base_url
      then collect_links self rest base_url (found ++ [clean_url])
      else collect_links self rest base_url found
  end.

Definition extract_links (self : Scraper) (soup : Soup) (base_url : string)
  : outcome (list string) :=
  _ ← urlparse base_url;
  found ← collect_links self (soup_anchors soup) base_url [];
  mret (list_of_set (list_to_set found)).

(** [scrape_page], as the request numbered [n]. *)
Definition scrape_page (n : nat) (url : string) : option Page :=
  match get n url with
  | Raised _ => None
  | Returned soup =>
      let content := _clean_text (_extract_content_smart soup) in
      Some {| url := url;
              title := default "" (strip <$> soup_title soup);
              description := default "" (soup_meta_description soup);
              content := content;
              headings := _extract_headings soup;
              word_count := word_count_of content |}
  end.

(** The variables of [crawl_website] and the visited set of the
    scraper.  [scraped] lists the arguments of the calls of
    [scrape_page] with the depth of each, oldest first: the lines that
    the loop prints. *)
Record crawl_state : Type := {
  pages : list Page;
  urls_to_visit : list (string * Z);
  visited : gset string;
  requests : nat;
  scraped : list (string * Z)
}.

Definition crawl_init (self : Scraper) (start_url : string) : crawl_state :=
  {| pages := [];
     urls_to_visit := [(start_url, 0)];
     visited := visited_urls self;
     requests := 0;
     scraped := [] |}.

(** [while urls_to_visit and len(pages) < max_pages] *)
Definition crawl_continues (max_pages : Z) (st : crawl_state) : bool :=
  negb (bool_decide (urls_to_visit st = []))
  && (Z.of_nat (length (pages st)) <? max_pages).

(** The links that one scraped page adds to the queue: a second request
    for the page, whose failure leaves the queue as it is. *)
Definition new_entries (self : Scraper) (st_visited : gset string)
    (n : nat) (url : string) (depth : Z) : list (string * Z) :=
  match (soup ← get n url; extract_links self soup url) with
  | Returned new_links =>
      map (fun link => (link, depth + 1))
          (filter (fun link => link ∉ st_visited) new_links)
  | Raised _ => []
  end.

(** One turn of the loop body. *)
Definition crawl_step (self : Scraper) (max_pages : Z) (st : crawl_state)
  : crawl_state :=
  match urls_to_visit st with
  | [] => st
  | (url, depth) :: rest =>
      if bool_decide (url ∈ visited st) || (max_depth self <? depth) then
        {| pages := pages st;
           urls_to_visit := rest;
           visited := visited st;
           requests := requests st;
           scraped := scraped st |}
      else
        let visited' := {[url]} ∪ visited st in
        match scrape_page (requests st) url with
        | Some page_data =>
            let pages' := pages st ++ [page_data] in
            if (Z.of_nat (length pages') <? max_pages)
               && (depth <? max_depth self)
            then
              {| pages := pages';
                 urls_to_visit :=
                   rest ++ new_entries self visited'
                                       (S (requests st)) url depth;
                 visited := visited';
                 requests := S (S (requests st));
                 scraped := scraped st ++ [(url, depth)] |}
            else
              {| pages := pages';
                 urls_to_visit := rest;
                 visited := visited';
                 requests := S (requests st);
                 scraped := scraped st ++ [(url, depth)] |}
        | None =>
            {| pages := pages st;
               urls_to_visit := rest;
               visited := visited';
               requests := S (requests st);
               scraped := scraped st ++ [(url, depth)] |}
        end
  end.

Definition crawl_loop (fuel : nat) (self : Scraper) (max_pages : Z)
    (st : crawl_state) : option crawl_state :=
  while_loop (crawl_continues max_pages) (crawl_step self max_pages) fuel st.

(** [crawl_website] returns the pages and leaves the scraper with the
    grown visited set. *)
Definition crawl_website (fuel : nat) (self : Scraper) (start_url : string)
    (max_pages : Z) : option (list Page * Scraper) :=
  st ← crawl_loop fuel self max_pages (crawl_init self start_url);
  Some (pages st,
        {| max_depth := max_depth self;
           visited_urls := visited st;
           domain_restrictions := domain_restrictions self |}).

End Scraping.

End WebScraper.

(** ** [src/vector_store.py]: class [VectorStore] *)

Module VectorStore.

(** A LangChain document: its text and its metadata dictionary. *)
Record Document : Type := {
  page_content : string;
  metadata : gmap string string
}.

(** The FAISS library and the file system.  [Index] is the library's
    vector store object; [documents_of] lists its docstore. *)
Class Library : Type := {
  Index : Type;
  Score : Type;
  Docstore : Type;
  IdMap : Type;
  (** [os.path.exists] *)
  path_exists : string -> bool;
  (** [FAISS.load_local(path, embeddings, ...)] *)
  load_local : string -> outcome Index;
  (** [pickle.load] of the file at a path: the two entries of the
      dictionary, when present *)
  pickle_load : string -> outcome (option Docstore * option IdMap);
  set_docstore : Index -> Docstore -> Index;
  set_index_to_docstore_id : Index -> IdMap -> Index;
  documents_of : Index -> list Document;
  (** [index.similarity_search(query, k=k)] *)
  lib_similarity_search : Index -> string -> Z -> outcome (list Document);
  lib_similarity_search_with_score :
    Index -> string -> Z -> outcome (list (Document * Score))
}.

Section Store.

Context {L : Library}.

(** The attributes of a [VectorStore]. *)
Record t : Type := {
  vector_store : option Index;
  index_path : string;
  metadata_path : string
}.

(** [VectorStore()] *)
Definition init : t :=
  {| vector_store := None;
     index_path := "faiss_index";
     metadata_path := "faiss_metadata.pkl" |}.

Definition with_index (self : t) (i : option Index) : t :=
  {| vector_store := i;
     index_path := index_path self;
     metadata_path := metadata_path self |}.

(** [d[key]] for an entry that may be missing. *)
Definition item {A} (key : string) (entry : option A) : outcome A :=
  match entry with
  | Some a => Returned a
  | None => Raised (KeyError key)
  end.

(** [load_vector_store]: the value returned and the store afterwards.
    Every exception ends in the handler, which returns [None]; the
    attribute keeps what was assigned before. *)
Definition load_vector_store (self : t) : outcome (option Index) * t :=
  if path_exists (index_path self) && path_exists (metadata_path self) then
    match load_local (index_path self) with
    | Raised _ => (Returned None, self)
    | Returned i0 =>
        match pickle_load (metadata_path self) with
        | Raised _ => (Returned None, with_index self (Some i0))
        | Returned (docstore, ids) =>
            match item "docstore" docstore with
            | Raised _ => (Returned None, with_index self (Some i0))
            | Returned d =>
                let i1 := set_docstore i0 d in
                match item "index_to_docstore_id" ids with
                | Raised _ => (Returned None, with_index self (Some i1))
                | Returned m =>
                    let i2 := set_index_to_docstore_id i1 m in
                    (Returned (Some i2), with_index self (Some i2))
                end
            end
        end
    end
  else (Returned None, self).

Definition similarity_search (self : t) (query : string) (k : Z)
  : outcome (list Document) :=
  match vector_store self with
  | None => mret []
  | Some index =>
      try_except (lib_similarity_search index query k) (fun _ => mret [])
  end.

Definition similarity_search_with_score (self : t) (query : string) (k : Z)
  : outcome (list (Document * Score)) :=
  match vector_store self with
  | None => mret []
  | Some index =>
      try_except (lib_similarity_search_with_score index query k)
                 (fun _ => mret [])
  end.

End Store.

End VectorStore.

(** ** [src/rag_pipeline.py]: class [RAGPipeline] *)

Module RAGPipeline.
Import VectorStore.

(** The dictionary that a chain returns; either entry may be missing. *)
Record ChainResult : Type := {
  result : option string;
  result_source_documents : option (list Document)
}.

Record Source : Type := {
  source_content : string;
  source_url : string;
  source_title : string
}.

(** The dictionary that [answer_question] returns; the handler's
    dictionary has no ['source_documents']. *)
Record Response : Type := {
  answer : string;
  source_documents : option (list Document);
  question : string;
  sources : list Source
}.

(** LangChain: [Chain] is a [RetrievalQA] object; [build_chain] is the
    retriever, the prompt template and [RetrievalQA.from_chain_type] over
    the language model of the pipeline; [call_chain] is the call
    [chain({"query": question})]. *)
Class LangChain {L : Library} : Type := {
  Chain : Type;
  build_chain : Index -> outcome Chain;
  call_chain : Chain -> string -> outcome ChainResult
}.

Section Pipeline.

Context {L : Library} {LC : LangChain}.

Record t : Type := {
  vector_store : option VectorStore.t;
  qa_chain : option Chain
}.

Definition with_chain (self : t) (c : option Chain) : t :=
  {| vector_store := vector_store self; qa_chain := c |}.

Definition create_qa_chain (self : t) : outcome Chain * t :=
  match vector_store self ≫= VectorStore.vector_store with
  | None => (Raised (ValueError "Vector store not initialized"), self)
  | Some index =>
      match build_chain index with
      | Returned chain => (Returned chain, with_chain self (Some chain))
      | Raised e => (Raised e, self)
      end
  end.

Definition source_of (doc : Document) : Source :=
  {| source_content := slice (page_content doc) 0 200 +:+ "...";
     source_url := default "" (metadata doc !! "url");
     source_title := default "" (metadata doc !! "title") |}.

(** The [try] block of [answer_question], on the chain in use. *)
Definition answer_with (chain : Chain) (q : string) : outcome Response :=
  try_except
    (r ← call_chain chain q;
     let docs := default [] (result_source_documents r) in
     mret {| answer := default "" (result r);
             source_documents := Some docs;
             question := q;
             sources := map source_of docs |})
    (fun e =>
       mret {| answer := "Error processing question: " +:+ str_exn e;
               source_documents := None;
               question := q;
               sources := [] |}).

Definition answer_question (self : t) (q : string) : outcome Response * t :=
  match qa_chain self with
  | Some chain => (answer_with chain q, self)
  | None =>
      match create_qa_chain self with
      | (Raised e, self') => (Raised e, self')
      | (Returned chain, self') => (answer_with chain q, self')
      end
  end.

End Pipeline.

End RAGPipeline.

(** ** [chatbot.py] *)

Module Chatbot.
Import VectorStore.

(** What the module does when it is imported: the imports and the
    construction of the embeddings, which may raise, and then the load of
    the index. *)
Class Environment {L : Library} : Type := {
  import_and_embed : outcome unit
}.

Section Chat.

Context {L : Library} {E : Environment}.

(** The two module variables. *)
Record globals : Type := {
  _import_error : option string;
  db : option Index
}.

Definition startup : globals :=
  match (_ ← import_and_embed;
         if path_exists "faiss_index"
         then index ← load_local "faiss_index"; mret (Some index)
         else mret None) with
  | Returned d => {| _import_error := None; db := d |}
  | Raised e => {| _import_error := Some (str_exn e); db := None |}
  end.

Definition unavailable : string :=
  "Sorry, the AI engine is currently unavailable (FAISS index 'faiss_index' not found).".

Definition not_found : string :=
  "Sorry, I could not find relevant information.".

Definition system_error (e : string) : string :=
  "System Error: " +:+ e +:+ newline +:+ newline
  +:+ "This is likely a Python 3.14 compatibility issue with numpy. Please see instructions to fix.".

(** The part of [get_answer] below the test of [_import_error]. *)
Definition answer_from_index (g : globals) (query : string)
  : outcome string :=
  match db g with
  | None => mret unavailable
  | Some index =>
      try_except
        (docs ← lib_similarity_search index query 2;
         match docs with
         | [] => mret not_found
         | doc :: _ => mret (page_content doc)
         end)
        (fun e => mret ("Error during search: " +:+ str_exn e))
  end.

Definition get_answer (g : globals) (query : string) : outcome string :=
  match _import_error g with
  | Some e =>
      if truthy e then mret (system_error e)
      else answer_from_index g query
  | None => answer_from_index g query
  end.

Definition get_answer_safe (g : globals) (query : string) : outcome string :=
  try_except (get_answer g query)
             (fun e => mret ("An unexpected error occurred: " +:+ str_exn e)).

End Chat.

End Chatbot.

(** ** [src/web_scraper.py]: [scrape_sitemap] *)

Module Sitemap.
Import Web Url.

Section Scraping.

Variable urlparse : string -> outcome ParseResult.
Variable get : session.

Definition sitemap_urls (base_url : string) : list string :=
  [ base_url +:+ "/sitemap.xml";
    base_url +:+ "/sitemap_index.xml";
    base_url +:+ "/sitemap/sitemap.xml" ].

(** The loop over the [loc] elements of one sitemap. *)
Definition valid_locs (self : WebScraper.Scraper) (soup : Soup)
    (base_url : string) : list string :=
  filter (fun url => WebScraper.is_valid_url urlparse self url base_url)
         (map strip (soup_find_all soup "loc")).

(** The loop over the sitemaps, from the request numbered [n] on: the
    first sitemap that is fetched and holds a valid URL gives the result;
    the handler goes on to the next one. *)
Fixpoint try_sitemaps (self : WebScraper.Scraper) (n : nat)
    (candidates : list string) (base_url : string) : list string :=
  match candidates with
  | [] => []
  | sitemap_url :: rest =>
      match get n sitemap_url with
      | Returned soup =>
          let urls := valid_locs self soup base_url in
          if negb (bool_decide (urls = [])) then urls
          else try_sitemaps self (S n) rest base_url
      | Raised _ => try_sitemaps self (S n) rest base_url
      end
  end.

Definition scrape_sitemap (self : WebScraper.Scraper) (n : nat)
    (base_url : string) : list string :=
  try_sitemaps self n (sitemap_urls base_url) base_url.

End Scraping.

End Sitemap.

(** ** [src/vector_store.py]: [create_documents] *)

Module Documents.
Import VectorStore.

(** The chunk dictionaries that the two chunkers append. *)
Definition of_ingestion (c : Ingestion.Chunk) : gmap string string :=
  {[ "url" := Ingestion.chunk_url c;
     "title" := Ingestion.chunk_title c;
     "content" := Ingestion.chunk_text c;
     "chunk_id" := Ingestion.chunk_id c ]}.

Definition kind_name (k : WebScraper.chunk_kind) : string :=
  match k with
  | WebScraper.semantic => "semantic"
  | WebScraper.fixed_size => "fixed_size"
  end.

Definition of_scraper (c : WebScraper.Chunk) : gmap string string :=
  {[ "url" := WebScraper.chunk_url c;
     "title" := WebScraper.chunk_title c;
     "content" := WebScraper.chunk_text c;
     "chunk_id" := WebScraper.chunk_id c;
     "chunk_type" := kind_name (WebScraper.chunk_type c) ]}.

(** The body of the loop: the metadata first, then the document. *)
Definition create_document (chunk : gmap string string) : outcome Document :=
  url ← item "url" (chunk !! "url");
  title ← item "title" (chunk !! "title");
  let chunk_id := default "" (chunk !! "chunk_id") in
  content ← item "content" (chunk !! "content");
  mret {| page_content := content;
          metadata := {[ "url" := url; "title" := title;
                         "chunk_id" := chunk_id ]} |}.

Fixpoint create_documents (chunks : list (gmap string string))
  : outcome (list Document) :=
  match chunks with
  | [] => mret []
  | chunk :: rest =>
      doc ← create_document chunk;
      documents ← create_documents rest;
      mret (doc :: documents)
  end.

End Documents.

(** ** [src/rag_pipeline.py]: [chat], [get_relevant_documents],
    [update_vector_store] *)

Module Retrieval.
Import VectorStore RAGPipeline.

Section Pipeline.

Context {L : Library} {LC : LangChain}.

(** The messages of the conversation memory. *)
Context {Message : Type}.

(** The dictionary that [chat] returns. *)
Record ChatResponse : Type := {
  chat_answer : string;
  chat_source_documents : option (list Document);
  chat_history : list Message;
  chat_question : string;
  chat_sources : list Source
}.

(** The [try] block of [chat], on the chain in use; [messages] is what
    the memory holds. *)
Definition chat_with (chain : Chain) (messages : list Message) (q : string)
  : outcome ChatResponse :=
  try_except
    (r ← call_chain chain q;
     let docs := default [] (result_source_documents r) in
     mret {| chat_answer := default "" (result r);
             chat_source_documents := Some docs;
             chat_history := [];
             chat_question := q;
             chat_sources := map source_of docs |})
    (fun e =>
       mret {| chat_answer := "Error processing question: " +:+ str_exn e;
               chat_source_documents := None;
               chat_history := messages;
               chat_question := q;
               chat_sources := [] |}).

Definition chat (self : RAGPipeline.t) (messages : list Message) (q : string)
  : outcome ChatResponse * RAGPipeline.t :=
  match qa_chain self with
  | Some chain => (chat_with chain messages q, self)
  | None =>
      match create_qa_chain self with
      | (Raised e, self') => (Raised e, self')
      | (Returned chain, self') => (chat_with chain messages q, self')
      end
  end.

(** One entry of the list that [get_relevant_documents] returns. *)
Definition relevant_of (doc : Document) : gmap string string :=
  {[ "content" := page_content doc;
     "url" := default "" (metadata doc !! "url");
     "title" := default "" (metadata doc !! "title");
     "chunk_id" := default "" (metadata doc !! "chunk_id") ]}.

Definition get_relevant_documents (self : RAGPipeline.t) (query : string)
    (k : Z) : outcome (list (gmap string string)) :=
  match RAGPipeline.vector_store self with
  | None => mret []
  | Some store =>
      docs ← VectorStore.similarity_search store query k;
      mret (map relevant_of docs)
  end.

(** [update_vector_store] drops the chain. *)
Definition update_vector_store (self : RAGPipeline.t)
    (store : option VectorStore.t) : RAGPipeline.t :=
  {| RAGPipeline.vector_store := store; qa_chain := None |}.

End Pipeline.

End Retrieval.

(** ** [flask_app.py]: class [SimpleScraper] *)

Module FlaskApp.

(** What [scrape_page] asks of the parsed page, after the elements it
    discards have been removed: the text of the title element, if any, and
    the text of the whole document. *)
Record Html : Type := {
  html_title : option string;
  html_text : string
}.

(** [scrape_page], as a dictionary: the handler's has the one key
    ['error']. *)
Definition scrape_page (get : nat -> string -> outcome Html) (n : nat)
    (url : string) : gmap string string :=
  match get n url with
  | Returned soup =>
      let title_text := default "" (strip <$> html_title soup) in
      let content :=
        strip (str (Regex.runs_to_space is_space (chars (html_text soup))
                                        false)) in
      {[ "url" := url; "title" := title_text;
         "content" := slice content 0 2000 ]}
  | Raised e => {[ "error" := str_exn e ]}
  end.

End FlaskApp.

(** ** Notions used in the statements *)

(** The concatenation of a list of texts. *)
Definition join (texts : list string) : string :=
  foldr String.append "" texts.

(** The texts of consecutive chunks with the overlap removed: every text
    but the first loses its first [overlap] characters. *)
Definition without_overlap (overlap : Z) (texts : list string) : list string :=
  match texts with
  | [] => []
  | t :: rest => t :: map (fun x => slice_from x overlap) rest
  end.

(** The windows that the fixed-size chunker cuts from a text, before it
    discards any, and the test a window has to pass to become a chunk. *)
Definition windows (content : string) (chunk_size overlap : Z) : list string :=
  match range 0 (len content) (chunk_size - overlap) with
  | Returned idx => map (fun i => slice content i (i + chunk_size)) idx
  | Raised _ => []
  end.

Definition kept (window : string) : bool := 50 <? len (strip window).

(** What holds of the variables of [scrape_website] at every turn of its
    loop: no URL was scraped twice, the scraped URLs are marked visited, the
    pages come from scraped URLs in the order of scraping, and their number
    is within [max_pages]. *)
Definition ingestion_crawl_inv (max_pages : Z) (st : Ingestion.crawl_state)
  : Prop :=
  NoDup (Ingestion.scraped st)
  /\ (forall u, u ∈ Ingestion.scraped st -> u ∈ Ingestion.visited_urls st)
  /\ map Ingestion.url (Ingestion.pages st) `sublist_of` Ingestion.scraped st
  /\ Z.of_nat (length (Ingestion.pages st)) <= Z.max 0 max_pages.

(** The same for [crawl_website], whose queue carries depths and whose
    visited set is the scraper's: a scraped URL was not visited before the
    call, and its depth is within [max_depth]. *)
Definition scraper_crawl_inv (self : WebScraper.Scraper) (max_pages : Z)
    (st : WebScraper.crawl_state) : Prop :=
  NoDup (map fst (WebScraper.scraped st))
  /\ (forall u, u ∈ map fst (WebScraper.scraped st) ->
        u ∈ WebScraper.visited st /\ u ∉ WebScraper.visited_urls self)
  /\ WebScraper.visited_urls self ⊆ WebScraper.visited st
  /\ Forall (fun e => snd e <= WebScraper.max_depth self)
            (WebScraper.scraped st)
  /\ map WebScraper.url (WebScraper.pages st)
       `sublist_of` map fst (WebScraper.scraped st)
  /\ Z.of_nat (length (WebScraper.pages st)) <= Z.max 0 max_pages.

(** Two texts that differ at most in the case of their ASCII letters. *)
Definition same_ignoring_case (x w : list ascii) : Prop :=
  map lower_char x = map lower_char w.

Definition no_newline (l : list ascii) : Prop :=
  Forall (fun c => is_newline c = false) l.

(** [w] occurs in [s] ignoring case, with no newline before it. *)
Definition occurs_in_first_line (w s : string) : Prop :=
  exists pre mid post,
    chars s = pre ++ mid ++ post
    /\ no_newline pre /\ same_ignoring_case mid (chars w).

(** [s] is a single line that ends in a dot and [ext], ignoring case; a
    newline may follow and end [s]. *)
Definition ends_with_extension (ext s : string) : Prop :=
  exists pre mid post,
    chars s = pre ++ "."%char :: mid ++ post
    /\ no_newline pre /\ same_ignoring_case mid (chars ext)
    /\ Regex.at_eol post = true.

(** What a pattern consumes of a text, given what follows it. *)
Fixpoint consumes (r : Regex.regex) (taken rest : list ascii) : Prop :=
  match r with
  | Regex.Eps => taken = []
  | Regex.Lit c => exists x, taken = [x] /\ lower_char x = lower_char c
  | Regex.DotStar => no_newline taken
  | Regex.Cat r1 r2 =>
      exists t1 t2, taken = t1 ++ t2
                    /\ consumes r1 t1 (t2 ++ rest) /\ consumes r2 t2 rest
  | Regex.Alt r1 r2 => consumes r1 taken rest \/ consumes r2 taken rest
  | Regex.Eol => taken = [] /\ Regex.at_eol rest = true
  end.

(** Two pages with the same URL, title and text; their headings, and
    what else they hold, may differ. *)
Definition same_but_headings (p1 p2 : WebScraper.Page) : Prop :=
  WebScraper.url p1 = WebScraper.url p2
  /\ WebScraper.title p1 = WebScraper.title p2
  /\ WebScraper.content p1 = WebScraper.content p2.

(** A text of white space only. *)
Definition all_space (l : list ascii) : Prop :=
  Forall (fun c => is_space c = true) l.

(** A stripped text neither starts nor ends with a space character. *)
Definition no_outer_space (l : list ascii) : Prop :=
  match l with c :: _ => is_space c = false | [] => True end
  /\ match rev l with c :: _ => is_space c = false | [] => True end.

(** A character that is part of no sentence: space or a terminator. *)
Definition is_filler (c : ascii) : bool :=
  is_space c || Regex.is_terminator c.

(** A text that is not empty and does not start with white space. *)
Definition starts_with_text (l : list ascii) : Prop :=
  match l with c :: _ => is_space c = false | [] => False end.

(** A text without exclamation or question mark. *)
Definition no_mark (l : list ascii) : Prop :=
  Forall (fun c => c <> "!"%char /\ c <> "?"%char) l.

(** The sentences that [_chunk_by_headings] cuts a text into. *)
Definition sentences_of (content : string) : list string :=
  map str (Regex.split_terminators (chars content) false []).

(** What a semantic chunk looks like: some text and a dot, where the text
    starts with no space, holds no exclamation or question mark, and is
    shorter than 1000 characters or else one sentence of the page. *)
Definition chunk_body (sentences : list string) (y : string) : Prop :=
  starts_with_text (chars y) /\ no_mark (chars y)
  /\ (len y < 1000 \/ exists raw, raw ∈ sentences /\ y = strip raw).

(** A semantic chunk: such a text and a dot. *)
Definition chunk_shape (sentences : list string) (c : string) : Prop :=
  exists y, c = y +:+ "." /\ chunk_body sentences y.

(** The chunk being filled is empty or such a chunk and a space. *)
Definition filling_shape (sentences : list string) (cur : string) : Prop :=
  cur = "" \/ exists y, cur = y +:+ ". " /\ chunk_body sentences y.

(** Some character of the text is neither space nor sentence terminator. *)
Definition has_text (s : string) : Prop :=
  Exists (fun c => is_filler c = false) (chars s).

(** What [chunk_content_by_structure] does with one text of a page that
    it chunks by sentences. *)
Definition semantic_step (page : WebScraper.Page)
    (chunks : list WebScraper.Chunk) (chunk_text : string)
  : list WebScraper.Chunk :=
  if 50 <? len (strip chunk_text) then
    chunks ++
    [ {| WebScraper.chunk_url := WebScraper.url page;
         WebScraper.chunk_title := WebScraper.title page;
         WebScraper.chunk_text := chunk_text;
         WebScraper.chunk_id := WebScraper.url page +:+ "_"
             +:+ str_of_int (Z.of_nat (length chunks));
         WebScraper.chunk_type := WebScraper.semantic |} ]
  else chunks.

(** What a chunk of one page looks like. *)
Definition chunk_of_page (page : WebScraper.Page) (c : WebScraper.Chunk)
  : Prop :=
  WebScraper.chunk_url c = WebScraper.url page
  /\ WebScraper.chunk_title c = WebScraper.title page
  /\ 50 < len (WebScraper.chunk_text c)
  /\ (WebScraper.chunk_type c = WebScraper.semantic ->
      chunk_shape (sentences_of (WebScraper.content page))
                  (WebScraper.chunk_text c)).

(** The characters that [WebsiteIngestion._clean_text] keeps, and those
    that [AdvancedWebScraper._clean_text] keeps. *)
Definition ingestion_keeps (c : ascii) : bool :=
  is_word_char c || is_space c || char_in ".,!?;:-()" c.

Definition scraper_keeps (c : ascii) : bool :=
  is_word_char c || is_space c || char_in ".,!?;:-()[]{}'/@#$%&*+=~`" c
  || bool_decide (c = dquote).

(** The only white space of a text is the space character, and no space
    follows another; [after_space] tells whether a space precedes the
    text. *)
Fixpoint single_spaces (l : list ascii) (after_space : bool) : Prop :=
  match l with
  | [] => True
  | c :: r =>
      if is_space c
      then c = " "%char /\ after_space = false /\ single_spaces r true
      else single_spaces r false
  end.

(** No sentence terminator follows a terminator equal to it. *)
Fixpoint squeezed (l : list ascii) (prev : option ascii) : Prop :=
  match l with
  | [] => True
  | c :: r =>
      ~ (Regex.is_terminator c = true /\ prev = Some c)
      /\ squeezed r (Some c)
  end.

(** A text that cleaning has nothing to do to. *)
Definition clean (keeps : ascii -> bool) (s : string) : Prop :=
  Forall (fun c => keeps c = true) (chars s)
  /\ single_spaces (chars s) false
  /\ no_outer_space (chars s).

(** The class of the pattern [' +']. *)
Definition the_space (c : ascii) : bool := bool_decide (c = " "%char).

(** Whether the character before the text, if any, is white space. *)
Definition after (prev : option ascii) : bool :=
  match prev with Some c => is_space c | None => false end.

(** A URL that a crawl from [start_url] may come to: the start URL or a
    URL that [is_valid_url] accepts for it. *)
Definition reachable (urlparse : string -> outcome Url.ParseResult)
    (self : WebScraper.Scraper) (start_url u : string) : Prop :=
  u = start_url
  \/ WebScraper.is_valid_url urlparse self u start_url = true.

(** A link that cannot be resolved against the page, or whose resolved
    form cannot be parsed. *)
Definition unresolvable (urlparse : string -> outcome Url.ParseResult)
    (urljoin : string -> string -> outcome string) (base_url href : string)
  : Prop :=
  (exists e, urljoin base_url href = Raised e)
  \/ (exists full_url e, urljoin base_url href = Returned full_url
                         /\ urlparse full_url = Raised e).

(** A chunk dictionary has the three keys that [create_documents] reads
    with a subscript. *)
Definition has_keys (chunk : gmap string string) : Prop :=
  is_Some (chunk !! "url") /\ is_Some (chunk !! "title")
  /\ is_Some (chunk !! "content").

(** The document made of a chunk dictionary; a missing entry reads as the
    empty string. *)
Definition document_of (chunk : gmap string string) : VectorStore.Document :=
  {| VectorStore.page_content := default "" (chunk !! "content");
     VectorStore.metadata :=
       {[ "url" := default "" (chunk !! "url");
          "title" := default "" (chunk !! "title");
          "chunk_id" := default "" (chunk !! "chunk_id") ]} |}.

(** The text of a page as [SimpleScraper] normalizes it, before it is cut
    to 2000 characters. *)
Definition normalized (text : string) : string :=
  strip (str (Regex.runs_to_space is_space (chars text) false)).

(** ** Sample inputs *)

(** A page of 120 characters, and a page too short to give a chunk. *)
Definition sample_page : Ingestion.Page :=
  {| Ingestion.url := "https://example.com/about";
     Ingestion.title := "About";
     Ingestion.content :=
       "Our company builds custom software for retail and banking. "
       +:+ "It also offers consulting, cloud services and staff training.";
     Ingestion.links := [] |}.

Definition short_page : Ingestion.Page :=
  {| Ingestion.url := "https://example.com/";
     Ingestion.title := "Home";
     Ingestion.content := "Welcome to our site.";
     Ingestion.links := [] |}.

Definition sample_scraper : WebScraper.Scraper :=
  {| WebScraper.max_depth := 2;
     WebScraper.visited_urls := ∅;
     WebScraper.domain_restrictions := true |}.

(** A site of one page.  [tiny_soup] is a page whose body holds two
    letters, [blank_soup] a page with no text at all, [symbols_soup] a page
    whose body holds three asterisks; none has a link.  In [site] every
    request is answered with the given page. *)
Definition soup_of_body (body : string) : Web.Soup :=
  {| Web.soup_title := Some "Home";
     Web.soup_meta_description := None;
     Web.soup_select_one := fun _ => None;
     Web.soup_body := Some body;
     Web.soup_find_all := fun _ => [];
     Web.soup_anchors := [] |}.

Definition tiny_soup : Web.Soup := soup_of_body "Hi".

Definition blank_soup : Web.Soup := soup_of_body "".

Definition symbols_soup : Web.Soup := soup_of_body "***".

Definition site (soup : Web.Soup) : Web.session :=
  fun _ _ => Returned soup.

(** A resolver of links good enough for pages without links. *)
Definition plain_urljoin (base href : string) : outcome string :=
  Returned href.

Definition services_doc : VectorStore.Document :=
  {| VectorStore.page_content :=
       "ClaySys provides a wide range of services: custom software, cloud computing and design.";
     VectorStore.metadata :=
       {[ "url" := "https://www.claysys.com/services";
          "title" := "ClaySys Services" ]} |}.

Definition about_doc : VectorStore.Document :=
  {| VectorStore.page_content :=
       "ClaySys serves a diverse range of industries.";
     VectorStore.metadata :=
       {[ "url" := "https://www.claysys.com/about-us";
          "title" := "ClaySys Overview" ]} |}.

(** A library whose index is the list of its documents and whose search
    returns the first [k] of them, over a disk that holds the files whose
    names are listed. *)
Definition list_library (on_disk : list string)
    (stored : list VectorStore.Document) : VectorStore.Library :=
  {| VectorStore.Index := list VectorStore.Document;
     VectorStore.Score := Z;
     VectorStore.Docstore := unit;
     VectorStore.IdMap := unit;
     VectorStore.path_exists := fun path => bool_decide (path ∈ on_disk);
     VectorStore.load_local := fun _ => Returned stored;
     VectorStore.pickle_load := fun _ => Returned (Some (), Some ());
     VectorStore.set_docstore := fun index _ => index;
     VectorStore.set_index_to_docstore_id := fun index _ => index;
     VectorStore.documents_of := fun index => index;
     VectorStore.lib_similarity_search :=
       fun index _ k => Returned (take (Z.to_nat k) index);
     VectorStore.lib_similarity_search_with_score :=
       fun index _ k =>
         Returned (map (fun doc => (doc, 0)) (take (Z.to_nat k) index)) |}.

Definition seeded_library : VectorStore.Library :=
  list_library ["faiss_index"; "faiss_metadata.pkl"] [services_doc; about_doc].

Definition bare_library : VectorStore.Library := list_library [] [].

Definition working_imports (L : VectorStore.Library)
  : @Chatbot.Environment L :=
  {| Chatbot.import_and_embed := Returned () |}.

(** A chain that fails on the empty question. *)
Definition list_chain (L : VectorStore.Library) : @RAGPipeline.LangChain L :=
  {| RAGPipeline.Chain := unit;
     RAGPipeline.build_chain := fun _ => Returned ();
     RAGPipeline.call_chain := fun _ q =>
       if truthy q
       then Returned {| RAGPipeline.result := Some "thanks for asking!";
                        RAGPipeline.result_source_documents :=
                          Some [services_doc] |}
       else Raised (OtherError "empty question") |}.

Definition empty_store : @VectorStore.t seeded_library :=
  @VectorStore.with_index seeded_library VectorStore.init
    (Some ([] : list VectorStore.Document)).

Definition chained_pipeline : @RAGPipeline.t seeded_library (list_chain _) :=
  @RAGPipeline.Build_t seeded_library (list_chain _) None (Some ()).

Definition headed_page (hs : gmap string (list string)) : WebScraper.Page :=
  {| WebScraper.url := "https://example.com/about";
     WebScraper.title := "About";
     WebScraper.description := "";
     WebScraper.content :=
       "We build software for banks and shops. We also train their staff! Ask us?";
     WebScraper.headings := hs;
     WebScraper.word_count := 14 |}.

(** A page of punctuation only, which the semantic chunker leaves to the
    fixed-size fallback. *)
Definition dots_page : WebScraper.Page :=
  {| WebScraper.url := "https://example.com/dots";
     WebScraper.title := "Dots";
     WebScraper.description := "";
     WebScraper.content := "... ... ... !!! ???";
     WebScraper.headings := ∅;
     WebScraper.word_count := 5 |}.

(** A site of three pages that link to each other; one of them links to
    a login page as well. *)
Definition linked_soup (hrefs : list string) : Web.Soup :=
  {| Web.soup_title := Some "Page";
     Web.soup_meta_description := None;
     Web.soup_select_one := fun _ => None;
     Web.soup_body := Some "Some text.";
     Web.soup_find_all := fun _ => [];
     Web.soup_anchors := hrefs |}.

Definition small_site : Web.session :=
  fun _ url =>
    if String.eqb url "https://example.com/"
    then Returned (linked_soup ["https://example.com/a"; "https://example.com/b"])
    else if String.eqb url "https://example.com/a"
    then Returned (linked_soup ["https://example.com/"; "https://example.com/b"])
    else if String.eqb url "https://example.com/b"
    then Returned (linked_soup ["https://example.com/a"; "https://example.com/login"])
    else Raised (HTTPError 404 "Not Found").



(** A page with a link that has an opening bracket and no closing one. *)
Definition broken_link_soup : Web.Soup :=
  {| Web.soup_title := Some "Page";
     Web.soup_meta_description := None;
     Web.soup_select_one := fun _ => None;
     Web.soup_body := Some "Some text.";
     Web.soup_find_all := fun _ => [];
     Web.soup_anchors := ["https://example.com/a"; "http://[broken"] |}.

(** A sitemap index with a page, a second sitemap and a login page. *)
Definition sitemap_soup : Web.Soup :=
  {| Web.soup_title := None;
     Web.soup_meta_description := None;
     Web.soup_select_one := fun _ => None;
     Web.soup_body := None;
     Web.soup_find_all := fun name =>
       if String.eqb name "loc"
       then [" https://example.com/about ";
             "https://example.com/sitemap-posts.xml";
             "https://example.com/login"]
       else [];
     Web.soup_anchors := [] |}.

(** A site whose only sitemap is [/sitemap_index.xml]. *)
Definition sitemap_site : Web.session :=
  fun _ url =>
    if String.eqb url "https://example.com/sitemap_index.xml"
    then Returned sitemap_soup
    else Raised (HTTPError 404 "Not Found").

(** A page of the flask application. *)
Definition flask_page : FlaskApp.Html :=
  {| FlaskApp.html_title := Some " Home ";
     FlaskApp.html_text := "  Welcome   to our
 site.  " |}.

(** * Properties *)

(** ** Strings as lists of characters *)

Lemma chars_str l : chars (str l) = l.
Proof. apply list_ascii_of_string_of_list_ascii. Qed.

Lemma str_chars s : str (chars s) = s.
Proof. apply string_of_list_ascii_of_string. Qed.

Lemma chars_inj s1 s2 : chars s1 = chars s2 -> s1 = s2.
Proof. intros H. rewrite <- (str_chars s1), <- (str_chars s2). by rewrite H. Qed.

Lemma chars_append s1 s2 : chars (s1 +:+ s2) = chars s1 ++ chars s2.
Proof. induction s1 as [|c s1 IH]; simpl; [done | by rewrite IH]. Qed.

Lemma chars_join texts : chars (join texts) = concat (map chars texts).
Proof.
  induction texts as [|t texts IH]; simpl; [done |].
  by rewrite chars_append, IH.
Qed.

Lemma len_nonneg s : 0 <= len s.
Proof. unfold len. lia. Qed.

Lemma len_str l : len (str l) = Z.of_nat (length l).
Proof. unfold len. by rewrite chars_str. Qed.

Lemma take_min_length {A} (l : list A) n :
  take (n `min` length l)%nat l = take n l.
Proof.
  destruct (decide (n <= length l)%nat).
  - by rewrite Nat.min_l.
  - rewrite Nat.min_r by lia. rewrite !take_ge; [done | lia | lia].
Qed.

(** A slice between two non-negative bounds. *)
Lemma chars_slice s lo hi :
  0 <= lo <= hi ->
  chars (slice s lo hi)
  = take (Z.to_nat (hi - lo)) (drop (Z.to_nat lo) (chars s)).
Proof.
  intros H. unfold slice, clamp, len. rewrite chars_str.
  destruct (Z.ltb_spec lo 0); [lia |].
  destruct (Z.ltb_spec hi 0); [lia |].
  generalize (chars s); intros l.
  destruct (decide (Z.of_nat (length l) <= lo)).
  - rewrite !drop_ge by lia. by rewrite !take_nil.
  - rewrite (Z.min_l lo) by lia.
    rewrite <- (take_min_length (drop _ l) (Z.to_nat (hi - lo))).
    f_equal. rewrite length_drop. lia.
Qed.

Lemma len_slice_le s lo hi : 0 <= lo <= hi -> len (slice s lo hi) <= hi - lo.
Proof.
  intros H. unfold len. rewrite chars_slice by lia. rewrite length_take. lia.
Qed.

Lemma chars_slice_from s lo :
  0 <= lo -> chars (slice_from s lo) = drop (Z.to_nat lo) (chars s).
Proof.
  intros H. unfold slice_from.
  destruct (decide (lo <= len s)).
  - rewrite chars_slice by lia. apply take_ge. rewrite length_drop.
    unfold len. lia.
  - unfold slice, clamp. rewrite chars_str.
    destruct (Z.ltb_spec lo 0); [lia |].
    pose proof (len_nonneg s).
    destruct (Z.ltb_spec (len s) 0); [lia |].
    rewrite Z.min_id, (Z.min_r lo) by lia. rewrite Z.sub_diag.
    change (Z.to_nat 0) with 0%nat. rewrite take_0.
    symmetry. apply drop_ge. unfold len in *. lia.
Qed.

(** ** The fixed-size chunker *)

(** Consecutive pieces of a list add up to a prefix of it. *)
Lemma concat_pieces {A} (l : list A) (s base cnt : nat) :
  concat (map (fun k => take s (drop (base + k * s) l)) (seq 0 cnt))
  = take (cnt * s) (drop base l).
Proof.
  induction cnt as [|cnt IH]; [done |].
  rewrite seq_S, map_app, concat_app, IH. simpl. rewrite app_nil_r.
  rewrite <- drop_drop. rewrite take_take_drop. f_equal. lia.
Qed.

(** Overlapping windows of width [s + ov] at the multiples of [s] cover
    the list, and without their overlaps they partition it. *)
Lemma windows_partition {A} (l : list A) (s ov cnt : nat) :
  (0 < s)%nat -> (length l <= cnt * s)%nat -> (cnt = 0%nat -> l = []) ->
  concat (match map (fun k => take (s + ov) (drop (k * s) l)) (seq 0 cnt) with
          | [] => []
          | w :: rest => w :: map (drop ov) rest
          end) = l.
Proof.
  intros Hs Hlen Hnil. destruct cnt as [|cnt]; [by rewrite Hnil |].
  simpl seq. rewrite <- seq_shift. simpl map. rewrite !map_map. simpl concat.
  rewrite drop_0.
  rewrite (map_ext _ (fun k => take s (drop ((s + ov) + k * s) l))).
  - rewrite concat_pieces, take_take_drop. apply take_ge. lia.
  - intros k. rewrite (Nat.add_comm s ov), <- take_drop_commute.
    rewrite drop_drop. do 2 f_equal. lia.
Qed.

Lemma range_len_pos n step :
  0 < step -> 0 <= n ->
  0 <= range_len 0 n step /\ n <= range_len 0 n step * step
  /\ (range_len 0 n step = 0 -> n = 0).
Proof.
  intros Hs Hn. unfold range_len.
  destruct (Z.ltb_spec 0 step); [| lia].
  destruct (Z.ltb_spec 0 n); [| lia].
  rewrite Z.sub_0_r.
  pose proof (Z.div_pos (n - 1) step ltac:(lia) ltac:(lia)).
  pose proof (Z.mul_succ_div_gt (n - 1) step ltac:(lia)).
  nia.
Qed.

Lemma range_positive_step n step :
  0 < step ->
  range 0 n step
  = Returned (map (fun k => Z.of_nat k * step)
                  (seq 0 (Z.to_nat (range_len 0 n step)))).
Proof.
  intros Hs. unfold range. destruct (Z.eqb_spec step 0); [lia | done].
Qed.

(** The windows of a text, as lists of characters. *)
Lemma chars_windows content chunk_size overlap :
  0 <= overlap < chunk_size ->
  map chars (windows content chunk_size overlap)
  = map (fun k => take (Z.to_nat (chunk_size - overlap) + Z.to_nat overlap)
                       (drop (k * Z.to_nat (chunk_size - overlap))
                             (chars content)))
        (seq 0 (Z.to_nat (range_len 0 (len content) (chunk_size - overlap)))).
Proof.
  intros H. unfold windows. rewrite range_positive_step by lia.
  rewrite !map_map. apply map_ext. intros k.
  rewrite chars_slice by nia. f_equal; [lia |]. f_equal. nia.
Qed.

Lemma chars_without_overlap overlap texts :
  0 <= overlap ->
  map chars (without_overlap overlap texts)
  = match map chars texts with
    | [] => []
    | w :: rest => w :: map (drop (Z.to_nat overlap)) rest
    end.
Proof.
  intros H. destruct texts as [|t texts]; [done |]. simpl. f_equal.
  rewrite !map_map. apply map_ext. intros x. by apply chars_slice_from.
Qed.

(** Before any window is discarded, the windows without their overlaps
    are the text. *)
Lemma windows_reconstruct content chunk_size overlap :
  0 <= overlap < chunk_size ->
  join (without_overlap overlap (windows content chunk_size overlap)) = content.
Proof.
  intros H. apply chars_inj. rewrite chars_join.
  rewrite chars_without_overlap, chars_windows by lia.
  pose proof (range_len_pos (len content) (chunk_size - overlap)
                ltac:(lia) (len_nonneg _)) as (Hc & Hcover & Hzero).
  apply windows_partition.
  - lia.
  - apply Nat2Z.inj_le. rewrite Nat2Z.inj_mul, !Z2Nat.id by lia. exact Hcover.
  - intros Hcnt. assert (len content = 0) as H0 by lia.
    unfold len in H0. destruct (chars content); [done | simpl in H0; lia].
Qed.

Lemma windows_bounded content chunk_size overlap :
  0 <= overlap < chunk_size ->
  Forall (fun w => len w <= chunk_size) (windows content chunk_size overlap).
Proof.
  intros H. unfold windows. rewrite range_positive_step by lia.
  apply Forall_forall. intros w Hw. apply list_elem_of_In in Hw.
  apply in_map_iff in Hw as (i & <- & Hi).
  apply in_map_iff in Hi as (k & <- & _).
  pose proof (len_slice_le content (Z.of_nat k * (chunk_size - overlap))
                (Z.of_nat k * (chunk_size - overlap) + chunk_size)
                ltac:(nia)). lia.
Qed.

(** The texts of the chunks cut from one text are its windows that pass
    the test, in order. *)
Lemma kept_windows_texts {C} (mk : Z -> string -> C) (text : C -> string)
    (w : Z -> string) (idx : list Z) :
  (forall i s, text (mk i s) = s) ->
  map text (flat_map (fun i => if kept (w i) then [mk i (w i)] else []) idx)
  = filter kept (map w idx).
Proof.
  intros Htext. induction idx as [|i idx IH]; [done |].
  simpl. rewrite map_app, IH. rewrite filter_cons.
  destruct (kept (w i)) eqn:Hk; simpl; [by rewrite Htext | done].
Qed.

Lemma filter_all_kept (ws : list string) :
  Forall (fun w => kept w = true) ws -> filter kept ws = ws.
Proof.
  induction 1 as [|w ws Hw _ IH]; [done |].
  rewrite filter_cons, decide_True by (by rewrite Hw). by rewrite IH.
Qed.

Lemma Forall_filter_sub {A} (P : A -> Prop) (Q : A -> Prop)
    `{!forall x, Decision (Q x)} (l : list A) :
  Forall P l -> Forall P (filter Q l).
Proof.
  intros HP. apply Forall_forall. intros x Hx.
  apply list_elem_of_filter in Hx as [_ Hx].
  by eapply Forall_forall in HP.
Qed.

Lemma ingestion_chunk_page_texts page chunk_size overlap :
  chunk_size - overlap <> 0 ->
  exists chunks,
    Ingestion.chunk_page page chunk_size overlap = Returned chunks
    /\ map Ingestion.chunk_text chunks
       = filter kept (windows (Ingestion.content page) chunk_size overlap).
Proof.
  intros Hstep. unfold Ingestion.chunk_page, windows, range.
  destruct (Z.eqb_spec (chunk_size - overlap) 0) as [|_]; [done |].
  eexists. split; [reflexivity |].
  apply (kept_windows_texts
           (fun i s => {| Ingestion.chunk_url := Ingestion.url page;
                          Ingestion.chunk_title := Ingestion.title page;
                          Ingestion.chunk_text := s;
                          Ingestion.chunk_id := _ |})
           Ingestion.chunk_text
           (fun i => slice (Ingestion.content page) i (i + chunk_size))).
  done.
Qed.

Lemma ingestion_chunk_content_texts pages chunk_size overlap :
  chunk_size - overlap <> 0 ->
  exists chunks,
    Ingestion.chunk_content pages chunk_size overlap = Returned chunks
    /\ map Ingestion.chunk_text chunks
       = flat_map (fun page =>
           filter kept (windows (Ingestion.content page) chunk_size overlap))
           pages.
Proof.
  intros Hstep. induction pages as [|page pages (more & Hmore & Htexts)].
  - by exists [].
  - destruct (ingestion_chunk_page_texts page chunk_size overlap Hstep)
      as (cs & Hcs & Hcs_texts).
    exists (cs ++ more). simpl. rewrite Hcs, Hmore. split; [done |].
    by rewrite map_app, Hcs_texts, Htexts.
Qed.

Lemma scraper_fallback_texts page chunk_size overlap :
  chunk_size - overlap <> 0 ->
  WebScraper._chunk_by_headings (WebScraper.content page)
                                (WebScraper.headings page) = [] ->
  exists chunks,
    WebScraper.chunk_content_by_structure [page] chunk_size overlap
    = Returned chunks
    /\ map WebScraper.chunk_text chunks
       = filter kept (windows (WebScraper.content page) chunk_size overlap).
Proof.
  intros Hstep Hfallback.
  unfold WebScraper.chunk_content_by_structure. simpl.
  unfold WebScraper.chunk_page. rewrite Hfallback. simpl.
  unfold windows, range.
  destruct (Z.eqb_spec (chunk_size - overlap) 0) as [|_]; [done |].
  eexists. split; [reflexivity |].
  apply (kept_windows_texts
           (fun i s => {| WebScraper.chunk_url := WebScraper.url page;
                          WebScraper.chunk_title := WebScraper.title page;
                          WebScraper.chunk_text := s;
                          WebScraper.chunk_id := _;
                          WebScraper.chunk_type := WebScraper.fixed_size |})
           WebScraper.chunk_text
           (fun i => slice (WebScraper.content page) i (i + chunk_size))).
  done.
Qed.

Lemma Forall_map_text {C} (text : C -> string) (P : string -> Prop)
    (chunks : list C) :
  Forall P (map text chunks) -> Forall (fun c => P (text c)) chunks.
Proof. apply List.Forall_map. Qed.

Lemma kept_windows_bounded content chunk_size overlap :
  0 <= overlap < chunk_size ->
  Forall (fun w => len w <= chunk_size)
         (filter kept (windows content chunk_size overlap)).
Proof. intros H. by apply Forall_filter_sub, windows_bounded. Qed.

Lemma reconstruct_when_all_kept content chunk_size overlap texts :
  0 <= overlap < chunk_size ->
  texts = filter kept (windows content chunk_size overlap) ->
  forallb kept (windows content chunk_size overlap) = true ->
  join (without_overlap overlap texts) = content.
Proof.
  intros H -> Hall. rewrite filter_all_kept.
  - by apply windows_reconstruct.
  - apply Forall_forall. intros w Hw. apply list_elem_of_In in Hw.
    by eapply forallb_forall in Hall.
Qed.

(** C1, as amended.  For [0 <= overlap < chunk_size] the fixed-size chunker
    ([chunk_content], and the fixed-size fallback of
    [chunk_content_by_structure]) returns, every chunk is at most
    [chunk_size] characters long, the chunks of a page are its windows whose
    stripped length exceeds 50, the windows with their overlaps removed
    concatenate to the page text, and so do the chunks of a page none of
    whose windows is discarded. *)
Theorem fixed_size_chunks_bounded_and_cover (chunk_size overlap : Z) :
  0 <= overlap < chunk_size ->
  (forall pages, exists chunks,
      Ingestion.chunk_content pages chunk_size overlap = Returned chunks
      /\ Forall (fun c => len (Ingestion.chunk_text c) <= chunk_size) chunks)
  /\ (forall page, exists chunks,
      Ingestion.chunk_content [page] chunk_size overlap = Returned chunks
      /\ map Ingestion.chunk_text chunks
         = filter kept (windows (Ingestion.content page) chunk_size overlap)
      /\ join (without_overlap overlap
                 (windows (Ingestion.content page) chunk_size overlap))
         = Ingestion.content page
      /\ (forallb kept (windows (Ingestion.content page) chunk_size overlap)
          = true ->
          join (without_overlap overlap (map Ingestion.chunk_text chunks))
          = Ingestion.content page))
  /\ (forall page,
      WebScraper._chunk_by_headings (WebScraper.content page)
                                    (WebScraper.headings page) = [] ->
      exists chunks,
        WebScraper.chunk_content_by_structure [page] chunk_size overlap
        = Returned chunks
        /\ Forall (fun c => len (WebScraper.chunk_text c) <= chunk_size) chunks
        /\ map WebScraper.chunk_text chunks
           = filter kept (windows (WebScraper.content page) chunk_size overlap)
        /\ (forallb kept (windows (WebScraper.content page) chunk_size overlap)
            = true ->
            join (without_overlap overlap (map WebScraper.chunk_text chunks))
            = WebScraper.content page)).
Proof.
  intros H. split; [| split].
  - intros pages.
    destruct (ingestion_chunk_content_texts pages chunk_size overlap)
      as (chunks & Hret & Htexts); [lia |].
    exists chunks. split; [done |].
    apply (Forall_map_text _ (fun w => len w <= chunk_size)). rewrite Htexts.
    apply Forall_forall. intros w Hw. apply list_elem_of_In in Hw.
    apply in_flat_map in Hw as (page & _ & Hw).
    apply list_elem_of_In in Hw.
    pose proof (kept_windows_bounded (Ingestion.content page) _ _ H) as Hb.
    by eapply Forall_forall in Hb.
  - intros page.
    destruct (ingestion_chunk_content_texts [page] chunk_size overlap)
      as (chunks & Hret & Htexts); [lia |].
    simpl in Htexts. rewrite app_nil_r in Htexts.
    exists chunks. repeat split; [done | done | by apply windows_reconstruct |].
    intros Hall. by eapply reconstruct_when_all_kept.
  - intros page Hfallback.
    destruct (scraper_fallback_texts page chunk_size overlap)
      as (chunks & Hret & Htexts); [lia | done |].
    exists chunks. repeat split; [done | | done |].
    + apply (Forall_map_text _ (fun w => len w <= chunk_size)).
      rewrite Htexts. by apply kept_windows_bounded.
    + intros Hall. by eapply reconstruct_when_all_kept.
Qed.

(** The sample page, cut into windows of 100 characters that overlap by
    40: both windows are kept and give the page back. *)
Lemma fixed_size_chunks_bounded_and_cover_witness :
  exists chunks,
    Ingestion.chunk_content [sample_page] 100 40 = Returned chunks
    /\ join (without_overlap 40 (map Ingestion.chunk_text chunks))
       = Ingestion.content sample_page.
Proof.
  destruct (fixed_size_chunks_bounded_and_cover 100 40 ltac:(lia))
    as (_ & Hpage & _).
  destruct (Hpage sample_page) as (chunks & Hret & _ & _ & Hall).
  exists chunks. split; [exact Hret |]. apply Hall. vm_compute. reflexivity.
Defined.

(** C1 as stated fails: a page whose text has at most 50 characters gives
    no chunk at all, so nothing is left to reconstruct it from. *)
Lemma short_page_gives_no_chunk :
  Ingestion.chunk_content [short_page] 1000 200 = Returned []
  /\ join (without_overlap 200 (map Ingestion.chunk_text []))
     <> Ingestion.content short_page.
Proof. split; [vm_compute; reflexivity | discriminate]. Qed.

(** ** The chunker outside its stride precondition *)

Lemma range_zero_step start stop :
  range start stop 0 = Raised (ValueError "range() arg 3 must not be zero").
Proof. done. Qed.

Lemma range_negative_step stop step :
  step < 0 -> 0 <= stop -> range 0 stop step = Returned [].
Proof.
  intros Hs Hstop. unfold range, range_len.
  destruct (Z.eqb_spec step 0); [lia |].
  destruct (Z.ltb_spec 0 step); [lia |].
  destruct (Z.ltb_spec stop 0); [lia | done].
Qed.

Lemma ingestion_chunk_content_negative_step pages chunk_size overlap :
  chunk_size < overlap ->
  Ingestion.chunk_content pages chunk_size overlap = Returned [].
Proof.
  intros H. induction pages as [|page pages IH]; [done |].
  simpl. unfold Ingestion.chunk_page.
  rewrite range_negative_step by (lia || apply len_nonneg).
  simpl. by rewrite IH.
Qed.

(** C9.  With [chunk_size = overlap] the chunker raises [ValueError] on the
    first page it is given, whatever the page holds; with
    [chunk_size < overlap] it returns no chunk for any page.  The fixed-size
    fallback of [chunk_content_by_structure] does the same on a page that
    reaches it. *)
Theorem chunker_outside_stride_precondition :
  (forall page pages n,
      Ingestion.chunk_content (page :: pages) n n
      = Raised (ValueError "range() arg 3 must not be zero"))
  /\ (forall pages chunk_size overlap,
      chunk_size < overlap ->
      Ingestion.chunk_content pages chunk_size overlap = Returned [])
  /\ (forall page pages n,
      WebScraper._chunk_by_headings (WebScraper.content page)
                                    (WebScraper.headings page) = [] ->
      WebScraper.chunk_content_by_structure (page :: pages) n n
      = Raised (ValueError "range() arg 3 must not be zero"))
  /\ (forall page chunk_size overlap,
      chunk_size < overlap ->
      WebScraper._chunk_by_headings (WebScraper.content page)
                                    (WebScraper.headings page) = [] ->
      WebScraper.chunk_content_by_structure [page] chunk_size overlap
      = Returned []).
Proof.
  repeat split.
  - intros page pages n. simpl. unfold Ingestion.chunk_page.
    by rewrite Z.sub_diag, range_zero_step.
  - apply ingestion_chunk_content_negative_step.
  - intros page pages n Hfallback.
    unfold WebScraper.chunk_content_by_structure. simpl.
    unfold WebScraper.chunk_page. rewrite Hfallback. simpl.
    by rewrite Z.sub_diag, range_zero_step.
  - intros page chunk_size overlap H Hfallback.
    unfold WebScraper.chunk_content_by_structure. simpl.
    unfold WebScraper.chunk_page. rewrite Hfallback. simpl.
    by rewrite range_negative_step by (lia || apply len_nonneg).
Qed.

(** ** Loops *)

Section WhileLoop.

Context {S : Type} (cond : S -> bool) (body : S -> S).


(** An invariant of the body holds when the loop ends, and the loop
    condition is then false. *)
Lemma while_loop_invariant (I : S -> Prop) fuel st r :
  (forall s, I s -> cond s = true -> I (body s)) ->
  I st -> while_loop cond body fuel st = Some r ->
  I r /\ cond r = false.
Proof.
  intros Hbody. revert st. induction fuel as [|fuel IH]; intros st HI Hrun.
  - simpl in Hrun. destruct (cond st) eqn:Hc; [done |].
    by injection Hrun as <-.
  - simpl in Hrun. destruct (cond st) eqn:Hc.
    + eapply IH; [| done]. by apply Hbody.
    + by injection Hrun as <-.
Qed.


End WhileLoop.

(** ** The crawl loop of [WebsiteIngestion] *)

Section IngestionCrawl.

Variable urlparse : string -> outcome Url.ParseResult.
Variable urljoin : string -> string -> outcome string.
Variable list_of_set : gset string -> list string.
Variable get : Web.session.
Variable max_pages : Z.

Lemma ingestion_scrape_page_url n u p :
  Ingestion.scrape_page urlparse urljoin list_of_set get n u = Some p ->
  Ingestion.url p = u.
Proof.
  unfold Ingestion.scrape_page. intros H.
  repeat (match type of H with
          | match ?x with _ => _ end = _ => destruct x; try done
          | (if ?x then _ else _) = _ => destruct x; try done
          end).
  by injection H as <-.
Qed.

Lemma ingestion_step_inv st :
  ingestion_crawl_inv max_pages st ->
  Ingestion.crawl_continues max_pages st = true ->
  ingestion_crawl_inv max_pages
    (Ingestion.crawl_step urlparse urljoin list_of_set get max_pages st).
Proof.
  intros (Hnd & Hvis & Hsub & Hlen) Hc.
  apply andb_true_iff in Hc as [_ Hlt]. apply Z.ltb_lt in Hlt.
  unfold Ingestion.crawl_step.
  destruct (Ingestion.urls_to_visit st) as [|u rest]; [done |].
  case_bool_decide as Hin; [done |].
  assert (NoDup (Ingestion.scraped st ++ [u])) as Hnd'.
  { apply NoDup_app. split_and!; [done | | apply NoDup_singleton].
    intros x Hx ->%list_elem_of_singleton. by apply Hin, Hvis. }
  assert (forall x, x ∈ Ingestion.scraped st ++ [u] ->
                    x ∈ ({[u]} ∪ Ingestion.visited_urls st : gset string))
    as Hvis'.
  { intros x [Hx | Hx%list_elem_of_singleton]%elem_of_app; set_solver. }
  destruct (Ingestion.scrape_page _ _ _ _ _ u) as [p|] eqn:Hp.
  - split_and!; simpl; [done | done | |].
    + rewrite map_app. simpl. rewrite (ingestion_scrape_page_url _ _ _ Hp).
      by apply sublist_app.
    + rewrite length_app. simpl. lia.
  - split_and!; simpl; [done | done | | done].
    by apply sublist_inserts_r.
Qed.


Lemma ingestion_init_inv base_url :
  ingestion_crawl_inv max_pages (Ingestion.crawl_init base_url).
Proof.
  split_and!; simpl; [apply NoDup_nil_2 | | done | lia].
  intros u Hu. by apply elem_of_nil in Hu.
Qed.


End IngestionCrawl.

(** ** The crawl loop of [AdvancedWebScraper] *)

Section ScraperCrawl.

Variable urlparse : string -> outcome Url.ParseResult.
Variable urljoin : string -> string -> outcome string.
Variable list_of_set : gset string -> list string.
Variable get : Web.session.
Variable self : WebScraper.Scraper.
Variable max_pages : Z.

Lemma scraper_scrape_page_url n u p :
  WebScraper.scrape_page get n u = Some p -> WebScraper.url p = u.
Proof.
  unfold WebScraper.scrape_page. destruct (get n u); [| done].
  by intros [= <-].
Qed.

(** A successful request always gives a page. *)
Lemma scraper_scrape_page_some n u soup :
  get n u = Returned soup ->
  exists p, WebScraper.scrape_page get n u = Some p
            /\ WebScraper.content p
               = WebScraper._clean_text (WebScraper._extract_content_smart soup).
Proof.
  intros H. unfold WebScraper.scrape_page. rewrite H. by eexists.
Qed.

Lemma scraper_step_inv st :
  scraper_crawl_inv self max_pages st ->
  WebScraper.crawl_continues max_pages st = true ->
  scraper_crawl_inv self max_pages
    (WebScraper.crawl_step urlparse urljoin list_of_set get self max_pages st).
Proof.
  intros (Hnd & Hvis & Hsub0 & Hdepth & Hsub & Hlen) Hc.
  apply andb_true_iff in Hc as [_ Hlt]. apply Z.ltb_lt in Hlt.
  unfold WebScraper.crawl_step.
  destruct (WebScraper.urls_to_visit st) as [|[u d] rest]; [done |].
  destruct (bool_decide (u ∈ WebScraper.visited st)
            || (WebScraper.max_depth self <? d)) eqn:Hskip; [done |].
  apply orb_false_iff in Hskip as [Hin Hd].
  apply bool_decide_eq_false in Hin. apply Z.ltb_ge in Hd.
  assert (NoDup (map fst (WebScraper.scraped st ++ [(u, d)]))) as Hnd'.
  { rewrite map_app. apply NoDup_app. split_and!; [done | | apply NoDup_singleton].
    intros x Hx ->%list_elem_of_singleton. by apply Hin, Hvis. }
  assert (forall x, x ∈ map fst (WebScraper.scraped st ++ [(u, d)]) ->
            x ∈ ({[u]} ∪ WebScraper.visited st : gset string)
            /\ x ∉ WebScraper.visited_urls self) as Hvis'.
  { intros x. rewrite map_app.
    intros [Hx | ->%list_elem_of_singleton]%elem_of_app.
    - destruct (Hvis x Hx). set_solver.
    - set_solver. }
  assert (WebScraper.visited_urls self
          ⊆ ({[u]} ∪ WebScraper.visited st : gset string)) as Hsub0'
    by set_solver.
  assert (Forall (fun e => snd e <= WebScraper.max_depth self)
                 (WebScraper.scraped st ++ [(u, d)])) as Hdepth'.
  { apply Forall_app. split; [done |]. by apply Forall_singleton. }
  destruct (WebScraper.scrape_page get _ u) as [p|] eqn:Hp.
  - assert (map WebScraper.url (WebScraper.pages st ++ [p])
              `sublist_of` map fst (WebScraper.scraped st ++ [(u, d)])) as Hs.
    { rewrite !map_app. simpl. rewrite (scraper_scrape_page_url _ _ _ Hp).
      by apply sublist_app. }
    assert (Z.of_nat (length (WebScraper.pages st ++ [p])) <= Z.max 0 max_pages)
      as Hl by (rewrite length_app; simpl; lia).
    destruct ((Z.of_nat (length (WebScraper.pages st ++ [p])) <? max_pages)
              && (d <? WebScraper.max_depth self)); by split_and!.
  - split_and!; simpl; try done.
    rewrite map_app. by apply sublist_inserts_r.
Qed.


Lemma scraper_init_inv start_url :
  scraper_crawl_inv self max_pages (WebScraper.crawl_init self start_url).
Proof.
  split_and!; simpl; [apply NoDup_nil_2 | | done | done | done | lia].
  intros u Hu. by apply elem_of_nil in Hu.
Qed.


End ScraperCrawl.




(** ** The patterns of [is_valid_url] *)

Lemma dot_star_spec k s :
  Regex.dot_star k s = true
  <-> exists taken rest, s = taken ++ rest /\ no_newline taken /\ k rest = true.
Proof.
  induction s as [|x s IH]; simpl.
  - rewrite orb_false_r. split.
    + intros Hk. exists [], []. split_and!; [done | constructor | done].
    + intros (taken & rest & Heq & _ & Hk).
      symmetry in Heq. apply app_eq_nil in Heq as [-> ->]. done.
  - rewrite orb_true_iff, andb_true_iff, negb_true_iff, IH. split.
    + intros [Hk | [Hx (taken & rest & -> & Hnl & Hk)]].
      * exists [], (x :: s). split_and!; [done | constructor | done].
      * exists (x :: taken), rest. split_and!; [done | by constructor | done].
    + intros (taken & rest & Heq & Hnl & Hk).
      destruct taken as [|y taken]; simpl in Heq.
      * left. by rewrite Heq.
      * injection Heq as -> ->. inversion Hnl; subst. right. split; [done |].
        by exists taken, rest.
Qed.

Lemma matches_spec r : forall s k,
  Regex.matches r s k = true
  <-> exists taken rest, s = taken ++ rest /\ consumes r taken rest
                         /\ k rest = true.
Proof.
  induction r as [| c | | r1 IH1 r2 IH2 | r1 IH1 r2 IH2 |]; intros s k; simpl.
  - split.
    + intros Hk. by exists [], s.
    + by intros (taken & rest & -> & -> & Hk).
  - destruct s as [|x s].
    + split; [done |].
      intros (taken & rest & Heq & (y & -> & _) & _). done.
    + rewrite andb_true_iff, bool_decide_eq_true. split.
      * intros [Hx Hk]. exists [x], s. split_and!; [done | by exists x | done].
      * intros (taken & rest & Heq & (y & -> & Hy) & Hk).
        injection Heq as -> ->. done.
  - apply dot_star_spec.
  - rewrite IH1. split.
    + intros (t1 & rest1 & -> & H1 & H2). apply IH2 in H2
        as (t2 & rest & -> & H2 & Hk).
      exists (t1 ++ t2), rest. rewrite <- app_assoc.
      split_and!; [done | by exists t1, t2 | done].
    + intros (taken & rest & -> & (t1 & t2 & -> & H1 & H2) & Hk).
      exists t1, (t2 ++ rest). rewrite <- app_assoc.
      split_and!; [done | done |]. apply IH2. by exists t2, rest.
  - rewrite orb_true_iff, IH1, IH2. split.
    + intros [(t & rest & -> & H & Hk) | (t & rest & -> & H & Hk)];
        exists t, rest; split_and!; auto.
    + intros (t & rest & -> & [H | H] & Hk); [left | right];
        by exists t, rest.
  - rewrite andb_true_iff. split.
    + intros [He Hk]. by exists [], s.
    + by intros (taken & rest & -> & [-> He] & Hk).
Qed.

Lemma consumes_word w taken rest :
  consumes (Regex.word w) taken rest <-> same_ignoring_case taken (chars w).
Proof.
  unfold Regex.word, same_ignoring_case.
  revert taken. induction (chars w) as [|c l IH]; intros taken; simpl.
  - split; [by intros -> |]. by intros ->%map_eq_nil.
  - split.
    + intros (t1 & t2 & -> & (x & -> & Hx) & H2). simpl.
      apply IH in H2. by rewrite Hx, H2.
    + destruct taken as [|x taken]; [done |]. simpl. intros [= Hx Ht].
      exists [x], taken. split_and!; [done | by exists x | by apply IH].
Qed.

Lemma consumes_one_of ws taken rest :
  ws <> [] ->
  consumes (Regex.one_of ws) taken rest
  <-> exists w, w ∈ ws /\ same_ignoring_case taken (chars w).
Proof.
  destruct ws as [|w0 ws]; [done |]. intros _. unfold Regex.one_of.
  assert (forall r0 (P0 : Prop),
            (consumes r0 taken rest <-> P0) ->
            (consumes (foldl (fun r w' => Regex.Alt r (Regex.word w')) r0 ws)
                      taken rest
             <-> P0 \/ exists w, w ∈ ws /\ same_ignoring_case taken (chars w)))
    as Hfold.
  { induction ws as [|w ws IH]; intros r0 P0 H0; simpl.
    - rewrite H0. split; [by left |]. intros [? | (w & Hw & _)]; [done |].
      by apply elem_of_nil in Hw.
    - rewrite (IH _ (P0 \/ same_ignoring_case taken (chars w))).
      + split.
        * intros [[? | ?] | (w' & Hw' & ?)]; [by left | right | right].
          -- exists w. split; [left | done].
          -- exists w'. split; [by right | done].
        * intros [? | (w' & Hw' & ?)]; [by left; left |].
          apply elem_of_cons in Hw' as [-> | Hw']; [by left; right |].
          right. by exists w'.
      + simpl. by rewrite H0, consumes_word. }
  rewrite (Hfold _ _ (consumes_word w0 taken rest)). split.
  - intros [? | (w & Hw & ?)]; [exists w0 | exists w]; split; try done;
      [left | by right].
  - intros (w & Hw & ?). apply elem_of_cons in Hw as [-> | Hw]; [by left |].
    right. by exists w.
Qed.

(** [re.match] of a path pattern. *)
Lemma path_pattern_spec w url :
  Regex.re_match (WebScraper.path_pattern w) url = true
  <-> occurs_in_first_line ("/" +:+ w) url.
Proof.
  unfold Regex.re_match, WebScraper.path_pattern. rewrite matches_spec.
  unfold occurs_in_first_line. cbn [consumes]. split.
  - intros (taken & rest & Hurl & (pre & t2 & -> & Hpre
             & (mid & post & -> & Hmid & Hpost)) & _).
    apply consumes_word in Hmid.
    exists pre, mid, (post ++ rest). split_and!; [| done | done].
    by rewrite Hurl, <- !app_assoc.
  - intros (pre & mid & post & Hurl & Hpre & Hmid).
    exists (pre ++ mid ++ []), post. split_and!; [| | done].
    + by rewrite Hurl, <- !app_assoc.
    + exists pre, (mid ++ []). split_and!; [done | done |].
      exists mid, []. split_and!; [done | by apply consumes_word | constructor].
Qed.

Lemma extension_pattern_spec url :
  Regex.re_match WebScraper.extension_pattern url = true
  <-> exists ext, ext ∈ WebScraper.static_extensions
                  /\ ends_with_extension ext url.
Proof.
  unfold Regex.re_match, WebScraper.extension_pattern. rewrite matches_spec.
  unfold ends_with_extension. cbn [consumes]. split.
  - intros (taken & rest & Hurl & (pre & t2 & -> & Hpre
             & (t3 & t4 & -> & (x & -> & Hx)
                & (mid & t5 & -> & Hmid & (-> & Heol)))) & _).
    apply consumes_one_of in Hmid as (ext & Hext & Hmid); [| done].
    exists ext. split; [done |]. exists pre, mid, rest.
    split_and!; try done. rewrite Hurl, <- !app_assoc. simpl.
    f_equal. f_equal.
    revert Hx. clear. intros Hx.
    unfold lower_char in Hx.
    destruct ((65 <=? code x) && (code x <=? 90)) eqn:Hup.
    + exfalso. apply andb_true_iff in Hup as [H1 H2].
      apply Z.leb_le in H1, H2.
      change (code "."%char) with 46 in Hx. simpl in Hx.
      apply (f_equal code) in Hx. unfold code at 1 in Hx.
      rewrite nat_ascii_embedding in Hx by lia.
      change (code "."%char) with 46 in Hx. lia.
    + by rewrite Hx.
  - intros (ext & Hext & pre & mid & post & Hurl & Hpre & Hmid & Heol).
    exists (pre ++ ["."%char] ++ mid ++ []), post. split_and!; [| | done].
    + rewrite Hurl. simpl. by rewrite ?app_nil_r, <- ?app_assoc.
    + exists pre, (["."%char] ++ mid ++ []). split_and!; [done | done |].
      exists ["."%char], (mid ++ []). split_and!; [done | by exists "."%char |].
      exists mid, []. split_and!; [done | | done | done].
      apply consumes_one_of; [done |]. by exists ext.
Qed.

Lemma skip_patterns_spec url :
  existsb (fun pattern => Regex.re_match pattern url) WebScraper.skip_patterns
  = true
  <-> (exists ext, ext ∈ WebScraper.static_extensions
                   /\ ends_with_extension ext url)
      \/ (exists w, w ∈ WebScraper.blocked_words
                    /\ occurs_in_first_line ("/" +:+ w) url).
Proof.
  unfold WebScraper.skip_patterns. cbn [existsb].
  rewrite orb_true_iff, extension_pattern_spec, existsb_exists.
  apply or_iff_compat_l. split.
  - intros (p & Hp & Hm). apply in_map_iff in Hp as (w & <- & Hw).
    exists w. split; [by apply list_elem_of_In | by apply path_pattern_spec].
  - intros (w & Hw & Ho). exists (WebScraper.path_pattern w). split.
    + apply in_map. by apply list_elem_of_In.
    + by apply path_pattern_spec.
Qed.

(** The suffix test of [_extract_links]. *)
Lemma endswith_spec s x :
  endswith s x = true <-> chars x `suffix_of` chars s.
Proof.
  unfold endswith. rewrite bool_decide_eq_true. split.
  - intros H. exists (take (length (chars s) - length (chars x)) (chars s)).
    rewrite <- H at 2. by rewrite take_drop.
  - intros [pre ->]. rewrite length_app.
    replace (length pre + length (chars x) - length (chars x))%nat
      with (length pre) by lia.
    by rewrite drop_app_length.
Qed.

(** C4, as amended.  [is_valid_url] accepts a URL exactly when both URLs
    parse, their network locations are equal or the domain restriction is
    off, no blocklisted word after a slash occurs in the first line of the
    URL, in whatever case, and the URL does not end in a dot and one of the
    nine static extensions, in whatever case; the scheme is not looked at.
    The test of [_extract_links] accepts a resolved link exactly when its
    network location is the base's, its scheme is http or https and the
    link does not end in one of the seven extensions it lists; it has no
    blocklist of words. *)
Theorem link_validity_checks :
  (forall urlparse self url base,
     WebScraper.is_valid_url urlparse self url base = true
     <-> exists parsed base_parsed,
           urlparse url = Returned parsed
           /\ urlparse base = Returned base_parsed
           /\ (WebScraper.domain_restrictions self = true ->
               Url.netloc parsed = Url.netloc base_parsed)
           /\ (forall w, w ∈ WebScraper.blocked_words ->
                 ~ occurs_in_first_line ("/" +:+ w) url)
           /\ (forall ext, ext ∈ WebScraper.static_extensions ->
                 ~ ends_with_extension ext url))
  /\ (forall parsed base_domain full_url,
     Ingestion.link_accepted parsed base_domain full_url = true
     <-> Url.netloc parsed = base_domain
         /\ (Url.scheme parsed = "http" \/ Url.scheme parsed = "https")
         /\ (forall ext, ext ∈ Ingestion.static_extensions ->
               ~ chars ext `suffix_of` chars full_url)).
Proof.
  split.
  - intros urlparse self url base. unfold WebScraper.is_valid_url.
    destruct (urlparse url) as [parsed | e] eqn:Hu; cbn -[existsb].
    2: { split; [done |]. by intros (? & ? & ? & _). }
    destruct (urlparse base) as [base_parsed | e] eqn:Hb; cbn -[existsb].
    2: { split; [done |]. by intros (? & ? & _ & ? & _). }
    destruct (WebScraper.domain_restrictions self
              && negb (bool_decide (Url.netloc parsed = Url.netloc base_parsed)))
      eqn:Hd; cbn -[existsb].
    + split; [done |]. intros (p & b & [= <-] & [= <-] & Hdom & _).
      apply andb_true_iff in Hd as [Hr Hne]. apply negb_true_iff in Hne.
      apply bool_decide_eq_false in Hne. exfalso. by apply Hne, Hdom.
    + rewrite negb_true_iff, <- not_true_iff_false, skip_patterns_spec.
      split.
      * intros Hno. exists parsed, base_parsed. split_and!; [done | done | | |].
        -- intros Hr. rewrite Hr in Hd. simpl in Hd.
           apply negb_false_iff in Hd. by apply bool_decide_eq_true in Hd.
        -- intros w Hw Ho. apply Hno. right. by exists w.
        -- intros ext He Ho. apply Hno. left. by exists ext.
      * intros (p & b & _ & _ & _ & Hw & He) [(ext & ? & ?) | (w & ? & ?)].
        -- by eapply He.
        -- by eapply Hw.
  - intros parsed base_domain full_url. unfold Ingestion.link_accepted.
    rewrite !andb_true_iff, orb_true_iff, !bool_decide_eq_true,
      negb_true_iff, <- not_true_iff_false, existsb_exists.
    split.
    + intros [[Hn Hs] Hx]. split_and!; [done | done |].
      intros ext He Hsuf. apply Hx. exists ext.
      split; [by apply list_elem_of_In | by apply endswith_spec].
    + intros (Hn & Hs & Hx). split_and!; [done | done |].
      intros (ext & He & Hsuf). apply (Hx ext); [by apply list_elem_of_In |].
      by apply endswith_spec.
Qed.

(** C4 as stated fails on both checks: [is_valid_url] accepts a URL whose
    scheme is ftp, and the test of [_extract_links] accepts a login page. *)
Lemma link_checks_accept_ftp_and_login :
  Url.urlsplit "ftp://example.com/docs"
  = Returned {| Url.scheme := "ftp"; Url.netloc := "example.com" |}
  /\ WebScraper.is_valid_url Url.urlsplit sample_scraper
       "ftp://example.com/docs" "https://example.com/" = true
  /\ Url.urlsplit "https://example.com/login"
     = Returned {| Url.scheme := "https"; Url.netloc := "example.com" |}
  /\ Ingestion.link_accepted
       {| Url.scheme := "https"; Url.netloc := "example.com" |}
       "example.com" "https://example.com/login" = true
  /\ WebScraper.is_valid_url Url.urlsplit sample_scraper
       "https://example.com/login" "https://example.com/" = false.
Proof. vm_compute. by split_and!. Qed.

(** ** Which scraped pages are kept *)

Lemma truthy_false_iff s : truthy s = false <-> s = "".
Proof.
  unfold truthy. rewrite negb_false_iff. apply String.eqb_eq.
Qed.

Lemma strip_empty : strip "" = "".
Proof. done. Qed.

(** The two nested tests of [scrape_page] come to one: the stripped text
    is empty. *)
Lemma ingestion_rejects_iff_empty content :
  (negb (truthy content) || (len (strip content) <? 100))
  && (negb (truthy content) || (len (strip content) =? 0))
  = (len (strip content) =? 0).
Proof.
  destruct (truthy content) eqn:Ht; simpl.
  - destruct (Z.eqb_spec (len (strip content)) 0) as [-> |]; [done |].
    apply andb_false_r.
  - apply truthy_false_iff in Ht as ->. by rewrite strip_empty.
Qed.

Lemma ingestion_step_appends urlparse urljoin list_of_set get max_pages
    st url rest p :
  Ingestion.urls_to_visit st = url :: rest ->
  url ∉ Ingestion.visited_urls st ->
  Ingestion.scrape_page urlparse urljoin list_of_set get
    (Ingestion.requests st) url = Some p ->
  Ingestion.pages
    (Ingestion.crawl_step urlparse urljoin list_of_set get max_pages st)
  = Ingestion.pages st ++ [p].
Proof.
  intros Hq Hnew Hp. unfold Ingestion.crawl_step. rewrite Hq.
  rewrite bool_decide_eq_false_2 by done. by rewrite Hp.
Qed.

Lemma scraper_step_appends urlparse urljoin list_of_set get self max_pages
    st url depth rest p :
  WebScraper.urls_to_visit st = (url, depth) :: rest ->
  url ∉ WebScraper.visited st ->
  depth <= WebScraper.max_depth self ->
  WebScraper.scrape_page get (WebScraper.requests st) url = Some p ->
  WebScraper.pages
    (WebScraper.crawl_step urlparse urljoin list_of_set get self max_pages st)
  = WebScraper.pages st ++ [p].
Proof.
  intros Hq Hnew Hd Hp. unfold WebScraper.crawl_step. rewrite Hq.
  rewrite bool_decide_eq_false_2 by done.
  destruct (Z.ltb_spec (WebScraper.max_depth self) depth); [lia |].
  simpl. rewrite Hp.
  by destruct ((Z.of_nat (length (WebScraper.pages st ++ [p])) <? max_pages)
               && (depth <? WebScraper.max_depth self)).
Qed.

(** C5, as amended.  After a successful request, [scrape_page] of
    [WebsiteIngestion] gives no page exactly when the extracted text is
    empty once stripped, or when the extraction of the links raises; a text
    of fewer than 100 characters is kept.  [scrape_page] of
    [AdvancedWebScraper] gives a page after every successful request,
    whatever the length of its text.  Both crawl loops append every page
    that [scrape_page] gives. *)
Theorem scraped_pages_kept :
  (forall urlparse urljoin list_of_set (get : Web.session) n url soup,
     get n url = Returned soup ->
     let raw := Ingestion._extract_main_content soup in
     (len (strip raw) = 0 ->
      Ingestion.scrape_page urlparse urljoin list_of_set get n url = None)
     /\ (forall e,
           Ingestion._extract_links urlparse urljoin list_of_set soup url
           = Raised e ->
           Ingestion.scrape_page urlparse urljoin list_of_set get n url = None)
     /\ (forall links,
           0 < len (strip raw) ->
           Ingestion._extract_links urlparse urljoin list_of_set soup url
           = Returned links ->
           Ingestion.scrape_page urlparse urljoin list_of_set get n url
           = Some {| Ingestion.url := url;
                     Ingestion.title := default "" (strip <$> Web.soup_title soup);
                     Ingestion.content := Ingestion._clean_text raw;
                     Ingestion.links := links |}))
  /\ (forall (get : Web.session) n url soup,
     get n url = Returned soup ->
     exists p,
       WebScraper.scrape_page get n url = Some p
       /\ WebScraper.url p = url
       /\ WebScraper.content p
          = WebScraper._clean_text (WebScraper._extract_content_smart soup))
  /\ (forall urlparse urljoin list_of_set get max_pages st url rest p,
     Ingestion.urls_to_visit st = url :: rest ->
     url ∉ Ingestion.visited_urls st ->
     Ingestion.scrape_page urlparse urljoin list_of_set get
       (Ingestion.requests st) url = Some p ->
     Ingestion.pages
       (Ingestion.crawl_step urlparse urljoin list_of_set get max_pages st)
     = Ingestion.pages st ++ [p])
  /\ (forall urlparse urljoin list_of_set get self max_pages
             st url depth rest p,
     WebScraper.urls_to_visit st = (url, depth) :: rest ->
     url ∉ WebScraper.visited st ->
     depth <= WebScraper.max_depth self ->
     WebScraper.scrape_page get (WebScraper.requests st) url = Some p ->
     WebScraper.pages
       (WebScraper.crawl_step urlparse urljoin list_of_set get self
                              max_pages st)
     = WebScraper.pages st ++ [p]).
Proof.
  split_and!.
  - intros urlparse urljoin list_of_set get n url soup Hget raw.
    unfold Ingestion.scrape_page. rewrite Hget. fold raw.
    rewrite ingestion_rejects_iff_empty. split_and!.
    + intros ->. done.
    + intros e ->. by destruct (len (strip raw) =? 0).
    + intros links Hpos ->.
      destruct (Z.eqb_spec (len (strip raw)) 0); [lia | done].
  - intros get n url soup Hget.
    unfold WebScraper.scrape_page. rewrite Hget. by eexists.
  - apply ingestion_step_appends.
  - apply scraper_step_appends.
Qed.

(** A page of two letters is kept by [scrape_page]. *)
Lemma scraped_pages_kept_witness :
  Ingestion.scrape_page Url.urlsplit plain_urljoin elements (site tiny_soup)
    0 "https://example.com/"
  = Some {| Ingestion.url := "https://example.com/";
            Ingestion.title := "Home";
            Ingestion.content := "Hi";
            Ingestion.links := [] |}.
Proof.
  destruct scraped_pages_kept as (Hkept & _).
  destruct (Hkept Url.urlsplit plain_urljoin elements (site tiny_soup)
              0%nat "https://example.com/" tiny_soup eq_refl)
    as (_ & _ & Hsome).
  apply (Hsome []); [vm_compute; reflexivity | vm_compute; reflexivity].
Defined.

(** C5 as stated fails: a page of two letters, and a page left with no
    text at all once cleaned, are returned by [scrape_website]; a page with
    no text is returned by [crawl_website]. *)
Lemma near_empty_pages_are_returned :
  Ingestion.scrape_website Url.urlsplit plain_urljoin elements (site tiny_soup)
    1 "https://example.com/" 10
  = Some [ {| Ingestion.url := "https://example.com/";
              Ingestion.title := "Home";
              Ingestion.content := "Hi";
              Ingestion.links := [] |} ]
  /\ Ingestion.scrape_website Url.urlsplit plain_urljoin elements
       (site symbols_soup) 1 "https://example.com/" 10
     = Some [ {| Ingestion.url := "https://example.com/";
                 Ingestion.title := "Home";
                 Ingestion.content := "";
                 Ingestion.links := [] |} ]
  /\ fst <$> WebScraper.crawl_website Url.urlsplit plain_urljoin elements
               (site blank_soup) 1 sample_scraper "https://example.com/" 10
     = Some [ {| WebScraper.url := "https://example.com/";
                 WebScraper.title := "Home";
                 WebScraper.description := "";
                 WebScraper.content := "";
                 WebScraper.headings := WebScraper._extract_headings blank_soup;
                 WebScraper.word_count := 0 |} ].
Proof. split_and!; vm_compute; reflexivity. Qed.

(** ** The vector store *)

Section VectorStoreFacts.

Context {L : VectorStore.Library}.

Lemma similarity_search_returns self query k :
  exists docs, VectorStore.similarity_search self query k = Returned docs.
Proof.
  unfold VectorStore.similarity_search.
  destruct (VectorStore.vector_store self) as [index|]; [| by eexists].
  destruct (VectorStore.lib_similarity_search index query k); by eexists.
Qed.

Lemma similarity_search_with_score_returns self query k :
  exists docs,
    VectorStore.similarity_search_with_score self query k = Returned docs.
Proof.
  unfold VectorStore.similarity_search_with_score.
  destruct (VectorStore.vector_store self) as [index|]; [| by eexists].
  destruct (VectorStore.lib_similarity_search_with_score index query k);
    by eexists.
Qed.

Lemma nothing_from_no_documents {A} (f : A -> VectorStore.Document)
    (found : list A) (stored : list VectorStore.Document) :
  stored = [] -> (forall x, x ∈ found -> f x ∈ stored) -> found = [].
Proof.
  intros -> Hsub. destruct found as [|x found]; [done |].
  exfalso. eapply not_elem_of_nil, (Hsub x). by left.
Qed.

(** C6.  [similarity_search] and [similarity_search_with_score] never
    raise, and they return the empty list when the store is not
    initialized, when the call of the library raises, and when the index
    holds no document (the library returning only documents that the index
    holds). *)
Theorem similarity_search_empty_not_error :
  (forall self query k,
     (exists docs, VectorStore.similarity_search self query k = Returned docs)
     /\ (exists docs,
           VectorStore.similarity_search_with_score self query k
           = Returned docs))
  /\ (forall self query k,
     VectorStore.vector_store self = None ->
     VectorStore.similarity_search self query k = Returned []
     /\ VectorStore.similarity_search_with_score self query k = Returned [])
  /\ (forall self index query k e,
     VectorStore.vector_store self = Some index ->
     (VectorStore.lib_similarity_search index query k = Raised e ->
      VectorStore.similarity_search self query k = Returned [])
     /\ (VectorStore.lib_similarity_search_with_score index query k = Raised e ->
         VectorStore.similarity_search_with_score self query k = Returned []))
  /\ (forall self index query k,
     VectorStore.vector_store self = Some index ->
     VectorStore.documents_of index = [] ->
     ((forall docs doc,
         VectorStore.lib_similarity_search index query k = Returned docs ->
         doc ∈ docs -> doc ∈ VectorStore.documents_of index) ->
      VectorStore.similarity_search self query k = Returned [])
     /\ ((forall docs doc,
            VectorStore.lib_similarity_search_with_score index query k
            = Returned docs ->
            doc ∈ docs -> fst doc ∈ VectorStore.documents_of index) ->
         VectorStore.similarity_search_with_score self query k = Returned [])).
Proof.
  split_and!.
  - intros self query k. split;
      [apply similarity_search_returns
      | apply similarity_search_with_score_returns].
  - intros self query k Hnone.
    unfold VectorStore.similarity_search,
      VectorStore.similarity_search_with_score. by rewrite Hnone.
  - intros self index query k e Hsome.
    unfold VectorStore.similarity_search,
      VectorStore.similarity_search_with_score. rewrite Hsome.
    split; by intros ->.
  - intros self index query k Hsome Hempty.
    unfold VectorStore.similarity_search,
      VectorStore.similarity_search_with_score. rewrite Hsome.
    split; intros Hsound.
    + destruct (VectorStore.lib_similarity_search index query k)
        as [docs | e] eqn:Hs; [| done].
      simpl. f_equal.
      apply (nothing_from_no_documents id docs _ Hempty).
      intros doc. by apply Hsound.
    + destruct (VectorStore.lib_similarity_search_with_score index query k)
        as [docs | e] eqn:Hs; [| done].
      simpl. f_equal.
      apply (nothing_from_no_documents fst docs _ Hempty).
      intros doc. by apply Hsound.
Qed.

(** [load_vector_store] never raises; it returns [None] and
    leaves the store as it was when the index or its metadata file is not
    on disk; it returns [None] when a call of the library raises. *)
Lemma load_vector_store_spec :
  (forall self, exists r, fst (VectorStore.load_vector_store self) = Returned r)
  /\ (forall self,
     VectorStore.path_exists (VectorStore.index_path self)
     && VectorStore.path_exists (VectorStore.metadata_path self) = false ->
     VectorStore.load_vector_store self = (Returned None, self))
  /\ (forall self e,
     VectorStore.load_local (VectorStore.index_path self) = Raised e ->
     VectorStore.load_vector_store self = (Returned None, self))
  /\ (forall self e,
     VectorStore.pickle_load (VectorStore.metadata_path self) = Raised e ->
     fst (VectorStore.load_vector_store self) = Returned None).
Proof.
  split_and!.
  - intros self. unfold VectorStore.load_vector_store.
    repeat (match goal with
            | |- context [if ?b then _ else _] => destruct b
            | |- context [match ?x with _ => _ end] => destruct x
            end; simpl; try by eexists).
  - intros self H. unfold VectorStore.load_vector_store. by rewrite H.
  - intros self e H. unfold VectorStore.load_vector_store. rewrite H.
    by destruct (_ && _).
  - intros self e H. unfold VectorStore.load_vector_store. rewrite H.
    destruct (_ && _); [| done].
    by destruct (VectorStore.load_local _).
Qed.

End VectorStoreFacts.

(** ** The chat path *)

Section ChatFacts.

Context {L : VectorStore.Library} {E : Chatbot.Environment}.

(** The index is loaded only when nothing raised at import. *)
Lemma startup_loaded index :
  Chatbot.db Chatbot.startup = Some index ->
  Chatbot._import_error Chatbot.startup = None.
Proof.
  unfold Chatbot.startup.
  destruct Chatbot.import_and_embed as [[]|e]; simpl; [| done].
  destruct (VectorStore.path_exists "faiss_index"); simpl; [| done].
  by destruct (VectorStore.load_local "faiss_index").
Qed.

Lemma startup_without_index :
  VectorStore.path_exists "faiss_index" = false ->
  Chatbot.db Chatbot.startup = None.
Proof.
  intros H. unfold Chatbot.startup.
  destruct Chatbot.import_and_embed as [[]|e]; simpl; [| done].
  by rewrite H.
Qed.

Lemma get_answer_returns g query :
  exists a, Chatbot.get_answer g query = Returned a.
Proof.
  unfold Chatbot.get_answer, Chatbot.answer_from_index.
  destruct (Chatbot._import_error g) as [e|];
    [destruct (truthy e); [by eexists |] |];
    (destruct (Chatbot.db g) as [index|]; [| by eexists];
     destruct (VectorStore.lib_similarity_search index query 2)
       as [[|doc docs]|]; by eexists).
Qed.

(** C8.  Loading never raises.  [load_vector_store] returns [None], and
    leaves the store uninitialized, when the index or its metadata file is
    not on disk, and returns [None] when the library raises.  With no index
    on disk the chatbot starts with no index, and [get_answer] returns its
    message that the engine is unavailable for every query; when the import
    or the load raises it starts with no index too, and [get_answer]
    returns a message holding the error, or the unavailable message when
    the error has no text. *)
Theorem loading_a_missing_index_is_not_an_error :
  ((forall self,
      exists r, fst (VectorStore.load_vector_store self) = Returned r)
   /\ (forall self,
      VectorStore.path_exists (VectorStore.index_path self)
      && VectorStore.path_exists (VectorStore.metadata_path self) = false ->
      VectorStore.load_vector_store self = (Returned None, self))
   /\ (forall self e,
      VectorStore.load_local (VectorStore.index_path self) = Raised e ->
      VectorStore.load_vector_store self = (Returned None, self))
   /\ (forall self e,
      VectorStore.pickle_load (VectorStore.metadata_path self) = Raised e ->
      fst (VectorStore.load_vector_store self) = Returned None))
  /\ (VectorStore.path_exists "faiss_index" = false ->
      Chatbot.db Chatbot.startup = None)
  /\ (VectorStore.path_exists "faiss_index" = false ->
      Chatbot.import_and_embed = Returned () ->
      forall query,
        Chatbot.get_answer Chatbot.startup query = Returned Chatbot.unavailable
        /\ Chatbot.get_answer_safe Chatbot.startup query
           = Returned Chatbot.unavailable)
  /\ (forall e,
      (Chatbot.import_and_embed = Raised e
       \/ (Chatbot.import_and_embed = Returned ()
           /\ VectorStore.path_exists "faiss_index" = true
           /\ VectorStore.load_local "faiss_index" = Raised e)) ->
      Chatbot.db Chatbot.startup = None
      /\ forall query,
           Chatbot.get_answer Chatbot.startup query
           = Returned (if truthy (str_exn e)
                       then Chatbot.system_error (str_exn e)
                       else Chatbot.unavailable))
  /\ (forall g query, exists a, Chatbot.get_answer g query = Returned a).
Proof.
  split; [apply load_vector_store_spec |].
  split; [apply startup_without_index |].
  split; [| split].
  - intros Hno Himp query. unfold Chatbot.get_answer_safe, Chatbot.get_answer,
      Chatbot.answer_from_index, Chatbot.startup.
    by rewrite Himp; simpl; rewrite Hno.
  - intros e He.
    assert (Chatbot.startup
            = {| Chatbot._import_error := Some (str_exn e);
                 Chatbot.db := None |}) as ->.
    { unfold Chatbot.startup.
      destruct He as [-> | (-> & -> & ->)]; done. }
    split; [done |]. intros query. unfold Chatbot.get_answer. simpl.
    by destruct (truthy (str_exn e)).
  - apply get_answer_returns.
Qed.

(** C10.  When the index is loaded and the search of the library returns,
    [get_answer] returns the text of the first document found, as it is,
    and its fixed message when nothing was found; [get_answer_safe], which
    the chat page calls, returns the same.  No language model is part of
    [get_answer]. *)
Theorem get_answer_returns_first_document index query docs :
  Chatbot.db Chatbot.startup = Some index ->
  VectorStore.lib_similarity_search index query 2 = Returned docs ->
  let expected :=
    match docs with
    | [] => Chatbot.not_found
    | doc :: _ => VectorStore.page_content doc
    end in
  Chatbot.get_answer Chatbot.startup query = Returned expected
  /\ Chatbot.get_answer_safe Chatbot.startup query = Returned expected.
Proof.
  intros Hdb Hsearch expected.
  assert (Chatbot.get_answer Chatbot.startup query = Returned expected) as Hg.
  { unfold Chatbot.get_answer, Chatbot.answer_from_index.
    rewrite (startup_loaded index Hdb), Hdb, Hsearch. simpl.
    by destruct docs. }
  split; [done |]. unfold Chatbot.get_answer_safe. by rewrite Hg.
Qed.

End ChatFacts.

(** ** The answer pipeline *)

Section PipelineFacts.

Context {L : VectorStore.Library} {LC : RAGPipeline.LangChain}.

(** The [try] block never raises, and an exception of the chain becomes
    an error answer without sources. *)
Lemma answer_with_spec chain q :
  exists r,
    RAGPipeline.answer_with chain q = Returned r
    /\ RAGPipeline.question r = q
    /\ (forall e,
          RAGPipeline.call_chain chain q = Raised e ->
          RAGPipeline.answer r = "Error processing question: " +:+ str_exn e
          /\ RAGPipeline.sources r = []).
Proof.
  unfold RAGPipeline.answer_with.
  destruct (RAGPipeline.call_chain chain q) as [res | e]; simpl.
  - eexists. by split_and!.
  - eexists. split_and!; [done | done |]. by intros ? [= <-].
Qed.

(** C3, as amended.  Once a chain exists, [answer_question] never raises:
    it returns a result, and when the call of the chain raises the result
    holds an answer that describes the error and no source.  With no chain
    yet, [create_qa_chain] runs before the [try] block: when the vector
    store is missing or not initialized, [ValueError] is raised to the
    caller, as is whatever the construction of the chain raises; when the
    chain is built, the question is answered as above and the chain is
    kept. *)
Theorem answer_question_failures :
  (forall self chain q,
     RAGPipeline.qa_chain self = Some chain ->
     exists r,
       RAGPipeline.answer_question self q = (Returned r, self)
       /\ (forall e,
             RAGPipeline.call_chain chain q = Raised e ->
             RAGPipeline.answer r
             = "Error processing question: " +:+ str_exn e
             /\ RAGPipeline.sources r = []))
  /\ (forall self q,
     RAGPipeline.qa_chain self = None ->
     RAGPipeline.vector_store self ≫= VectorStore.vector_store = None ->
     RAGPipeline.answer_question self q
     = (Raised (ValueError "Vector store not initialized"), self))
  /\ (forall self q index e,
     RAGPipeline.qa_chain self = None ->
     RAGPipeline.vector_store self ≫= VectorStore.vector_store = Some index ->
     RAGPipeline.build_chain index = Raised e ->
     RAGPipeline.answer_question self q = (Raised e, self))
  /\ (forall self q index chain,
     RAGPipeline.qa_chain self = None ->
     RAGPipeline.vector_store self ≫= VectorStore.vector_store = Some index ->
     RAGPipeline.build_chain index = Returned chain ->
     exists r,
       RAGPipeline.answer_question self q
       = (Returned r, RAGPipeline.with_chain self (Some chain))
       /\ (forall e,
             RAGPipeline.call_chain chain q = Raised e ->
             RAGPipeline.answer r
             = "Error processing question: " +:+ str_exn e
             /\ RAGPipeline.sources r = [])).
Proof.
  split_and!.
  - intros self chain q Hc. unfold RAGPipeline.answer_question. rewrite Hc.
    destruct (answer_with_spec chain q) as (r & -> & _ & Herr). by exists r.
  - intros self q Hc Hvs.
    unfold RAGPipeline.answer_question, RAGPipeline.create_qa_chain.
    by rewrite Hc, Hvs.
  - intros self q index e Hc Hvs Hb.
    unfold RAGPipeline.answer_question, RAGPipeline.create_qa_chain.
    by rewrite Hc, Hvs, Hb.
  - intros self q index chain Hc Hvs Hb.
    unfold RAGPipeline.answer_question, RAGPipeline.create_qa_chain.
    rewrite Hc, Hvs, Hb.
    destruct (answer_with_spec chain q) as (r & -> & _ & Herr). by exists r.
Qed.

End PipelineFacts.

(** ** The semantic chunker *)

Lemma chunk_page_ignores_headings p1 p2 chunk_size overlap chunks :
  same_but_headings p1 p2 ->
  WebScraper.chunk_page p1 chunk_size overlap chunks
  = WebScraper.chunk_page p2 chunk_size overlap chunks.
Proof.
  intros (Hu & Ht & Hc). unfold WebScraper.chunk_page.
  rewrite Hu, Ht, Hc. reflexivity.
Qed.

(** C7.  [_chunk_by_headings] gives the same chunks whatever headings it
    is passed, and so does [chunk_content_by_structure] on pages that
    differ only in their headings. *)
Theorem semantic_chunks_ignore_headings :
  (forall content h1 h2,
     WebScraper._chunk_by_headings content h1
     = WebScraper._chunk_by_headings content h2)
  /\ (forall pages1 pages2 chunk_size overlap,
     Forall2 same_but_headings pages1 pages2 ->
     WebScraper.chunk_content_by_structure pages1 chunk_size overlap
     = WebScraper.chunk_content_by_structure pages2 chunk_size overlap).
Proof.
  split; [done |].
  intros pages1 pages2 chunk_size overlap Hsame.
  unfold WebScraper.chunk_content_by_structure. generalize (@nil WebScraper.Chunk).
  induction Hsame as [|p1 p2 pages1 pages2 Hp _ IH]; intros chunks; [done |].
  simpl. rewrite (chunk_page_ignores_headings p1 p2 _ _ _ Hp).
  destruct (WebScraper.chunk_page p2 chunk_size overlap chunks); simpl;
    [apply IH | done].
Qed.

(** ** Concrete runs *)

(** A search in an index without documents. *)
Lemma similarity_search_empty_not_error_witness :
  @VectorStore.similarity_search seeded_library empty_store "services" 4
  = Returned [].
Proof.
  destruct (@similarity_search_empty_not_error seeded_library)
    as (_ & _ & _ & Hzero).
  destruct (Hzero empty_store [] "services" 4 eq_refl eq_refl) as [Hs _].
  apply Hs. intros docs doc [= <-] Hin. exact Hin.
Defined.

(** The chatbot started on an empty disk. *)
Lemma loading_a_missing_index_is_not_an_error_witness :
  @Chatbot.get_answer bare_library
    (@Chatbot.startup bare_library (working_imports bare_library))
    "What services does it offer?"
  = Returned Chatbot.unavailable.
Proof.
  destruct (@loading_a_missing_index_is_not_an_error bare_library
              (working_imports bare_library)) as (_ & _ & Hmissing & _).
  apply (Hmissing eq_refl eq_refl).
Defined.

(** The chatbot started on the seeded index. *)
Lemma get_answer_returns_first_document_witness :
  @Chatbot.get_answer seeded_library
    (@Chatbot.startup seeded_library (working_imports seeded_library))
    "What services does it offer?"
  = Returned (VectorStore.page_content services_doc).
Proof.
  apply (@get_answer_returns_first_document seeded_library
           (working_imports seeded_library)
           [services_doc; about_doc] "What services does it offer?"
           [services_doc; about_doc] eq_refl eq_refl).
Defined.

(** A chain that raises gives an error answer. *)
Lemma answer_question_failures_witness :
  exists r,
    @RAGPipeline.answer_question seeded_library (list_chain _)
      chained_pipeline "" = (Returned r, chained_pipeline)
    /\ RAGPipeline.answer r = "Error processing question: empty question"
    /\ RAGPipeline.sources r = [].
Proof.
  destruct (@answer_question_failures seeded_library (list_chain _))
    as (Hchain & _).
  destruct (Hchain chained_pipeline () "" eq_refl) as (r & Hr & Herr).
  exists r. split; [exact Hr |]. apply (Herr (OtherError "empty question")).
  reflexivity.
Defined.

(** C3 as stated fails: with no chain yet and no initialized vector store,
    [answer_question] raises to its caller. *)
Lemma answer_question_raises_without_store :
  @RAGPipeline.answer_question seeded_library (list_chain _)
    (RAGPipeline.Build_t None None) "What is Python?"
  = (Raised (ValueError "Vector store not initialized"),
     RAGPipeline.Build_t None None)
  /\ @RAGPipeline.answer_question seeded_library (list_chain _)
       (RAGPipeline.Build_t (Some VectorStore.init) None) "What is Python?"
     = (Raised (ValueError "Vector store not initialized"),
        RAGPipeline.Build_t (Some VectorStore.init) None).
Proof. split; reflexivity. Qed.

(** The same page with and without headings. *)
Lemma semantic_chunks_ignore_headings_witness :
  WebScraper.chunk_content_by_structure
    [headed_page {[ "h1" := ["About"]; "h2" := ["Training"] ]}] 1000 200
  = WebScraper.chunk_content_by_structure [headed_page ∅] 1000 200.
Proof.
  destruct semantic_chunks_ignore_headings as (_ & Hpages).
  apply Hpages. constructor; [| constructor]. by split_and!.
Defined.

(** Equal and inverted sizes, on two pages and on a page of punctuation. *)
Lemma chunker_outside_stride_precondition_witness :
  Ingestion.chunk_content [sample_page; short_page] 100 100
  = Raised (ValueError "range() arg 3 must not be zero")
  /\ Ingestion.chunk_content [sample_page; short_page] 100 200 = Returned []
  /\ WebScraper.chunk_content_by_structure [dots_page] 100 100
     = Raised (ValueError "range() arg 3 must not be zero")
  /\ WebScraper.chunk_content_by_structure [dots_page] 100 200 = Returned [].
Proof.
  destruct chunker_outside_stride_precondition as (Hzero & Hneg & Hzero' & Hneg').
  split_and!.
  - apply Hzero.
  - apply Hneg. lia.
  - apply Hzero'. vm_compute. reflexivity.
  - apply Hneg'; [lia | vm_compute; reflexivity].
Defined.


(** An accepted URL, and what its acceptance says of it. *)
Lemma link_validity_checks_witness :
  exists parsed base_parsed,
    Url.urlsplit "https://example.com/docs/intro" = Returned parsed
    /\ Url.urlsplit "https://example.com/" = Returned base_parsed
    /\ Url.netloc parsed = Url.netloc base_parsed.
Proof.
  destruct link_validity_checks as (Hvalid & _).
  destruct (proj1 (Hvalid Url.urlsplit sample_scraper
                     "https://example.com/docs/intro" "https://example.com/"))
    as (parsed & base_parsed & Hu & Hb & Hdom & _).
  - vm_compute. reflexivity.
  - exists parsed, base_parsed. split_and!; [exact Hu | exact Hb |].
    apply Hdom. reflexivity.
Defined.

(** The crawl of the small site: [crawl_website] returns its three pages,
    each once, and [scrape_website] stops at two pages when told so. *)
Example crawl_of_small_site :
  (list_to_set <$> (map WebScraper.url <$>
     (fst <$> WebScraper.crawl_website Url.urlsplit plain_urljoin elements
                small_site 10 sample_scraper "https://example.com/" 50))
   : option (gset string))
  = Some {[ "https://example.com/"; "https://example.com/a";
            "https://example.com/b" ]}
  /\ (length <$> Ingestion.scrape_website Url.urlsplit plain_urljoin elements
                   small_site 10 "https://example.com/" 2)
     = Some 2%nat.
Proof. split; vm_compute; reflexivity. Qed.

(** * Further properties *)

(** ** Chunk identifiers *)

Lemma to_int_not_nil n :
  Z.to_int n <> Decimal.Pos Decimal.Nil /\ Z.to_int n <> Decimal.Neg Decimal.Nil.
Proof.
  destruct n as [|p|p]; simpl; split; try discriminate;
    intros [= H]; by apply DecimalPos.Unsigned.to_uint_nonnil in H.
Qed.

Lemma str_of_int_inj a b : str_of_int a = str_of_int b -> a = b.
Proof.
  unfold str_of_int. intros H.
  apply (f_equal NilZero.int_of_string) in H.
  destruct (to_int_not_nil a), (to_int_not_nil b).
  rewrite !NilZero.isi in H by done.
  injection H as H. apply (f_equal Z.of_int) in H.
  by rewrite !DecimalZ.of_to in H.
Qed.

Lemma digits_no_underscore d : "_"%char ∉ chars (NilEmpty.string_of_uint d).
Proof.
  induction d; simpl; try (apply not_elem_of_nil);
    (intros [H | H]%elem_of_cons; [discriminate | done]).
Qed.

Lemma str_of_int_no_underscore n : "_"%char ∉ chars (str_of_int n).
Proof.
  unfold str_of_int, NilZero.string_of_int, NilZero.string_of_uint.
  destruct (Z.to_int n) as [d | d]; destruct d; simpl;
    repeat (first [ apply not_elem_of_nil
                  | apply not_elem_of_cons; split; [discriminate |] ]);
    apply digits_no_underscore.
Qed.

(** A text is cut in one way only at its last occurrence of a character. *)
Lemma split_at_last {A} (x : A) (l1 r1 l2 r2 : list A) :
  l1 ++ x :: r1 = l2 ++ x :: r2 -> x ∉ r1 -> x ∉ r2 -> l1 = l2 /\ r1 = r2.
Proof.
  revert l2. induction l1 as [|a l1 IH]; intros [|b l2] Heq H1 H2; simpl in Heq.
  - by injection Heq as ->.
  - injection Heq as <- ->. exfalso. apply H1.
    apply elem_of_app. right. by left.
  - injection Heq as -> <-. exfalso. apply H2.
    apply elem_of_app. right. by left.
  - injection Heq as -> Heq. destruct (IH l2 Heq H1 H2) as [-> ->]. done.
Qed.

Lemma chunk_id_inj u1 u2 a b :
  u1 +:+ "_" +:+ str_of_int a = u2 +:+ "_" +:+ str_of_int b ->
  u1 = u2 /\ a = b.
Proof.
  intros H. apply (f_equal chars) in H. rewrite !chars_append in H.
  simpl in H.
  apply split_at_last in H as [Hu Hn]; try apply str_of_int_no_underscore.
  split; [by apply chars_inj | by apply str_of_int_inj, chars_inj].
Qed.

(** The identifiers of the chunks of one page: the URL of the page and
    the number of the window, each number at most once. *)
Lemma flat_map_sublist {A B} (f : A -> list B) (g : A -> B) (l : list A) :
  (forall x, f x = [] \/ f x = [g x]) -> flat_map f l `sublist_of` map g l.
Proof.
  intros Hf. induction l as [|x l IH]; simpl; [done |].
  destruct (Hf x) as [-> | ->]; simpl.
  - by apply sublist_cons.
  - by apply sublist_skip.
Qed.

Lemma map_flat_map {A B C} (h : B -> C) (f : A -> list B) (l : list A) :
  map h (flat_map f l) = flat_map (fun x => map h (f x)) l.
Proof.
  induction l as [|x l IH]; simpl; [done |]. by rewrite map_app, IH.
Qed.

Lemma flat_map_map {A B C} (f : B -> list C) (g : A -> B) (l : list A) :
  flat_map f (map g l) = flat_map (fun x => f (g x)) l.
Proof. induction l as [|x l IH]; simpl; [done |]. by rewrite IH. Qed.

Lemma NoDup_map_inj {A B} (f : A -> B) (l : list A) :
  (forall x y, x ∈ l -> y ∈ l -> f x = f y -> x = y) ->
  NoDup l -> NoDup (map f l).
Proof.
  intros Hinj Hnd. induction Hnd as [|x l Hx Hnd IH]; simpl.
  - apply NoDup_nil_2.
  - apply NoDup_cons_2.
    + intros Hin. apply list_elem_of_In, in_map_iff in Hin as (y & Hy & Hin).
      apply list_elem_of_In in Hin.
      rewrite (Hinj x y) in Hx; [done | by left | by right | done].
    + apply IH. intros a b Ha Hb. apply Hinj; by right.
Qed.

Lemma ingestion_chunk_page_ids page chunk_size overlap chunks :
  Ingestion.chunk_page page chunk_size overlap = Returned chunks ->
  NoDup (map Ingestion.chunk_id chunks)
  /\ (forall c, c ∈ chunks ->
        Ingestion.chunk_url c = Ingestion.url page
        /\ Ingestion.chunk_title c = Ingestion.title page
        /\ kept (Ingestion.chunk_text c) = true
        /\ exists k, Ingestion.chunk_id c
                     = Ingestion.url page +:+ "_" +:+ str_of_int k).
Proof.
  unfold Ingestion.chunk_page, range.
  destruct (Z.eqb_spec (chunk_size - overlap) 0) as [|Hstep]; [done |].
  simpl. intros [= <-]. split.
  - rewrite map_flat_map, flat_map_map.
    eapply sublist_NoDup; cycle 1.
    + apply (flat_map_sublist _
               (fun k => Ingestion.url page +:+ "_"
                         +:+ str_of_int ((0 + Z.of_nat k * (chunk_size - overlap))
                                         / (chunk_size - overlap)))).
      intros k. simpl.
      destruct (50 <? len (strip (slice (Ingestion.content page) _ _))); auto.
    + apply NoDup_map_inj; [| apply NoDup_seq].
      intros a b _ _ Hid. apply chunk_id_inj in Hid as [_ Hid].
      rewrite !Z.add_0_l, !Z.div_mul in Hid by done. lia.
  - intros c Hc. apply list_elem_of_In, in_flat_map in Hc as (i & _ & Hc).
    simpl in Hc.
    destruct (50 <? len (strip (slice (Ingestion.content page) i
                                      (i + chunk_size)))) eqn:Hk; [| done].
    destruct Hc as [<- | []]. simpl. split_and!; [done | done | done |].
    by eexists.
Qed.

Lemma ingestion_chunk_content_ids pages chunk_size overlap chunks :
  NoDup (map Ingestion.url pages) ->
  Ingestion.chunk_content pages chunk_size overlap = Returned chunks ->
  NoDup (map Ingestion.chunk_id chunks)
  /\ (forall c, c ∈ chunks ->
        exists page k,
          page ∈ pages
          /\ Ingestion.chunk_url c = Ingestion.url page
          /\ Ingestion.chunk_title c = Ingestion.title page
          /\ kept (Ingestion.chunk_text c) = true
          /\ Ingestion.chunk_id c
             = Ingestion.url page +:+ "_" +:+ str_of_int k).
Proof.
  revert chunks. induction pages as [|page pages IH]; intros chunks Hnd.
  - intros [= <-]. split; [apply NoDup_nil_2 |].
    intros c Hc. by apply elem_of_nil in Hc.
  - simpl in Hnd. apply NoDup_cons in Hnd as [Hfresh Hnd]. simpl.
    destruct (Ingestion.chunk_page page chunk_size overlap)
      as [cs | e] eqn:Hpage; [| done]. simpl.
    destruct (Ingestion.chunk_content pages chunk_size overlap)
      as [more | e] eqn:Hmore; [| done]. simpl. intros [= <-].
    destruct (ingestion_chunk_page_ids _ _ _ _ Hpage) as [Hnd1 Hof1].
    destruct (IH more Hnd eq_refl) as [Hnd2 Hof2].
    split.
    + rewrite map_app. apply NoDup_app. split_and!; [done | | done].
      intros id Hin1 Hin2.
      apply list_elem_of_In, in_map_iff in Hin1 as (c1 & <- & Hc1).
      apply list_elem_of_In, in_map_iff in Hin2 as (c2 & Heq & Hc2).
      apply list_elem_of_In in Hc1, Hc2.
      destruct (Hof1 c1 Hc1) as (_ & _ & _ & k1 & Hid1).
      destruct (Hof2 c2 Hc2) as (p2 & k2 & Hp2 & _ & _ & _ & Hid2).
      rewrite Hid1, Hid2 in Heq. apply chunk_id_inj in Heq as [Hu _].
      apply Hfresh. rewrite <- Hu.
      apply list_elem_of_In, in_map, list_elem_of_In. done.
    + intros c [Hc | Hc]%elem_of_app.
      * destruct (Hof1 c Hc) as (? & ? & ? & k & ?).
        exists page, k. split_and!; try done. by left.
      * destruct (Hof2 c Hc) as (p & k & ? & ? & ? & ? & ?).
        exists p, k. split_and!; try done. by right.
Qed.

(** ** Stripping *)

Lemma lstrip_chars_spec l :
  exists pre, l = pre ++ lstrip_chars l /\ all_space pre
              /\ match lstrip_chars l with
                 | c :: _ => is_space c = false
                 | [] => True
                 end.
Proof.
  induction l as [|c l (pre & Heq & Hpre & Hhead)]; simpl.
  - exists []. by split_and!; [| constructor |].
  - destruct (is_space c) eqn:Hc.
    + exists (c :: pre). split_and!; [by rewrite Heq at 1 | by constructor | done].
    + exists []. by split_and!; [| constructor |].
Qed.

Lemma rstrip_chars_spec l :
  exists post, l = rstrip_chars l ++ post /\ all_space post
               /\ match rev (rstrip_chars l) with
                  | c :: _ => is_space c = false
                  | [] => True
                  end.
Proof.
  unfold rstrip_chars.
  destruct (lstrip_chars_spec (rev l)) as (pre & Heq & Hpre & Hhead).
  exists (rev pre). split_and!.
  - rewrite <- rev_app_distr, <- Heq. by rewrite rev_involutive.
  - unfold all_space in *. apply Forall_forall. intros c Hc.
    apply list_elem_of_In, in_rev, list_elem_of_In in Hc.
    by eapply Forall_forall in Hpre.
  - by rewrite rev_involutive.
Qed.

Lemma lstrip_chars_id l :
  match l with c :: _ => is_space c = false | [] => True end ->
  lstrip_chars l = l.
Proof. destruct l as [|c l]; simpl; [done |]. by intros ->. Qed.

Lemma rstrip_chars_id l :
  match rev l with c :: _ => is_space c = false | [] => True end ->
  rstrip_chars l = l.
Proof.
  intros H. unfold rstrip_chars. rewrite lstrip_chars_id by done.
  apply rev_involutive.
Qed.

(** Stripping the right end keeps a first character that is no space. *)
Lemma rstrip_chars_head l :
  match l with c :: _ => is_space c = false | [] => True end ->
  match rstrip_chars l with c :: _ => is_space c = false | [] => True end.
Proof.
  intros Hl. destruct (rstrip_chars_spec l) as (post & Heq & Hpost & _).
  destruct (rstrip_chars l) as [|c r]; [done |].
  rewrite Heq in Hl. done.
Qed.

Lemma length_lstrip_chars l : (length (lstrip_chars l) <= length l)%nat.
Proof.
  destruct (lstrip_chars_spec l) as (pre & Heq & _).
  rewrite Heq at 2. rewrite length_app. lia.
Qed.

Lemma length_rstrip_chars l : (length (rstrip_chars l) <= length l)%nat.
Proof.
  destruct (rstrip_chars_spec l) as (post & Heq & _).
  rewrite Heq at 2. rewrite length_app. lia.
Qed.

Lemma chars_strip s : chars (strip s) = rstrip_chars (lstrip_chars (chars s)).
Proof. unfold strip. apply chars_str. Qed.

Lemma len_strip_le s : len (strip s) <= len s.
Proof.
  unfold len. rewrite chars_strip.
  pose proof (length_rstrip_chars (lstrip_chars (chars s))).
  pose proof (length_lstrip_chars (chars s)). lia.
Qed.

Lemma strip_no_outer_space s : no_outer_space (chars (strip s)).
Proof.
  rewrite chars_strip. split.
  - apply rstrip_chars_head.
    by destruct (lstrip_chars_spec (chars s)) as (? & _ & _ & ?).
  - by destruct (rstrip_chars_spec (lstrip_chars (chars s))) as (? & _ & _ & ?).
Qed.

Lemma strip_fixed s : no_outer_space (chars s) -> strip s = s.
Proof.
  intros [Hl Hr]. apply chars_inj. rewrite chars_strip.
  rewrite (lstrip_chars_id _ Hl). by apply rstrip_chars_id.
Qed.

Lemma strip_idempotent s : strip (strip s) = strip s.
Proof. apply strip_fixed, strip_no_outer_space. Qed.

(** What stripping removes is space; what it leaves is a part of the
    text. *)
Lemma strip_infix s :
  exists pre post,
    chars s = pre ++ chars (strip s) ++ post /\ all_space pre /\ all_space post.
Proof.
  destruct (lstrip_chars_spec (chars s)) as (pre & Heq & Hpre & _).
  destruct (rstrip_chars_spec (lstrip_chars (chars s)))
    as (post & Heq' & Hpost & _).
  exists pre, post. rewrite chars_strip. split_and!; [| done | done].
  by rewrite <- Heq', <- Heq.
Qed.

(** A text is stripped to nothing exactly when it is all space. *)
Lemma strip_empty_iff s : strip s = "" <-> all_space (chars s).
Proof.
  split.
  - intros H. destruct (strip_infix s) as (pre & post & Heq & Hpre & Hpost).
    rewrite H in Heq. simpl in Heq. rewrite Heq.
    by apply Forall_app.
  - intros Hall. apply chars_inj. rewrite chars_strip. simpl.
    assert (lstrip_chars (chars s) = []) as ->; [| done].
    induction Hall as [|c l Hc _ IH]; simpl; [done |]. by rewrite Hc.
Qed.

Lemma len_slice_le_len s lo hi : len (slice s lo hi) <= len s.
Proof.
  unfold slice. rewrite len_str, length_take, length_drop.
  unfold len. lia.
Qed.

(** ** More on the fixed-size chunker *)

Lemma short_window_discarded content i chunk_size :
  len content <= 50 ->
  (50 <? len (strip (slice content i (i + chunk_size)))) = false.
Proof.
  intros H. apply Z.ltb_ge.
  pose proof (len_strip_le (slice content i (i + chunk_size))).
  pose proof (len_slice_le_len content i (i + chunk_size)). lia.
Qed.

(** Pages of at most 50 characters leave no trace: whatever the sizes, as
    long as they differ, [chunk_content] returns no chunk for them. *)
Theorem short_pages_give_no_chunk pages chunk_size overlap :
  chunk_size <> overlap ->
  Forall (fun page => len (Ingestion.content page) <= 50) pages ->
  Ingestion.chunk_content pages chunk_size overlap = Returned [].
Proof.
  intros Hne Hshort. induction Hshort as [|page pages Hp _ IH]; [done |].
  simpl. rewrite IH. unfold Ingestion.chunk_page, range.
  destruct (Z.eqb_spec (chunk_size - overlap) 0) as [|_]; [lia |]. simpl.
  assert (forall idx,
            flat_map (fun i =>
              if 50 <? len (strip (slice (Ingestion.content page) i
                                         (i + chunk_size)))
              then [ {| Ingestion.chunk_url := Ingestion.url page;
                        Ingestion.chunk_title := Ingestion.title page;
                        Ingestion.chunk_text :=
                          slice (Ingestion.content page) i (i + chunk_size);
                        Ingestion.chunk_id :=
                          Ingestion.url page +:+ "_"
                          +:+ str_of_int (i / (chunk_size - overlap)) |} ]
              else []) idx = []) as ->; [| done].
  induction idx as [|i idx IHidx]; simpl; [done |].
  by rewrite (short_window_discarded _ _ _ Hp).
Qed.

Lemma short_pages_give_no_chunk_witness :
  Ingestion.chunk_content [short_page; short_page] 30 10 = Returned [].
Proof.
  apply short_pages_give_no_chunk; [lia |].
  repeat constructor; vm_compute; discriminate.
Defined.

Lemma ingestion_crawl_urls_nodup urlparse urljoin list_of_set get fuel
    base_url max_pages pages :
  Ingestion.scrape_website urlparse urljoin list_of_set get fuel base_url
    max_pages = Some pages ->
  NoDup (map Ingestion.url pages).
Proof.
  unfold Ingestion.scrape_website, Ingestion.crawl_loop.
  destruct (while_loop _ _ _ _) as [st|] eqn:Hrun; [| done].
  intros [= <-].
  destruct (while_loop_invariant _ _ (ingestion_crawl_inv max_pages) _ _ _
              (ingestion_step_inv urlparse urljoin list_of_set get max_pages)
              (ingestion_init_inv max_pages base_url) Hrun)
    as [(Hnd & _ & Hsub & _) _].
  by eapply sublist_NoDup.
Qed.

(** The identifiers of the chunks are keys: on pages with different URLs,
    and so on the pages that [scrape_website] returns, no two chunks of
    [chunk_content] share their identifier; every chunk carries the URL and
    the title of one of the pages, a text of more than 50 characters once
    stripped, and an identifier made of that URL and a number. *)
Theorem chunk_ids_are_unique :
  (forall pages chunk_size overlap chunks,
     NoDup (map Ingestion.url pages) ->
     Ingestion.chunk_content pages chunk_size overlap = Returned chunks ->
     NoDup (map Ingestion.chunk_id chunks)
     /\ (forall c, c ∈ chunks ->
           exists page k,
             page ∈ pages
             /\ Ingestion.chunk_url c = Ingestion.url page
             /\ Ingestion.chunk_title c = Ingestion.title page
             /\ kept (Ingestion.chunk_text c) = true
             /\ Ingestion.chunk_id c
                = Ingestion.url page +:+ "_" +:+ str_of_int k))
  /\ (forall urlparse urljoin list_of_set get fuel base_url max_pages pages
             chunk_size overlap chunks,
     Ingestion.scrape_website urlparse urljoin list_of_set get fuel base_url
       max_pages = Some pages ->
     Ingestion.chunk_content pages chunk_size overlap = Returned chunks ->
     NoDup (map Ingestion.chunk_id chunks)).
Proof.
  split.
  - apply ingestion_chunk_content_ids.
  - intros urlparse urljoin list_of_set get fuel base_url max_pages pages
      chunk_size overlap chunks Hcrawl Hchunks.
    eapply ingestion_chunk_content_ids; [| exact Hchunks].
    by eapply ingestion_crawl_urls_nodup.
Qed.

Lemma chunk_ids_are_unique_witness :
  exists chunks,
    Ingestion.chunk_content [sample_page; short_page] 100 40 = Returned chunks
    /\ NoDup (map Ingestion.chunk_id chunks).
Proof.
  destruct chunk_ids_are_unique as (Hany & _).
  destruct (ingestion_chunk_content_texts [sample_page; short_page] 100 40)
    as (chunks & Hchunks & _); [lia |].
  exists chunks. split; [exact Hchunks |].
  apply (Hany [sample_page; short_page] 100 40 chunks); [| exact Hchunks].
  apply NoDup_cons_2; [| apply NoDup_singleton].
  intros Hin%list_elem_of_singleton. discriminate Hin.
Defined.

(** ** When the semantic chunker gives nothing *)

Lemma all_space_reverse l : all_space (reverse l) <-> all_space l.
Proof. unfold all_space. by rewrite Forall_reverse. Qed.

Lemma split_terminators_all_space l : forall in_run cur,
  Forall all_space (Regex.split_terminators l in_run cur)
  <-> all_space cur /\ Forall (fun c => is_filler c = true) l.
Proof.
  induction l as [|c l IH]; intros in_run cur; simpl.
  - rewrite Forall_singleton, all_space_reverse.
    split; [intros H; split; [done | constructor] | by intros [H _]].
  - rewrite Forall_cons. unfold is_filler at 1.
    destruct (Regex.is_terminator c) eqn:Ht.
    + rewrite orb_true_r. destruct in_run.
      * rewrite IH. tauto.
      * rewrite Forall_cons, IH, all_space_reverse.
        split; [intros (? & _ & ?) | intros (? & _ & ?)]; split_and!; try done.
        constructor.
    + rewrite orb_false_r, IH. unfold all_space at 1. rewrite Forall_cons.
      tauto.
Qed.

Lemma append_nonempty x y : y <> "" -> x +:+ y <> "".
Proof.
  intros Hy H. apply (f_equal chars) in H. rewrite chars_append in H.
  apply app_eq_nil in H as [_ H]. apply Hy. by apply chars_inj.
Qed.

Lemma truthy_true_iff s : truthy s = true <-> s <> "".
Proof.
  rewrite <- not_false_iff_true, truthy_false_iff. done.
Qed.

(** The sentence loop flushes nothing and fills nothing exactly when it
    starts with nothing and every sentence is blank. *)
Lemma accumulate_nothing sentences : forall chunks current_chunk,
  (let '(chunks', current') :=
     WebScraper.accumulate sentences chunks current_chunk in
   chunks' = [] /\ current' = "")
  <-> chunks = [] /\ current_chunk = ""
      /\ Forall (fun s => strip s = "") sentences.
Proof.
  induction sentences as [|raw rest IH]; intros chunks cur; simpl.
  - split; [intros [? ?]; by split_and! | by intros (? & ? & _)].
  - rewrite Forall_cons. destruct (truthy (strip raw)) eqn:Hs; simpl.
    + apply truthy_true_iff in Hs.
      destruct (len cur + len (strip raw) <? 1000).
      * rewrite IH. split; [| tauto]. intros (_ & Hcur & _). exfalso.
        revert Hcur. apply append_nonempty, append_nonempty. done.
      * rewrite IH. split; [| tauto]. intros (_ & Hcur & _). exfalso.
        revert Hcur. apply append_nonempty. done.
    + apply truthy_false_iff in Hs. rewrite IH. tauto.
Qed.

Lemma chunk_by_headings_empty_iff content headings :
  WebScraper._chunk_by_headings content headings = []
  <-> Forall (fun c => is_filler c = true) (chars content).
Proof.
  unfold WebScraper._chunk_by_headings.
  pose proof (accumulate_nothing
                (map str (Regex.split_terminators (chars content) false []))
                [] "") as Hacc.
  destruct (WebScraper.accumulate _ _ _) as [chunks cur].
  assert (Forall (fun s => strip s = "")
            (map str (Regex.split_terminators (chars content) false []))
          <-> Forall (fun c => is_filler c = true) (chars content)) as <-.
  { pose proof (split_terminators_all_space (chars content) false [])
      as Hsplit.
    assert (all_space []) as Hnil by constructor.
    rewrite List.Forall_map. split.
    - intros H. apply Hsplit. eapply Forall_impl; [exact H |].
      intros piece Hp. simpl in Hp.
      apply strip_empty_iff in Hp. by rewrite chars_str in Hp.
    - intros H. assert (Forall all_space
                          (Regex.split_terminators (chars content) false []))
        as Hpieces by (by apply Hsplit).
      eapply Forall_impl; [exact Hpieces |].
      intros piece Hp. apply strip_empty_iff. by rewrite chars_str. }
  destruct (truthy cur) eqn:Hcur.
  - apply truthy_true_iff in Hcur. split.
    + intros H. by apply app_eq_nil in H as [_ ?].
    + intros H. exfalso. apply Hcur. apply Hacc. by split_and!.
  - apply truthy_false_iff in Hcur. split.
    + intros ->. apply Hacc. done.
    + intros H. apply Hacc. by split_and!.
Qed.

(** ** The shape of the semantic chunks *)

Lemma strip_dot_space y :
  starts_with_text (chars y) -> strip (y +:+ ". ") = y +:+ ".".
Proof.
  intros Hy. apply chars_inj. rewrite chars_strip, !chars_append.
  change (chars ". ") with ["."%char; " "%char].
  change (chars ".") with ["."%char].
  rewrite lstrip_chars_id.
  - unfold rstrip_chars. rewrite rev_app_distr. simpl.
    by rewrite ?rev_app_distr, ?rev_involutive.
  - destruct (chars y); [done | exact Hy].
Qed.

Lemma starts_with_text_strip raw :
  strip raw <> "" -> starts_with_text (chars (strip raw)).
Proof.
  intros Hne. destruct (strip_no_outer_space raw) as [Hhead _].
  destruct (chars (strip raw)) as [|c l] eqn:Hc; [| exact Hhead].
  exfalso. apply Hne. apply chars_inj. by rewrite Hc.
Qed.

Lemma starts_with_text_app l k :
  starts_with_text l -> starts_with_text (l ++ k).
Proof. by destruct l. Qed.

Lemma len_append x y : len (x +:+ y) = len x + len y.
Proof. unfold len. rewrite chars_append, length_app. lia. Qed.

Lemma append_assoc x y z : (x +:+ y) +:+ z = x +:+ (y +:+ z).
Proof. apply chars_inj. by rewrite !chars_append, app_assoc. Qed.

Lemma terminator_free_no_mark l :
  Forall (fun c => Regex.is_terminator c = false) l -> no_mark l.
Proof.
  intros H. eapply Forall_impl; [exact H |].
  intros c Hc. split; intros ->; by vm_compute in Hc.
Qed.

Lemma split_terminators_free l : forall in_run cur,
  Forall (fun c => Regex.is_terminator c = false) cur ->
  Forall (Forall (fun c => Regex.is_terminator c = false))
         (Regex.split_terminators l in_run cur).
Proof.
  induction l as [|c l IH]; intros in_run cur Hcur; simpl.
  - apply Forall_singleton. by apply Forall_reverse.
  - destruct (Regex.is_terminator c) eqn:Hc.
    + destruct in_run; [by apply IH |].
      apply Forall_cons. split; [by apply Forall_reverse | by apply IH].
    + apply IH. by apply Forall_cons.
Qed.

Lemma no_mark_strip raw : no_mark (chars raw) -> no_mark (chars (strip raw)).
Proof.
  intros H. destruct (strip_infix raw) as (pre & post & Heq & _).
  unfold no_mark in *. rewrite Heq in H.
  by apply Forall_app in H as [_ [H _]%Forall_app].
Qed.

Lemma sentences_no_mark content raw :
  raw ∈ sentences_of content -> no_mark (chars raw).
Proof.
  unfold sentences_of. intros (l & -> & Hl)%list_elem_of_fmap.
  rewrite chars_str. apply terminator_free_no_mark.
  pose proof (split_terminators_free (chars content) false [] ltac:(constructor))
    as Hall.
  by eapply Forall_forall in Hall.
Qed.

Lemma filling_shape_flush all cur :
  filling_shape all cur -> cur <> "" -> chunk_shape all (strip cur).
Proof.
  intros [-> | (y & -> & Hy)] Hne; [done |].
  exists y. split; [| done]. apply strip_dot_space, Hy.
Qed.

Lemma accumulate_shape all sentences : forall chunks cur,
  (forall raw, raw ∈ sentences -> raw ∈ all /\ no_mark (chars raw)) ->
  Forall (chunk_shape all) chunks -> filling_shape all cur ->
  let '(chunks', cur') := WebScraper.accumulate sentences chunks cur in
  Forall (chunk_shape all) chunks' /\ filling_shape all cur'.
Proof.
  induction sentences as [|raw rest IH]; intros chunks cur Hin Hchunks Hcur;
    simpl; [done |].
  assert (forall r, r ∈ rest -> r ∈ all /\ no_mark (chars r)) as Hrest
    by (intros r Hr; apply Hin; by right).
  destruct (Hin raw ltac:(by left)) as [Hraw Hplain].
  destruct (truthy (strip raw)) eqn:Hs; simpl; [| by apply IH].
  apply truthy_true_iff in Hs.
  pose proof (starts_with_text_strip raw Hs) as Hstart.
  pose proof (no_mark_strip raw Hplain) as Hsplain.
  destruct (Z.ltb_spec (len cur + len (strip raw)) 1000) as [Hfit | Hfull].
  - apply IH; [done | done |]. right.
    exists (cur +:+ strip raw). split; [by rewrite append_assoc |].
    split; [| split].
    + rewrite chars_append.
      destruct Hcur as [-> | (y & -> & Hy & _)]; [done |].
      rewrite chars_append. by apply starts_with_text_app, starts_with_text_app.
    + rewrite chars_append. apply Forall_app. split; [| done].
      destruct Hcur as [-> | (y & -> & _ & Hy & _)]; [constructor |].
      rewrite chars_append. apply Forall_app. split; [done |].
      repeat constructor; discriminate.
    + left. rewrite len_append. lia.
  - apply IH; [done | |].
    + destruct (truthy cur) eqn:Ht; [| done].
      apply truthy_true_iff in Ht. apply Forall_app. split; [done |].
      apply Forall_singleton. by apply filling_shape_flush.
    + right. exists (strip raw). split; [done |].
      split; [done |]. split; [done |].
      right. by exists raw.
Qed.

Lemma chunk_by_headings_shape content headings :
  Forall (chunk_shape (sentences_of content))
         (WebScraper._chunk_by_headings content headings).
Proof.
  unfold WebScraper._chunk_by_headings.
  pose proof (accumulate_shape (sentences_of content) (sentences_of content)
                [] "") as Hacc.
  fold (sentences_of content).
  destruct (WebScraper.accumulate _ _ _) as [chunks cur].
  destruct Hacc as [Hchunks Hcur].
  - intros raw Hraw. split; [done |]. by eapply sentences_no_mark.
  - constructor.
  - by left.
  - destruct (truthy cur) eqn:Ht; [| done].
    apply truthy_true_iff in Ht. apply Forall_app. split; [done |].
    apply Forall_singleton. by apply filling_shape_flush.
Qed.

(** What one page adds to the chunks, when it is chunked by sentences. *)
Lemma semantic_fold page texts : forall chunks,
  exists new,
    foldl (semantic_step page) chunks texts = chunks ++ new
    /\ map WebScraper.chunk_text new = filter kept texts
    /\ Forall (fun c => WebScraper.chunk_url c = WebScraper.url page
                        /\ WebScraper.chunk_title c = WebScraper.title page
                        /\ WebScraper.chunk_type c = WebScraper.semantic) new
    /\ map WebScraper.chunk_id new
       = map (fun k => WebScraper.url page +:+ "_"
                       +:+ str_of_int (Z.of_nat (length chunks + k)))
             (seq 0 (length new)).
Proof.
  induction texts as [|text texts IH]; intros chunks; simpl.
  - exists []. by rewrite app_nil_r.
  - unfold semantic_step at 2. rewrite filter_cons. fold (kept text).
    destruct (kept text) eqn:Hk; simpl.
    + destruct (IH (chunks ++
        [ {| WebScraper.chunk_url := WebScraper.url page;
             WebScraper.chunk_title := WebScraper.title page;
             WebScraper.chunk_text := text;
             WebScraper.chunk_id := WebScraper.url page +:+ "_"
                 +:+ str_of_int (Z.of_nat (length chunks));
             WebScraper.chunk_type := WebScraper.semantic |} ]))
        as (new & Hfold & Htexts & Hmeta & Hids).
      eexists (_ :: new). rewrite Hfold, <- app_assoc. simpl.
      split; [done |]. split; [by rewrite Htexts |].
      split; [by constructor |].
      rewrite Nat.add_0_r. f_equal. rewrite Hids, <- seq_shift, map_map.
      apply map_ext. intros k. rewrite length_app. simpl.
      do 3 f_equal. lia.
    + apply IH.
Qed.

Lemma has_text_chunks page :
  has_text (WebScraper.content page) <->
  WebScraper._chunk_by_headings (WebScraper.content page)
                                (WebScraper.headings page) <> [].
Proof.
  rewrite chunk_by_headings_empty_iff. unfold has_text. split.
  - intros Hex Hall. apply Exists_exists in Hex as (c & Hc & Hfalse).
    pose proof (proj1 (Forall_forall _ _) Hall c Hc). congruence.
  - intros Hnot.
    destruct (Forall_Exists_dec (fun c => is_filler c = true)
                (fun c => is_filler c <> true) (fun c => decide _)
                (chars (WebScraper.content page))) as [H | H]; [done |].
    eapply Exists_impl; [exact H |]. intros c Hc. by apply not_true_is_false.
Qed.

Lemma chunk_page_semantic page chunk_size overlap chunks :
  has_text (WebScraper.content page) ->
  WebScraper.chunk_page page chunk_size overlap chunks
  = Returned (foldl (semantic_step page) chunks
                (WebScraper._chunk_by_headings (WebScraper.content page)
                                               (WebScraper.headings page))).
Proof.
  intros Ht%has_text_chunks. unfold WebScraper.chunk_page.
  by rewrite bool_decide_eq_false_2.
Qed.

Lemma chunk_pages_semantic pages : forall chunks,
  Forall (fun page => has_text (WebScraper.content page)) pages ->
  Forall (fun c => WebScraper.chunk_type c = WebScraper.semantic) chunks ->
  exists result,
    (forall chunk_size' overlap',
       WebScraper.chunk_pages pages chunk_size' overlap' chunks
       = Returned result)
    /\ Forall (fun c => WebScraper.chunk_type c = WebScraper.semantic) result.
Proof.
  induction pages as [|page pages IH]; intros chunks Hpages Hchunks.
  - by exists chunks.
  - apply Forall_cons in Hpages as [Hpage Hpages].
    destruct (semantic_fold page
                (WebScraper._chunk_by_headings (WebScraper.content page)
                                               (WebScraper.headings page))
                chunks) as (new & Hfold & _ & Hmeta & _).
    destruct (IH (chunks ++ new) Hpages) as (result & Hresult & Hsem).
    { apply Forall_app. split; [done |].
      eapply Forall_impl; [exact Hmeta |]. by intros c (_ & _ & Hc). }
    exists result. split; [| done]. intros chunk_size' overlap'. simpl.
    rewrite chunk_page_semantic by done. simpl. rewrite Hfold. apply Hresult.
Qed.

(** On pages that hold some text (a character that is neither space nor
    sentence terminator), [chunk_content_by_structure] does not use its two
    sizes: it returns for every [chunk_size] and [overlap], also those for
    which the fixed-size chunker raises, the chunks are the same whatever
    the sizes, and all of them are semantic. *)
Theorem semantic_chunking_ignores_sizes pages :
  Forall (fun page => has_text (WebScraper.content page)) pages ->
  exists chunks,
    (forall chunk_size overlap,
       WebScraper.chunk_content_by_structure pages chunk_size overlap
       = Returned chunks)
    /\ Forall (fun c => WebScraper.chunk_type c = WebScraper.semantic) chunks.
Proof.
  intros Hpages. unfold WebScraper.chunk_content_by_structure.
  by apply chunk_pages_semantic.
Qed.

Lemma semantic_chunking_ignores_sizes_witness :
  exists chunks,
    (forall chunk_size overlap,
       WebScraper.chunk_content_by_structure [headed_page ∅] chunk_size overlap
       = Returned chunks)
    /\ Forall (fun c => WebScraper.chunk_type c = WebScraper.semantic) chunks.
Proof.
  apply semantic_chunking_ignores_sizes.
  apply Forall_singleton. apply Exists_cons_hd. reflexivity.
Defined.

Lemma kept_long text : kept text = true -> 50 < len text.
Proof.
  unfold kept. intros H%Z.ltb_lt. pose proof (len_strip_le text). lia.
Qed.

Lemma chunk_page_spec page chunk_size overlap chunks result :
  WebScraper.chunk_page page chunk_size overlap chunks = Returned result ->
  exists new, result = chunks ++ new /\ Forall (chunk_of_page page) new.
Proof.
  unfold WebScraper.chunk_page. case_bool_decide as Hempty; simpl.
  - destruct (range _ _ _) as [idx|]; simpl; [| done]. intros [= <-].
    eexists. split; [done |].
    apply Forall_forall. intros c Hc%list_elem_of_In.
    apply in_flat_map in Hc as (i & _ & Hc).
    destruct (50 <? len (strip _)) eqn:Hk; [| done].
    destruct Hc as [<- | []]. unfold chunk_of_page. simpl.
    split; [done |]. split; [done |]. split; [by apply kept_long | done].
  - intros [= <-].
    destruct (semantic_fold page
                (WebScraper._chunk_by_headings (WebScraper.content page)
                                               (WebScraper.headings page))
                chunks) as (new & Hfold & Htexts & Hmeta & _).
    exists new. split; [exact Hfold |].
    apply Forall_forall. intros c Hc.
    eapply Forall_forall in Hmeta as (Hu & Ht & _); [| exact Hc].
    assert (WebScraper.chunk_text c
            ∈ filter kept (WebScraper._chunk_by_headings
                             (WebScraper.content page)
                             (WebScraper.headings page))) as Hin
      by (rewrite <- Htexts; by apply list_elem_of_fmap_2).
    apply list_elem_of_filter in Hin as [Hk Hin].
    split; [done |]. split; [done |].
    split; [apply kept_long; by destruct (kept _) |].
    intros _. pose proof (chunk_by_headings_shape (WebScraper.content page)
                            (WebScraper.headings page)) as Hall.
    by eapply Forall_forall in Hall.
Qed.

Lemma chunk_pages_spec pages chunk_size overlap : forall chunks result,
  WebScraper.chunk_pages pages chunk_size overlap chunks = Returned result ->
  exists new,
    result = chunks ++ new
    /\ Forall (fun c => exists page, page ∈ pages /\ chunk_of_page page c) new.
Proof.
  induction pages as [|page pages IH]; intros chunks result; simpl.
  - intros [= <-]. exists []. by rewrite app_nil_r.
  - destruct (WebScraper.chunk_page page chunk_size overlap chunks)
      as [chunks'|] eqn:Hpage; simpl; [| done].
    intros Hrest.
    apply chunk_page_spec in Hpage as (new1 & -> & Hnew1).
    apply IH in Hrest as (new2 & -> & Hnew2).
    exists (new1 ++ new2). split; [by rewrite app_assoc |].
    apply Forall_app. split.
    + eapply Forall_impl; [exact Hnew1 |]. intros c Hc. exists page.
      split; [by left | done].
    + eapply Forall_impl; [exact Hnew2 |]. intros c (p & Hp & Hc). exists p.
      split; [by right | done].
Qed.

(** Every chunk of [chunk_content_by_structure] carries the URL and the
    title of one of the pages and is more than 50 characters long.  A
    semantic chunk is a text followed by a dot; the text does not start
    with a space, holds no exclamation or question mark (the chunker writes
    a dot for every sentence terminator), and is shorter than 1000
    characters unless it is one single sentence of the page. *)
Theorem semantic_chunks_are_sentences pages chunk_size overlap chunks :
  WebScraper.chunk_content_by_structure pages chunk_size overlap
  = Returned chunks ->
  Forall (fun c => exists page, page ∈ pages /\ chunk_of_page page c) chunks.
Proof.
  unfold WebScraper.chunk_content_by_structure.
  intros (new & -> & Hnew)%chunk_pages_spec. exact Hnew.
Qed.

Lemma semantic_chunks_are_sentences_witness :
  exists chunks,
    WebScraper.chunk_content_by_structure [headed_page ∅] 1000 200
    = Returned chunks
    /\ chunks <> []
    /\ Forall (fun c => exists page,
                 page ∈ [headed_page ∅] /\ chunk_of_page page c) chunks.
Proof.
  eexists. split; [vm_compute; reflexivity |]. split; [discriminate |].
  apply (semantic_chunks_are_sentences [headed_page ∅] 1000 200).
  vm_compute. reflexivity.
Defined.





(** ** Cleaning of text *)

Lemma runs_to_space_only_spaces l : forall in_run,
  Forall (fun c => is_space c = true -> c = " "%char)
         (Regex.runs_to_space is_space l in_run).
Proof.
  induction l as [|c l IH]; intros in_run; simpl; [constructor |].
  destruct (is_space c) eqn:Hc.
  - destruct in_run; [apply IH |]. constructor; [done | apply IH].
  - constructor; [congruence | apply IH].
Qed.

Lemma runs_to_space_single l : forall in_run,
  Forall (fun c => is_space c = true -> c = " "%char) l ->
  single_spaces (Regex.runs_to_space the_space l in_run) in_run.
Proof.
  induction l as [|c l IH]; intros in_run Hl; simpl; [done |].
  apply Forall_cons in Hl as [Hc Hl]. unfold the_space at 1.
  case_bool_decide as Hsp.
  - destruct in_run; [by apply IH |]. simpl. split; [done |].
    split; [done | by apply IH].
  - simpl. destruct (is_space c); [by destruct Hsp; apply Hc |]. by apply IH.
Qed.

Lemma runs_to_space_Forall (P : ascii -> Prop) p l : forall in_run,
  P " "%char -> Forall P l -> Forall P (Regex.runs_to_space p l in_run).
Proof.
  induction l as [|c l IH]; intros in_run Hsp Hl; simpl; [constructor |].
  apply Forall_cons in Hl as [Hc Hl].
  destruct (p c).
  - destruct in_run; [by apply IH |]. constructor; [done | by apply IH].
  - constructor; [done | by apply IH].
Qed.

Lemma runs_to_space_fixed l : forall in_run,
  single_spaces l in_run ->
  Regex.runs_to_space is_space l in_run = l
  /\ Regex.runs_to_space the_space l in_run = l.
Proof.
  induction l as [|c l IH]; intros in_run; simpl; [done |].
  unfold the_space at 1.
  destruct (is_space c) eqn:Hc.
  - intros (-> & -> & Hl). destruct (IH true Hl) as [-> ->]. done.
  - intros Hl. destruct (IH false Hl) as [-> ->].
    case_bool_decide as Hsp; [by subst c |]. done.
Qed.

Lemma filter_fixed {A} (p : A -> bool) (l : list A) :
  Forall (fun c => p c = true) l -> filter p l = l.
Proof.
  induction 1 as [|c l Hc _ IH]; [done |].
  rewrite filter_cons, decide_True by (by rewrite Hc). by rewrite IH.
Qed.

Lemma Forall_filter_keeps {A} (p : A -> bool) (l : list A) :
  Forall (fun c => p c = true) (filter p l).
Proof.
  apply Forall_forall. intros c [Hc _]%list_elem_of_filter.
  by destruct (p c).
Qed.

Lemma single_spaces_weaken l b : single_spaces l b -> single_spaces l false.
Proof.
  destruct l as [|c l]; simpl; [done |].
  destruct (is_space c); [| done]. by intros (-> & _ & H).
Qed.

Lemma single_spaces_app l k : forall b,
  single_spaces (l ++ k) b -> single_spaces l b /\ single_spaces k false.
Proof.
  induction l as [|c l IH]; intros b; simpl.
  - intros H. split; [done | by eapply single_spaces_weaken].
  - destruct (is_space c).
    + intros (-> & -> & H). apply IH in H as [H1 H2]. done.
    + intros H. by apply IH in H.
Qed.

Lemma single_spaces_strip s :
  single_spaces (chars s) false -> single_spaces (chars (strip s)) false.
Proof.
  intros H. destruct (strip_infix s) as (pre & post & Heq & _).
  rewrite Heq in H. apply single_spaces_app in H as [_ H].
  by apply single_spaces_app in H as [H _].
Qed.

Lemma Forall_strip (P : ascii -> Prop) s :
  Forall P (chars s) -> Forall P (chars (strip s)).
Proof.
  intros H. destruct (strip_infix s) as (pre & post & Heq & _).
  rewrite Heq in H. by apply Forall_app in H as [_ [H _]%Forall_app].
Qed.

Lemma squeeze_terminators_Forall (P : ascii -> Prop) l : forall prev,
  Forall P l -> Forall P (Regex.squeeze_terminators l prev).
Proof.
  induction l as [|c l IH]; intros prev Hl; simpl; [constructor |].
  apply Forall_cons in Hl as [Hc Hl].
  destruct (_ && _); [by apply IH |]. constructor; [done | by apply IH].
Qed.

Lemma terminator_not_space c : Regex.is_terminator c = true -> is_space c = false.
Proof.
  unfold Regex.is_terminator, char_in. intros H%bool_decide_eq_true.
  change (chars ".!?") with ["."%char; "!"%char; "?"%char] in H.
  repeat (apply elem_of_cons in H as [-> | H]; [done |]).
  by apply elem_of_nil in H.
Qed.

Lemma squeeze_terminators_single l : forall prev,
  single_spaces l (after prev) ->
  single_spaces (Regex.squeeze_terminators l prev) (after prev).
Proof.
  induction l as [|c l IH]; intros prev; simpl; [done |].
  destruct (Regex.is_terminator c && bool_decide (prev = Some c)) eqn:Hdel.
  - apply andb_true_iff in Hdel as [Hterm Hprev%bool_decide_eq_true].
    pose proof (terminator_not_space c Hterm) as Hns.
    rewrite Hns. subst prev. specialize (IH (Some c)). simpl in *.
    by rewrite Hns in *.
  - simpl. destruct (is_space c) eqn:Hc.
    + intros (-> & Hb & Hl). split; [done |]. split; [done |].
      apply (IH (Some " "%char)). exact Hl.
    + intros Hl. specialize (IH (Some c)). simpl in IH. rewrite Hc in IH.
      by apply IH.
Qed.

Lemma squeeze_terminators_squeezed l : forall prev,
  squeezed (Regex.squeeze_terminators l prev) prev.
Proof.
  induction l as [|c l IH]; intros prev; simpl; [done |].
  destruct (Regex.is_terminator c && bool_decide (prev = Some c)) eqn:Hdel.
  - apply IH.
  - simpl. split; [| apply IH]. intros [Hterm Hprev].
    rewrite Hterm, bool_decide_eq_true_2 in Hdel by done. done.
Qed.

Lemma squeeze_terminators_fixed l : forall prev,
  squeezed l prev -> Regex.squeeze_terminators l prev = l.
Proof.
  induction l as [|c l IH]; intros prev; simpl; [done |].
  intros [Hnot Hl]. rewrite (IH _ Hl).
  destruct (Regex.is_terminator c) eqn:Hterm; simpl; [| done].
  case_bool_decide as Hprev; [| done]. by destruct Hnot.
Qed.

Lemma squeezed_weaken l prev : squeezed l prev -> squeezed l None.
Proof.
  destruct l as [|c l]; simpl; [done |]. intros [_ H]. split; [| done].
  by intros [_ ?].
Qed.

Lemma squeezed_app l k : forall prev,
  squeezed (l ++ k) prev -> squeezed l prev /\ squeezed k None.
Proof.
  induction l as [|c l IH]; intros prev; simpl.
  - intros H. split; [done | by eapply squeezed_weaken].
  - intros [Hc H]. apply IH in H as [H1 H2]. done.
Qed.

Lemma squeezed_strip s :
  squeezed (chars s) None -> squeezed (chars (strip s)) None.
Proof.
  intros H. destruct (strip_infix s) as (pre & post & Heq & _).
  rewrite Heq in H. apply squeezed_app in H as [_ H].
  by apply squeezed_app in H as [H _].
Qed.

Lemma ingestion_clean_text_clean text :
  clean ingestion_keeps (Ingestion._clean_text text).
Proof.
  unfold Ingestion._clean_text, clean.
  fold ingestion_keeps. fold the_space.
  set (t1 := Regex.runs_to_space is_space (chars text) false).
  set (t2 := filter ingestion_keeps t1).
  assert (Forall (fun c => is_space c = true -> c = " "%char) t2) as Hsp.
  { apply Forall_forall. intros c [_ Hc]%list_elem_of_filter.
    pose proof (runs_to_space_only_spaces (chars text) false) as Hall.
    by eapply Forall_forall in Hall. }
  split; [| split].
  - apply Forall_strip. rewrite chars_str.
    apply runs_to_space_Forall; [done | apply Forall_filter_keeps].
  - apply single_spaces_strip. rewrite chars_str.
    by apply runs_to_space_single.
  - apply strip_no_outer_space.
Qed.

Lemma ingestion_clean_text_fixed s :
  clean ingestion_keeps s -> Ingestion._clean_text s = s.
Proof.
  intros (Hkeeps & Hsingle & Houter). unfold Ingestion._clean_text.
  fold ingestion_keeps. fold the_space.
  destruct (runs_to_space_fixed _ _ Hsingle) as [-> Hthe].
  pose proof (filter_fixed _ _ Hkeeps) as Hf. unfold ingestion_keeps in Hf.
  rewrite Hf, Hthe, str_chars.
  by apply strip_fixed.
Qed.

Lemma scraper_clean_text_clean text :
  clean scraper_keeps (WebScraper._clean_text text)
  /\ squeezed (chars (WebScraper._clean_text text)) None.
Proof.
  unfold WebScraper._clean_text, clean.
  fold scraper_keeps. fold the_space.
  set (t1 := Regex.runs_to_space is_space (chars text) false).
  set (t2 := filter scraper_keeps t1).
  assert (Forall (fun c => is_space c = true -> c = " "%char) t2) as Hsp.
  { apply Forall_forall. intros c [_ Hc]%list_elem_of_filter.
    pose proof (runs_to_space_only_spaces (chars text) false) as Hall.
    by eapply Forall_forall in Hall. }
  split; [split; [| split] |].
  - apply Forall_strip. rewrite chars_str.
    apply squeeze_terminators_Forall.
    apply runs_to_space_Forall; [done | apply Forall_filter_keeps].
  - apply single_spaces_strip. rewrite chars_str.
    apply (squeeze_terminators_single _ None).
    by apply runs_to_space_single.
  - apply strip_no_outer_space.
  - apply squeezed_strip. rewrite chars_str.
    apply squeeze_terminators_squeezed.
Qed.

Lemma scraper_clean_text_fixed s :
  clean scraper_keeps s -> squeezed (chars s) None ->
  WebScraper._clean_text s = s.
Proof.
  intros (Hkeeps & Hsingle & Houter) Hsq. unfold WebScraper._clean_text.
  fold scraper_keeps. fold the_space.
  destruct (runs_to_space_fixed _ _ Hsingle) as [-> Hthe].
  pose proof (filter_fixed _ _ Hkeeps) as Hf. unfold scraper_keeps in Hf.
  rewrite Hf, Hthe.
  rewrite (squeeze_terminators_fixed _ _ Hsq), str_chars.
  by apply strip_fixed.
Qed.

(** Every page that a crawl returns was returned by [scrape_page] for its
    URL. *)
Lemma ingestion_pages_scraped urlparse urljoin list_of_set get fuel base_url
    max_pages pages :
  Ingestion.scrape_website urlparse urljoin list_of_set get fuel base_url
    max_pages = Some pages ->
  Forall (fun p => exists n,
            Ingestion.scrape_page urlparse urljoin list_of_set get n
              (Ingestion.url p) = Some p) pages.
Proof.
  unfold Ingestion.scrape_website, Ingestion.crawl_loop.
  destruct (while_loop _ _ _ _) as [st|] eqn:Hrun; [| done].
  intros [= <-].
  eapply (while_loop_invariant _ _
            (fun st => Forall (fun p => exists n,
                         Ingestion.scrape_page urlparse urljoin list_of_set
                           get n (Ingestion.url p) = Some p)
                       (Ingestion.pages st))); [| | exact Hrun].
  - intros s Hs _. unfold Ingestion.crawl_step.
    destruct (Ingestion.urls_to_visit s) as [|u rest]; [done |].
    case_bool_decide; [done |].
    destruct (Ingestion.scrape_page _ _ _ _ _ u) as [p|] eqn:Hp; [| done].
    simpl. apply Forall_app. split; [done |]. apply Forall_singleton.
    exists (Ingestion.requests s).
    by rewrite (ingestion_scrape_page_url _ _ _ _ _ _ _ Hp).
  - constructor.
Qed.

Lemma scraper_pages_scraped urlparse urljoin list_of_set get fuel self
    start_url max_pages pages self' :
  WebScraper.crawl_website urlparse urljoin list_of_set get fuel self
    start_url max_pages = Some (pages, self') ->
  Forall (fun p => exists n,
            WebScraper.scrape_page get n (WebScraper.url p) = Some p) pages.
Proof.
  unfold WebScraper.crawl_website, WebScraper.crawl_loop.
  destruct (while_loop _ _ _ _) as [st|] eqn:Hrun; [| done].
  simpl. intros [= <- _].
  eapply (while_loop_invariant _ _
            (fun st => Forall (fun p => exists n,
                         WebScraper.scrape_page get n (WebScraper.url p)
                         = Some p)
                       (WebScraper.pages st))); [| | exact Hrun].
  - intros s Hs _. unfold WebScraper.crawl_step.
    destruct (WebScraper.urls_to_visit s) as [|[u d] rest]; [done |].
    destruct (_ || _); [done |].
    destruct (WebScraper.scrape_page get _ u) as [p|] eqn:Hp; [| done].
    assert (Forall (fun p => exists n,
                      WebScraper.scrape_page get n (WebScraper.url p) = Some p)
                   (WebScraper.pages s ++ [p])) as Hall.
    { apply Forall_app. split; [done |]. apply Forall_singleton.
      exists (WebScraper.requests s).
      by rewrite (scraper_scrape_page_url _ _ _ _ Hp). }
    by destruct (_ && _).
  - constructor.
Qed.

(** The text that [WebsiteIngestion._clean_text] returns is clean: it
    holds only the characters that the function keeps, its only white space
    is single space characters between other characters, and none at either
    end.  The clean texts are exactly the texts that the function leaves as
    they are, so that cleaning twice is cleaning once; the text of every
    page that [scrape_website] returns is clean. *)
Theorem ingestion_clean_text_normal_form :
  (forall text, clean ingestion_keeps (Ingestion._clean_text text))
  /\ (forall s, Ingestion._clean_text s = s <-> clean ingestion_keeps s)
  /\ (forall text,
        Ingestion._clean_text (Ingestion._clean_text text)
        = Ingestion._clean_text text)
  /\ (forall urlparse urljoin list_of_set get fuel base_url max_pages pages,
        Ingestion.scrape_website urlparse urljoin list_of_set get fuel
          base_url max_pages = Some pages ->
        Forall (fun p => clean ingestion_keeps (Ingestion.content p)) pages).
Proof.
  split; [apply ingestion_clean_text_clean |].
  split; [| split].
  - intros s. split; [| apply ingestion_clean_text_fixed].
    intros <-. apply ingestion_clean_text_clean.
  - intros text. apply ingestion_clean_text_fixed, ingestion_clean_text_clean.
  - intros urlparse urljoin list_of_set get fuel base_url max_pages pages
      Hrun%ingestion_pages_scraped.
    eapply Forall_impl; [exact Hrun |]. intros p (n & Hp).
    unfold Ingestion.scrape_page in Hp.
    repeat (match type of Hp with
            | match ?x with _ => _ end = _ => destruct x; try done
            | (if ?x then _ else _) = _ => destruct x; try done
            end).
    injection Hp as <-. apply ingestion_clean_text_clean.
Qed.

(** The same for [AdvancedWebScraper._clean_text], which keeps more
    characters and in whose result, besides, no sentence terminator is
    followed by the same terminator; the text of every page that
    [crawl_website] returns is of this form. *)
Theorem scraper_clean_text_normal_form :
  (forall text,
     clean scraper_keeps (WebScraper._clean_text text)
     /\ squeezed (chars (WebScraper._clean_text text)) None)
  /\ (forall s, WebScraper._clean_text s = s
                <-> clean scraper_keeps s /\ squeezed (chars s) None)
  /\ (forall text,
        WebScraper._clean_text (WebScraper._clean_text text)
        = WebScraper._clean_text text)
  /\ (forall urlparse urljoin list_of_set get fuel self start_url max_pages
             pages self',
        WebScraper.crawl_website urlparse urljoin list_of_set get fuel self
          start_url max_pages = Some (pages, self') ->
        Forall (fun p => clean scraper_keeps (WebScraper.content p)
                         /\ squeezed (chars (WebScraper.content p)) None)
               pages).
Proof.
  split; [apply scraper_clean_text_clean |].
  split; [| split].
  - intros s. split.
    + intros <-. apply scraper_clean_text_clean.
    + intros [? ?]. by apply scraper_clean_text_fixed.
  - intros text. destruct (scraper_clean_text_clean text).
    by apply scraper_clean_text_fixed.
  - intros urlparse urljoin list_of_set get fuel self start_url max_pages
      pages self' Hrun%scraper_pages_scraped.
    eapply Forall_impl; [exact Hrun |]. intros p (n & Hp).
    unfold WebScraper.scrape_page in Hp.
    destruct (get n (WebScraper.url p)); [| done].
    injection Hp as <-. apply scraper_clean_text_clean.
Qed.

(** ** The parameters of the crawls *)

Lemma scraper_eta (self : WebScraper.Scraper) :
  {| WebScraper.max_depth := WebScraper.max_depth self;
     WebScraper.visited_urls := WebScraper.visited_urls self;
     WebScraper.domain_restrictions := WebScraper.domain_restrictions self |}
  = self.
Proof. by destruct self. Qed.

(** A crawl from a URL that the scraper has visited, or with a negative
    [max_depth], ends after one turn with no page and no request. *)
Lemma crawl_skips_start urlparse urljoin list_of_set get fuel self start_url
    max_pages :
  start_url ∈ WebScraper.visited_urls self \/ WebScraper.max_depth self < 0 ->
  WebScraper.crawl_website urlparse urljoin list_of_set get (S fuel) self
    start_url max_pages = Some ([], self).
Proof.
  intros Hskip. unfold WebScraper.crawl_website, WebScraper.crawl_loop.
  assert (bool_decide (start_url ∈ WebScraper.visited_urls self)
          || (WebScraper.max_depth self <? 0) = true) as Hs.
  { destruct Hskip as [H | H].
    - by rewrite bool_decide_eq_true_2.
    - apply orb_true_iff. right. by apply Z.ltb_lt. }
  cbn [while_loop]. unfold WebScraper.crawl_continues at 1.
  cbn -[Z.ltb]. rewrite Hs.
  destruct (Z.of_nat 0 <? max_pages); [destruct fuel |];
    cbn -[Z.ltb]; by rewrite scraper_eta.
Qed.

Lemma crawl_marks_start urlparse urljoin list_of_set get fuel self start_url
    max_pages pages self' :
  0 < max_pages -> 0 <= WebScraper.max_depth self ->
  WebScraper.crawl_website urlparse urljoin list_of_set get fuel self
    start_url max_pages = Some (pages, self') ->
  start_url ∈ WebScraper.visited_urls self'.
Proof.
  intros Hmax Hdepth. unfold WebScraper.crawl_website, WebScraper.crawl_loop.
  destruct (while_loop _ _ _ _) as [st|] eqn:Hrun; [| done].
  simpl. intros [= _ <-]. simpl.
  assert ((start_url ∈ WebScraper.visited st
           \/ (WebScraper.urls_to_visit st = [(start_url, 0)]
               /\ WebScraper.pages st = []
               /\ WebScraper.visited st = WebScraper.visited_urls self))
          /\ WebScraper.crawl_continues max_pages st = false)
    as [Hinv Hend]; cycle 1.
  { destruct Hinv as [Hin | (Hq & Hp & _)]; [done |].
    unfold WebScraper.crawl_continues in Hend. rewrite Hq, Hp in Hend.
    simpl in Hend. apply Z.ltb_ge in Hend. lia. }
  eapply (while_loop_invariant _ _
            (fun st => start_url ∈ WebScraper.visited st
                       \/ (WebScraper.urls_to_visit st = [(start_url, 0)]
                           /\ WebScraper.pages st = []
                           /\ WebScraper.visited st
                              = WebScraper.visited_urls self)));
    [| | exact Hrun].
  - intros s [Hin | (Hq & Hp & Hv)] _; unfold WebScraper.crawl_step.
    + left. destruct (WebScraper.urls_to_visit s) as [|[u d] rest]; [done |].
      destruct (_ || _); [done |].
      destruct (WebScraper.scrape_page get _ u); [| simpl; set_solver].
      destruct (_ && _); simpl; set_solver.
    + rewrite Hq. left.
      destruct (bool_decide (start_url ∈ WebScraper.visited s)) eqn:Hvis; simpl.
      * by apply bool_decide_eq_true in Hvis.
      * destruct (Z.ltb_spec (WebScraper.max_depth self) 0) as [|_]; [lia |].
        destruct (WebScraper.scrape_page get _ _); [| simpl; set_solver].
        destruct (_ && _); simpl; set_solver.
  - right. done.
Qed.

(** The visited set outlives the crawl: once [crawl_website] has returned
    (for [max_pages] above 0 and [max_depth] at least 0), the same scraper
    crawls nothing from the same start URL again, whatever the web answers
    and whatever [max_pages] is then. *)
Theorem crawl_again_returns_nothing urlparse urljoin list_of_set get fuel self
    start_url max_pages pages self' :
  0 < max_pages -> 0 <= WebScraper.max_depth self ->
  WebScraper.crawl_website urlparse urljoin list_of_set get fuel self
    start_url max_pages = Some (pages, self') ->
  forall urlparse' urljoin' list_of_set' get' fuel' max_pages',
    WebScraper.crawl_website urlparse' urljoin' list_of_set' get' (S fuel')
      self' start_url max_pages' = Some ([], self').
Proof.
  intros Hmax Hdepth Hrun urlparse' urljoin' list_of_set' get' fuel' max_pages'.
  apply crawl_skips_start. left. by eapply crawl_marks_start.
Qed.

Lemma crawl_again_returns_nothing_witness :
  exists pages self',
    WebScraper.crawl_website Url.urlsplit plain_urljoin elements small_site 10
      sample_scraper "https://example.com/" 50 = Some (pages, self')
    /\ length pages = 3%nat
    /\ WebScraper.crawl_website Url.urlsplit plain_urljoin elements small_site
         10 self' "https://example.com/" 50 = Some ([], self').
Proof.
  destruct (WebScraper.crawl_website Url.urlsplit plain_urljoin elements
              small_site 10 sample_scraper "https://example.com/" 50)
    as [[pages self']|] eqn:Hrun; [| by vm_compute in Hrun].
  exists pages, self'. split; [done |]. split.
  - vm_compute in Hrun. by injection Hrun as <- _.
  - apply (crawl_again_returns_nothing Url.urlsplit plain_urljoin elements
             small_site 10 sample_scraper "https://example.com/" 50 pages self');
      [lia | simpl; lia | exact Hrun].
Defined.

(** The edges of the parameters.  With [max_pages] at most 0 neither crawl
    makes a turn: no page and no request.  With a negative [max_depth],
    [crawl_website] drops the start URL without visiting it.  With
    [max_depth] 0 it scrapes the start URL and nothing else: it returns
    that page, if the request succeeds, and follows no link. *)
Theorem crawl_edge_parameters :
  (forall urlparse urljoin list_of_set get fuel base_url max_pages,
     max_pages <= 0 ->
     Ingestion.scrape_website urlparse urljoin list_of_set get fuel base_url
       max_pages = Some [])
  /\ (forall urlparse urljoin list_of_set get fuel self start_url max_pages,
     max_pages <= 0 ->
     WebScraper.crawl_website urlparse urljoin list_of_set get fuel self
       start_url max_pages = Some ([], self))
  /\ (forall urlparse urljoin list_of_set get fuel self start_url max_pages,
     WebScraper.max_depth self < 0 ->
     WebScraper.crawl_website urlparse urljoin list_of_set get (S fuel) self
       start_url max_pages = Some ([], self))
  /\ (forall urlparse urljoin list_of_set get fuel self start_url max_pages,
     WebScraper.max_depth self = 0 -> 0 < max_pages ->
     start_url ∉ WebScraper.visited_urls self ->
     WebScraper.crawl_website urlparse urljoin list_of_set get (S (S fuel))
       self start_url max_pages
     = Some (match WebScraper.scrape_page get 0 start_url with
             | Some page => [page]
             | None => []
             end,
             {| WebScraper.max_depth := 0;
                WebScraper.visited_urls :=
                  {[start_url]} ∪ WebScraper.visited_urls self;
                WebScraper.domain_restrictions :=
                  WebScraper.domain_restrictions self |})).
Proof.
  split; [| split; [| split]].
  - intros urlparse urljoin list_of_set get fuel base_url max_pages Hmax.
    unfold Ingestion.scrape_website, Ingestion.crawl_loop.
    assert (Ingestion.crawl_continues max_pages (Ingestion.crawl_init base_url)
            = false) as Hc
      by (apply andb_false_iff; right; apply Z.ltb_ge; simpl; lia).
    destruct fuel; cbn [while_loop]; by rewrite Hc.
  - intros urlparse urljoin list_of_set get fuel self start_url max_pages Hmax.
    unfold WebScraper.crawl_website, WebScraper.crawl_loop.
    assert (WebScraper.crawl_continues max_pages
              (WebScraper.crawl_init self start_url) = false) as Hc
      by (apply andb_false_iff; right; apply Z.ltb_ge; simpl; lia).
    destruct fuel; cbn [while_loop]; rewrite Hc; simpl;
      by rewrite scraper_eta.
  - intros urlparse urljoin list_of_set get fuel self start_url max_pages Hd.
    apply crawl_skips_start. by right.
  - intros urlparse urljoin list_of_set get fuel self start_url max_pages
      Hd Hmax Hfresh.
    unfold WebScraper.crawl_website, WebScraper.crawl_loop.
    cbn [while_loop]. unfold WebScraper.crawl_continues at 1.
    cbn -[Z.ltb]. change (Z.of_nat 0) with 0.
    destruct (Z.ltb_spec 0 max_pages) as [_|]; [| lia].
    rewrite bool_decide_eq_false_2 by done. rewrite Hd.
    rewrite Z.ltb_irrefl, andb_false_r. cbn -[Z.ltb].
    destruct (WebScraper.scrape_page get 0 start_url) as [page|];
      by destruct fuel.
Qed.

Lemma crawl_edge_parameters_witness :
  Ingestion.scrape_website Url.urlsplit plain_urljoin elements small_site 10
    "https://example.com/" 0 = Some []
  /\ WebScraper.crawl_website Url.urlsplit plain_urljoin elements small_site
       10 {| WebScraper.max_depth := -1;
             WebScraper.visited_urls := ∅;
             WebScraper.domain_restrictions := true |}
       "https://example.com/" 50
     = Some ([], {| WebScraper.max_depth := -1;
                    WebScraper.visited_urls := ∅;
                    WebScraper.domain_restrictions := true |})
  /\ (length <$> (fst <$>
        WebScraper.crawl_website Url.urlsplit plain_urljoin elements
          small_site 10 {| WebScraper.max_depth := 0;
                           WebScraper.visited_urls := ∅;
                           WebScraper.domain_restrictions := true |}
          "https://example.com/" 50)) = Some 1%nat.
Proof.
  destruct crawl_edge_parameters as (Hnone & _ & Hneg & Hzero).
  split; [apply Hnone; lia |]. split; [apply Hneg; simpl; lia |].
  rewrite (Hzero Url.urlsplit plain_urljoin elements small_site 8%nat);
    [reflexivity | reflexivity | lia | set_solver].
Defined.

(** ** Where a crawl goes *)

Section CrawlStaysValid.

Variable urlparse : string -> outcome Url.ParseResult.
Variable urljoin : string -> string -> outcome string.
Variable list_of_set : gset string -> list string.
Variable get : Web.session.
Variable self : WebScraper.Scraper.
Variable start_url : string.

(** Python lists a set by its elements. *)
Hypothesis list_of_set_elements :
  forall (X : gset string) u, u ∈ list_of_set X -> u ∈ X.

Lemma is_valid_url_trans u v :
  WebScraper.is_valid_url urlparse self u v = true ->
  reachable urlparse self start_url v ->
  WebScraper.is_valid_url urlparse self u start_url = true.
Proof.
  unfold reachable, WebScraper.is_valid_url. intros Huv [-> | Hv]; [done |].
  destruct (urlparse u) as [pu|]; [| done].
  destruct (urlparse v) as [pv|]; [| done].
  destruct (urlparse start_url) as [ps|]; [| done]. simpl in *.
  destruct (WebScraper.domain_restrictions self); simpl in *; [| done].
  case_bool_decide as Huv'; [| done].
  case_bool_decide as Hvs; [| done]. simpl in *.
  rewrite bool_decide_eq_true_2 by congruence. done.
Qed.

Lemma collect_links_valid hrefs base_url : forall found result,
  WebScraper.collect_links urlparse urljoin self hrefs base_url found
  = Returned result ->
  Forall (fun u => WebScraper.is_valid_url urlparse self u base_url = true)
         found ->
  Forall (fun u => WebScraper.is_valid_url urlparse self u base_url = true)
         result.
Proof.
  induction hrefs as [|href rest IH]; intros found result; simpl.
  - by intros [= <-].
  - destruct (urljoin base_url href) as [absolute_url|]; [| done]. simpl.
    destruct (WebScraper.is_valid_url urlparse self _ base_url) eqn:Hvalid.
    + intros Hrun Hfound. eapply IH; [exact Hrun |].
      apply Forall_app. split; [done |]. by apply Forall_singleton.
    + apply IH.
Qed.

Lemma new_entries_valid visited n url depth :
  Forall (fun e => WebScraper.is_valid_url urlparse self (fst e) url = true)
         (WebScraper.new_entries urlparse urljoin list_of_set get self visited
            n url depth).
Proof.
  unfold WebScraper.new_entries, WebScraper.extract_links.
  destruct (get n url) as [soup|]; [| constructor]. simpl.
  destruct (urlparse url) as [parsed|]; [| constructor]. simpl.
  destruct (WebScraper.collect_links _ _ _ _ _ _) as [found|] eqn:Hfound;
    [| constructor]. simpl.
  apply collect_links_valid in Hfound; [| constructor].
  apply Forall_forall. intros e (link & -> & Hlink)%list_elem_of_fmap. simpl.
  apply list_elem_of_filter in Hlink as [_ Hlink].
  apply list_of_set_elements, elem_of_list_to_set in Hlink.
  by eapply Forall_forall in Hfound.
Qed.

Lemma crawl_step_reachable max_pages st :
  Forall (fun e => reachable urlparse self start_url (fst e))
         (WebScraper.urls_to_visit st) ->
  Forall (fun e => reachable urlparse self start_url (fst e))
         (WebScraper.scraped st) ->
  let st' := WebScraper.crawl_step urlparse urljoin list_of_set get self
               max_pages st in
  Forall (fun e => reachable urlparse self start_url (fst e))
         (WebScraper.urls_to_visit st')
  /\ Forall (fun e => reachable urlparse self start_url (fst e))
            (WebScraper.scraped st').
Proof.
  intros Hq Hs. cbv zeta. unfold WebScraper.crawl_step.
  destruct (WebScraper.urls_to_visit st) as [|[u d] rest] eqn:Hqueue;
    [by rewrite Hqueue |].
  apply Forall_cons in Hq as [Hu Hrest]. simpl in Hu.
  destruct (_ || _); [simpl; by split |].
  assert (Forall (fun e => reachable urlparse self start_url (fst e))
                 (WebScraper.scraped st ++ [(u, d)])) as Hs'.
  { apply Forall_app. split; [done |]. by apply Forall_singleton. }
  destruct (WebScraper.scrape_page get _ u) as [p|]; [| simpl; by split].
  destruct (_ && _); [| simpl; by split]. simpl. split; [| done].
  apply Forall_app. split; [done |].
  eapply Forall_impl; [apply new_entries_valid |].
  intros e He. right. eapply is_valid_url_trans; [exact He | exact Hu].
Qed.

Lemma crawl_loop_reachable fuel max_pages st :
  WebScraper.crawl_loop urlparse urljoin list_of_set get fuel self max_pages
    (WebScraper.crawl_init self start_url) = Some st ->
  Forall (fun e => reachable urlparse self start_url (fst e))
         (WebScraper.scraped st).
Proof.
  intros Hrun.
  eapply (while_loop_invariant _ _
            (fun st =>
               Forall (fun e => reachable urlparse self start_url (fst e))
                      (WebScraper.urls_to_visit st)
               /\ Forall (fun e => reachable urlparse self start_url (fst e))
                         (WebScraper.scraped st))); [| | exact Hrun].
  - intros s [Hq Hs] _. by apply crawl_step_reachable.
  - split; [| constructor]. apply Forall_singleton. by left.
Qed.

End CrawlStaysValid.

(** A crawl does not leave the ground that [is_valid_url] marks out from
    the start URL.  Every URL that [crawl_website] scrapes, and so the URL
    of every page it returns, is the start URL or a URL that
    [is_valid_url] accepts for the start URL itself, not only for the page
    that links to it: it matches none of the patterns and, with the domain
    restriction on, its network location is that of the start URL. *)
Theorem crawl_stays_valid urlparse urljoin list_of_set get fuel self start_url
    max_pages pages self' :
  (forall (X : gset string) u, u ∈ list_of_set X -> u ∈ X) ->
  WebScraper.crawl_website urlparse urljoin list_of_set get fuel self
    start_url max_pages = Some (pages, self') ->
  Forall (fun page =>
            WebScraper.url page = start_url
            \/ (WebScraper.is_valid_url urlparse self (WebScraper.url page)
                  start_url = true
                /\ existsb (fun pattern =>
                     Regex.re_match pattern (WebScraper.url page))
                     WebScraper.skip_patterns = false
                /\ (WebScraper.domain_restrictions self = true ->
                    exists parsed base_parsed,
                      urlparse (WebScraper.url page) = Returned parsed
                      /\ urlparse start_url = Returned base_parsed
                      /\ Url.netloc parsed = Url.netloc base_parsed)))
         pages.
Proof.
  intros Hset. unfold WebScraper.crawl_website.
  destruct (WebScraper.crawl_loop _ _ _ _ _ _ _ _) as [st|] eqn:Hrun; [| done].
  simpl. intros [= <- _].
  pose proof (crawl_loop_reachable _ _ _ _ _ _ Hset _ _ _ Hrun) as Hreach.
  assert (map WebScraper.url (WebScraper.pages st)
            `sublist_of` map fst (WebScraper.scraped st)) as Hsub.
  { unfold WebScraper.crawl_loop in Hrun.
    destruct (while_loop_invariant _ _ (scraper_crawl_inv self max_pages) _ _ _
                (scraper_step_inv urlparse urljoin list_of_set get self
                   max_pages)
                (scraper_init_inv self max_pages start_url) Hrun)
      as [(_ & _ & _ & _ & Hsub & _) _]. exact Hsub. }
  apply Forall_forall. intros page Hpage.
  assert (WebScraper.url page ∈ map fst (WebScraper.scraped st)) as Hin.
  { eapply elem_of_sublist; [| exact Hsub]. by apply list_elem_of_fmap_2. }
  apply list_elem_of_fmap in Hin as (e & He & Hin).
  eapply Forall_forall in Hreach; [| exact Hin]. rewrite <- He in Hreach.
  destruct Hreach as [Heq | Hvalid]; [by left | right].
  split; [done |]. revert Hvalid. unfold WebScraper.is_valid_url.
  destruct (urlparse (WebScraper.url page)) as [parsed|]; [| done].
  destruct (urlparse start_url) as [base_parsed|]; [| done]. simpl.
  destruct (WebScraper.domain_restrictions self); simpl.
  - case_bool_decide as Hloc; [| done]. simpl.
    intros Hskip%negb_true_iff. split; [done |]. intros _. by eexists _, _.
  - intros Hskip%negb_true_iff. by split.
Qed.

Lemma crawl_stays_valid_witness :
  exists pages self',
    WebScraper.crawl_website Url.urlsplit plain_urljoin elements small_site 10
      sample_scraper "https://example.com/" 50 = Some (pages, self')
    /\ Forall (fun page =>
                 WebScraper.url page = "https://example.com/"
                 \/ WebScraper.is_valid_url Url.urlsplit sample_scraper
                      (WebScraper.url page) "https://example.com/" = true)
              pages.
Proof.
  destruct (WebScraper.crawl_website Url.urlsplit plain_urljoin elements
              small_site 10 sample_scraper "https://example.com/" 50)
    as [[pages self']|] eqn:Hrun; [| by vm_compute in Hrun].
  exists pages, self'. split; [done |].
  eapply Forall_impl.
  - apply (crawl_stays_valid Url.urlsplit plain_urljoin elements small_site 10
             sample_scraper "https://example.com/" 50 pages self');
      [| exact Hrun].
    intros X u. apply elem_of_elements.
  - intros page [? | (? & _)]; [by left | by right].
Defined.

(** ** Links that cannot be parsed *)

Lemma ingestion_collect_links_raises urlparse urljoin base_url base_domain
    hrefs href : forall found,
  href ∈ hrefs -> unresolvable urlparse urljoin base_url href ->
  exists e, Ingestion.collect_links urlparse urljoin hrefs base_url
              base_domain found = Raised e.
Proof.
  induction hrefs as [|h rest IH]; intros found Hin Hbad.
  - by apply elem_of_nil in Hin.
  - simpl. apply elem_of_cons in Hin as [<- | Hin].
    + destruct Hbad as [(e & ->) | (full_url & e & -> & Hparse)]; simpl.
      * by eexists.
      * rewrite Hparse. by eexists.
    + destruct (urljoin base_url h) as [full_url|]; simpl; [| by eexists].
      destruct (urlparse full_url) as [parsed_url|]; simpl; [| by eexists].
      destruct (Ingestion.link_accepted _ _ _); [| by apply IH].
      case_bool_decide; by apply IH.
Qed.

Lemma scraper_collect_links_raises urlparse urljoin self base_url hrefs href :
  forall found,
  href ∈ hrefs -> (exists e, urljoin base_url href = Raised e) ->
  exists e, WebScraper.collect_links urlparse urljoin self hrefs base_url found
            = Raised e.
Proof.
  induction hrefs as [|h rest IH]; intros found Hin Hbad.
  - by apply elem_of_nil in Hin.
  - simpl. apply elem_of_cons in Hin as [<- | Hin].
    + destruct Hbad as (e & ->). by eexists.
    + destruct (urljoin base_url h) as [absolute_url|]; simpl; [| by eexists].
      destruct (WebScraper.is_valid_url _ _ _ _); by apply IH.
Qed.

(** One link that cannot be resolved or parsed costs [WebsiteIngestion]
    the whole page: [_extract_links] raises inside the [try] block of
    [scrape_page], which returns [None].  [AdvancedWebScraper] keeps the
    page: it extracts no links in [scrape_page]; in [crawl_website] a link
    that cannot be resolved costs the page all its links, and a link that
    cannot be parsed is only not followed. *)
Theorem malformed_link_drops_page urlparse urljoin list_of_set get n url soup
    href :
  get n url = Returned soup ->
  href ∈ Web.soup_anchors soup ->
  unresolvable urlparse urljoin url href ->
  Ingestion.scrape_page urlparse urljoin list_of_set get n url = None
  /\ (exists page, WebScraper.scrape_page get n url = Some page)
  /\ (forall self visited m depth,
        get m url = Returned soup ->
        (exists e, urljoin url href = Raised e) ->
        WebScraper.new_entries urlparse urljoin list_of_set get self visited
          m url depth = [])
  /\ (forall self base_url e,
        urlparse href = Raised e ->
        WebScraper.is_valid_url urlparse self href base_url = false).
Proof.
  intros Hget Hin Hbad. split; [| split; [| split]].
  - unfold Ingestion.scrape_page. rewrite Hget.
    destruct (_ && _); [done |].
    unfold Ingestion._extract_links.
    destruct (urlparse url) as [base|]; simpl; [| done].
    destruct (ingestion_collect_links_raises urlparse urljoin url
                (Url.netloc base) _ href ∅ Hin Hbad) as (e & ->).
    done.
  - unfold WebScraper.scrape_page. rewrite Hget. by eexists.
  - intros self visited m depth Hm Hjoin.
    unfold WebScraper.new_entries, WebScraper.extract_links.
    rewrite Hm. simpl.
    destruct (urlparse url) as [base|]; simpl; [| done].
    destruct (scraper_collect_links_raises urlparse urljoin self url _ href
                [] Hin Hjoin) as (e & ->).
    done.
  - intros self base_url e Hparse. unfold WebScraper.is_valid_url.
    by rewrite Hparse.
Qed.

Lemma malformed_link_drops_page_witness :
  Ingestion.scrape_page Url.urlsplit plain_urljoin elements
    (site broken_link_soup) 0 "https://example.com/" = None
  /\ exists page,
       WebScraper.scrape_page (site broken_link_soup) 0 "https://example.com/"
       = Some page.
Proof.
  destruct (malformed_link_drops_page Url.urlsplit plain_urljoin elements
              (site broken_link_soup) 0 "https://example.com/"
              broken_link_soup "http://[broken")
    as (Hdrop & Hkeep & _).
  - reflexivity.
  - right. by left.
  - right. eexists _, _. split; [reflexivity |]. vm_compute. reflexivity.
  - split; [exact Hdrop | exact Hkeep].
Defined.

(** ** The sitemap *)



Lemma sitemap_example :
  Sitemap.scrape_sitemap Url.urlsplit sitemap_site sample_scraper 0
    "https://example.com"
  = ["https://example.com/about"].
Proof. vm_compute. reflexivity. Qed.

(** ** From chunks to documents and back *)

Lemma create_document_spec chunk :
  (has_keys chunk
   /\ Documents.create_document chunk = Returned (document_of chunk))
  \/ (~ has_keys chunk
      /\ exists key, key ∈ ["url"; "title"; "content"]
                     /\ chunk !! key = None
                     /\ Documents.create_document chunk = Raised (KeyError key)).
Proof.
  unfold Documents.create_document, has_keys, document_of.
  destruct (chunk !! "url") as [url|] eqn:Hurl; simpl.
  2: { right. split; [by intros [[? [=]] _] |].
       exists "url". split; [set_solver | done]. }
  destruct (chunk !! "title") as [title|] eqn:Htitle; simpl.
  2: { right. split; [by intros (_ & [? [=]] & _) |].
       exists "title". split; [set_solver | done]. }
  destruct (chunk !! "content") as [content|] eqn:Hcontent; simpl.
  2: { right. split; [by intros (_ & _ & [? [=]]) |].
       exists "content". split; [set_solver | done]. }
  left. by split_and!.
Qed.

Lemma create_documents_spec chunks :
  (Forall has_keys chunks
   /\ Documents.create_documents chunks = Returned (map document_of chunks))
  \/ (~ Forall has_keys chunks
      /\ exists key, key ∈ ["url"; "title"; "content"]
                     /\ Documents.create_documents chunks
                        = Raised (KeyError key)).
Proof.
  induction chunks as [|chunk rest IH]; simpl.
  - left. by split.
  - destruct (create_document_spec chunk)
      as [[Hk ->] | (Hk & key & Hkey & _ & ->)]; simpl.
    + destruct IH as [[Hrest ->] | (Hrest & key & Hkey & ->)]; simpl.
      * left. split; [by constructor | done].
      * right. split; [| by exists key].
        by intros [_ ?]%Forall_cons.
    + right. split; [| by exists key]. by intros [? _]%Forall_cons.
Qed.

Lemma relevant_of_ingestion c :
  Retrieval.relevant_of (document_of (Documents.of_ingestion c))
  = Documents.of_ingestion c.
Proof. vm_compute. reflexivity. Qed.

Lemma relevant_of_scraper c :
  Retrieval.relevant_of (document_of (Documents.of_scraper c))
  = delete "chunk_type" (Documents.of_scraper c).
Proof. vm_compute. reflexivity. Qed.

(** [create_documents] returns exactly when every chunk dictionary has
    the keys ['url'], ['title'] and ['content'] (the key ['chunk_id'] may
    be missing), and raises [KeyError] for one of the three otherwise; it
    makes one document for each chunk, in order.  On the chunks of either
    chunker it never raises, and what [get_relevant_documents] makes of
    such a document is the chunk dictionary again, without its
    ['chunk_type'] entry if it has one. *)
Theorem chunks_become_documents :
  (forall chunks,
     (Forall has_keys chunks
      /\ Documents.create_documents chunks = Returned (map document_of chunks))
     \/ (~ Forall has_keys chunks
         /\ exists key, key ∈ ["url"; "title"; "content"]
                        /\ Documents.create_documents chunks
                           = Raised (KeyError key)))
  /\ (forall chunks,
        exists documents,
          Documents.create_documents (map Documents.of_ingestion chunks)
          = Returned documents
          /\ map VectorStore.page_content documents
             = map Ingestion.chunk_text chunks
          /\ map Retrieval.relevant_of documents
             = map Documents.of_ingestion chunks)
  /\ (forall chunks,
        exists documents,
          Documents.create_documents (map Documents.of_scraper chunks)
          = Returned documents
          /\ map VectorStore.page_content documents
             = map WebScraper.chunk_text chunks
          /\ map Retrieval.relevant_of documents
             = map (fun c => delete "chunk_type" (Documents.of_scraper c))
                   chunks).
Proof.
  split; [apply create_documents_spec |]. split.
  - intros chunks.
    destruct (create_documents_spec (map Documents.of_ingestion chunks))
      as [[_ ->] | [Hno _]].
    + eexists. split; [done |]. rewrite !map_map. split; [done |].
      apply map_ext. intros c. apply relevant_of_ingestion.
    + destruct Hno. apply Forall_forall.
      intros d (c & -> & _)%list_elem_of_fmap. by split_and!.
  - intros chunks.
    destruct (create_documents_spec (map Documents.of_scraper chunks))
      as [[_ ->] | [Hno _]].
    + eexists. split; [done |]. rewrite !map_map. split; [done |].
      apply map_ext. intros c. apply relevant_of_scraper.
    + destruct Hno. apply Forall_forall.
      intros d (c & -> & _)%list_elem_of_fmap. by split_and!.
Qed.




(** ** Retrieval and chat *)

Section RetrievalFacts.

Context {L : VectorStore.Library} {LC : RAGPipeline.LangChain}.
Context {Message : Type}.

(** [get_relevant_documents] never raises.  It returns the empty list
    when the pipeline has no vector store, when the store is not
    initialized and when the search of the library raises; otherwise it
    returns one dictionary for each document found, in order, and each has
    exactly the keys ['content'], ['url'], ['title'] and ['chunk_id']. *)
Theorem relevant_documents_never_raise (self : RAGPipeline.t) query k :
  exists found,
    Retrieval.get_relevant_documents self query k = Returned found
    /\ (RAGPipeline.vector_store self = None -> found = [])
    /\ (forall store,
          RAGPipeline.vector_store self = Some store ->
          VectorStore.vector_store store = None -> found = [])
    /\ (forall store index e,
          RAGPipeline.vector_store self = Some store ->
          VectorStore.vector_store store = Some index ->
          VectorStore.lib_similarity_search index query k = Raised e ->
          found = [])
    /\ (forall store index docs,
          RAGPipeline.vector_store self = Some store ->
          VectorStore.vector_store store = Some index ->
          VectorStore.lib_similarity_search index query k = Returned docs ->
          found = map Retrieval.relevant_of docs)
    /\ Forall (fun entry =>
                 dom entry
                 = ({[ "content"; "url"; "title"; "chunk_id" ]} : gset string))
              found.
Proof.
  unfold Retrieval.get_relevant_documents.
  destruct (RAGPipeline.vector_store self) as [store|] eqn:Hstore.
  2: { exists []. split; [done |]. split; [done |].
       split; [done |]. split; [done |]. split; [done | constructor]. }
  unfold VectorStore.similarity_search.
  destruct (VectorStore.vector_store store) as [index|] eqn:Hindex; simpl.
  2: { exists []. split; [done |]. split; [done |].
       split; [done |]. split; [| split; [| constructor]].
       - intros ? ? ? [= <-] Hi. congruence.
       - intros ? ? ? [= <-] Hi. congruence. }
  destruct (VectorStore.lib_similarity_search index query k) as [docs|e] eqn:Hs;
    simpl.
  - exists (map Retrieval.relevant_of docs). split; [done |].
    split; [done |]. split; [intros ? [= <-]; congruence |].
    split; [| split].
    + intros ? ? ? [= <-] Hi Hs'. rewrite Hindex in Hi. injection Hi as <-.
      congruence.
    + intros ? ? ? [= <-] Hi Hs'. rewrite Hindex in Hi. injection Hi as <-.
      congruence.
    + apply Forall_forall. intros entry (doc & -> & _)%list_elem_of_fmap.
      unfold Retrieval.relevant_of. rewrite !dom_insert_L, dom_singleton_L.
      set_solver.
  - exists []. split; [done |]. split; [done |]. split; [done |].
    split; [done |]. split; [| constructor].
    intros ? ? ? [= <-] Hi Hs'. rewrite Hindex in Hi. injection Hi as <-.
    congruence.
Qed.

Lemma chat_with_answer_with chain (messages : list Message) q :
  match Retrieval.chat_with chain messages q, RAGPipeline.answer_with chain q
  with
  | Returned c, Returned r =>
      Retrieval.chat_answer c = RAGPipeline.answer r
      /\ Retrieval.chat_source_documents c = RAGPipeline.source_documents r
      /\ Retrieval.chat_question c = RAGPipeline.question r
      /\ Retrieval.chat_sources c = RAGPipeline.sources r
      /\ Retrieval.chat_history c
         = match RAGPipeline.source_documents r with
           | Some _ => []
           | None => messages
           end
  | Raised e, Raised e' => e = e'
  | _, _ => False
  end.
Proof.
  unfold Retrieval.chat_with, RAGPipeline.answer_with.
  by destruct (RAGPipeline.call_chain chain q).
Qed.

(** [chat] is [answer_question] with one more entry: it raises when
    [answer_question] raises, with the same exception, and otherwise
    returns the same answer, sources, source documents and question, and
    leaves the pipeline in the same state.  Its ['chat_history'] is empty
    whenever the chain answered, whatever was said before, and holds the
    messages of the memory when the chain raised. *)
Theorem chat_answers_as_answer_question (self : RAGPipeline.t)
    (messages : list Message) q :
  snd (Retrieval.chat self messages q) = snd (RAGPipeline.answer_question self q)
  /\ match fst (Retrieval.chat self messages q),
           fst (RAGPipeline.answer_question self q) with
     | Returned c, Returned r =>
         Retrieval.chat_answer c = RAGPipeline.answer r
         /\ Retrieval.chat_source_documents c = RAGPipeline.source_documents r
         /\ Retrieval.chat_question c = RAGPipeline.question r
         /\ Retrieval.chat_sources c = RAGPipeline.sources r
         /\ Retrieval.chat_history c
            = match RAGPipeline.source_documents r with
              | Some _ => []
              | None => messages
              end
     | Raised e, Raised e' => e = e'
     | _, _ => False
     end.
Proof.
  unfold Retrieval.chat, RAGPipeline.answer_question.
  destruct (RAGPipeline.qa_chain self) as [chain|].
  - split; [done |]. apply chat_with_answer_with.
  - destruct (RAGPipeline.create_qa_chain self) as [[chain|e] self'].
    + split; [done |]. apply chat_with_answer_with.
    + by split.
Qed.

(** A chain, once built, answers for the store it was built from: two
    pipelines that hold the same chain give the same answer whatever their
    vector stores are.  [update_vector_store] ends that: after it the
    answer is that of a chain built from the new store, whatever chain and
    store the pipeline held before. *)
Theorem cached_chain_ignores_the_store :
  (forall (self1 self2 : RAGPipeline.t) chain q,
     RAGPipeline.qa_chain self1 = Some chain ->
     RAGPipeline.qa_chain self2 = Some chain ->
     fst (RAGPipeline.answer_question self1 q)
     = fst (RAGPipeline.answer_question self2 q))
  /\ (forall (self1 self2 : RAGPipeline.t) store q,
        RAGPipeline.answer_question (Retrieval.update_vector_store self1 store) q
        = RAGPipeline.answer_question
            (Retrieval.update_vector_store self2 store) q)
  /\ (forall (self : RAGPipeline.t) store index chain q,
        VectorStore.vector_store store = Some index ->
        RAGPipeline.build_chain index = Returned chain ->
        RAGPipeline.answer_question
          (Retrieval.update_vector_store self (Some store)) q
        = (RAGPipeline.answer_with chain q,
           {| RAGPipeline.vector_store := Some store;
              RAGPipeline.qa_chain := Some chain |})).
Proof.
  split; [| split].
  - intros self1 self2 chain q H1 H2. unfold RAGPipeline.answer_question.
    by rewrite H1, H2.
  - done.
  - intros self store index chain q Hindex Hbuild.
    unfold RAGPipeline.answer_question, Retrieval.update_vector_store,
      RAGPipeline.create_qa_chain. simpl. by rewrite Hindex, Hbuild.
Qed.

(** The excerpt of a source is the first 200 characters of the document
    and three dots, also when nothing was cut: it is at most 203 characters
    long, and a document of at most 200 characters is given in full, with
    the dots.  An answer has one source for each source document of the
    chain, in order. *)
Theorem source_excerpts_are_short :
  (forall doc,
     chars (RAGPipeline.source_content (RAGPipeline.source_of doc))
     = take 200 (chars (VectorStore.page_content doc)) ++ chars "..."
     /\ len (RAGPipeline.source_content (RAGPipeline.source_of doc)) <= 203
     /\ (len (VectorStore.page_content doc) <= 200 ->
         RAGPipeline.source_content (RAGPipeline.source_of doc)
         = VectorStore.page_content doc +:+ "..."))
  /\ (forall chain q res,
        RAGPipeline.call_chain chain q = Returned res ->
        exists r,
          RAGPipeline.answer_with chain q = Returned r
          /\ RAGPipeline.sources r
             = map RAGPipeline.source_of
                 (default [] (RAGPipeline.result_source_documents res))
          /\ Forall (fun s => len (RAGPipeline.source_content s) <= 203)
                    (RAGPipeline.sources r)).
Proof.
  assert (forall doc,
            chars (RAGPipeline.source_content (RAGPipeline.source_of doc))
            = take 200 (chars (VectorStore.page_content doc)) ++ chars "...")
    as Hchars.
  { intros doc. unfold RAGPipeline.source_of. simpl.
    rewrite chars_append, chars_slice by lia. by rewrite drop_0. }
  assert (forall doc,
            len (RAGPipeline.source_content (RAGPipeline.source_of doc)) <= 203)
    as Hlen.
  { intros doc. unfold len. rewrite Hchars, length_app, length_take.
    change (length (chars "...")) with 3%nat. lia. }
  split.
  - intros doc. split; [apply Hchars |]. split; [apply Hlen |].
    intros Hshort. apply chars_inj. rewrite Hchars, chars_append.
    rewrite take_ge; [done |]. unfold len in Hshort. lia.
  - intros chain q res Hcall. unfold RAGPipeline.answer_with.
    rewrite Hcall. simpl. eexists. split; [done |]. simpl. split; [done |].
    apply Forall_forall. intros s (doc & -> & _)%list_elem_of_fmap.
    apply Hlen.
Qed.

End RetrievalFacts.

Lemma cached_chain_ignores_the_store_witness :
  fst (@RAGPipeline.answer_question seeded_library (list_chain _)
         chained_pipeline "What do you do?")
  = fst (@RAGPipeline.answer_question seeded_library (list_chain _)
           (@RAGPipeline.Build_t seeded_library (list_chain _)
              (Some empty_store) (Some ()))
           "What do you do?").
Proof.
  destruct (@cached_chain_ignores_the_store seeded_library (list_chain _))
    as (Hsame & _).
  apply (Hsame _ _ ()); reflexivity.
Defined.

Lemma source_excerpts_are_short_witness :
  exists r,
    @RAGPipeline.answer_with seeded_library (list_chain _) ()
      "What do you do?" = Returned r
    /\ Forall (fun s => len (RAGPipeline.source_content s) <= 203)
              (RAGPipeline.sources r).
Proof.
  destruct (@source_excerpts_are_short seeded_library (list_chain _))
    as (_ & Hanswer).
  destruct (Hanswer () "What do you do?"
              {| RAGPipeline.result := Some "thanks for asking!";
                 RAGPipeline.result_source_documents := Some [services_doc] |}
              eq_refl) as (r & Hr & _ & Hshort).
  by exists r.
Defined.

(** ** The wrapper of [get_answer] *)

Section SafeFacts.

Context {L : VectorStore.Library} {E : Chatbot.Environment}.

(** [get_answer_safe] adds nothing to [get_answer]: its handler is never
    reached, since [get_answer] catches what the search raises itself and
    answers with the error. *)
Theorem get_answer_safe_adds_nothing (g : Chatbot.globals) query :
  Chatbot.get_answer_safe g query = Chatbot.get_answer g query
  /\ (forall index e,
        Chatbot._import_error g = None -> Chatbot.db g = Some index ->
        VectorStore.lib_similarity_search index query 2 = Raised e ->
        Chatbot.get_answer g query
        = Returned ("Error during search: " +:+ str_exn e)).
Proof.
  split.
  - destruct (get_answer_returns g query) as (a & Ha).
    unfold Chatbot.get_answer_safe. by rewrite Ha.
  - intros index e Himp Hdb Hs.
    unfold Chatbot.get_answer, Chatbot.answer_from_index.
    by rewrite Himp, Hdb, Hs.
Qed.

End SafeFacts.

(** ** The scraper of the flask application *)

Lemma runs_to_space_spaces l : forall in_run,
  single_spaces (Regex.runs_to_space is_space l in_run) in_run.
Proof.
  induction l as [|c l IH]; intros in_run; simpl; [done |].
  destruct (is_space c) eqn:Hc.
  - destruct in_run; [apply IH |]. simpl. split; [done |].
    split; [done | apply IH].
  - simpl. rewrite Hc. apply IH.
Qed.

Lemma page_entries (url title content : string) :
  let page : gmap string string :=
    {[ "url" := url; "title" := title; "content" := content ]} in
  page !! "content" = Some content /\ page !! "url" = Some url
  /\ page !! "error" = None.
Proof. vm_compute. done. Qed.

(** [SimpleScraper.scrape_page] never raises: a failed request gives a
    dictionary with the one key ['error'].  Otherwise the dictionary has no
    such key, and its content is the first 2000 characters of the
    normalized text of the page: at most 2000 characters, the only white
    space single space characters, none of them at the start (one may be
    left at the end, where the text was cut). *)
Theorem flask_scrape_page_shape get n url :
  (forall e, get n url = Raised e ->
     FlaskApp.scrape_page get n url = {[ "error" := str_exn e ]})
  /\ (forall soup, get n url = Returned soup ->
        exists content,
          FlaskApp.scrape_page get n url !! "content" = Some content
          /\ FlaskApp.scrape_page get n url !! "url" = Some url
          /\ FlaskApp.scrape_page get n url !! "error" = None
          /\ chars content
             = take 2000 (chars (normalized (FlaskApp.html_text soup)))
          /\ len content <= 2000
          /\ single_spaces (chars content) false
          /\ (content = "" \/ starts_with_text (chars content))).
Proof.
  split.
  - intros e He. unfold FlaskApp.scrape_page. by rewrite He.
  - intros soup Hsoup. unfold FlaskApp.scrape_page. rewrite Hsoup.
    fold (normalized (FlaskApp.html_text soup)).
    set (text := normalized (FlaskApp.html_text soup)).
    exists (slice text 0 2000).
    assert (chars (slice text 0 2000) = take 2000 (chars text)) as Hchars
      by (rewrite chars_slice by lia; by rewrite drop_0).
    destruct (page_entries url
                (default "" (strip <$> FlaskApp.html_title soup))
                (slice text 0 2000)) as (Hcontent & Hurl & Herror).
    split; [exact Hcontent |]. split; [exact Hurl |].
    split; [exact Herror |]. split; [exact Hchars |].
    split; [pose proof (len_slice_le text 0 2000); lia |].
    assert (single_spaces (chars text) false) as Hsingle.
    { apply single_spaces_strip. rewrite chars_str. apply runs_to_space_spaces. }
    rewrite Hchars. rewrite <- (take_drop 2000 (chars text)) in Hsingle.
    apply single_spaces_app in Hsingle as [Hsingle _].
    split; [done |].
    destruct (decide (text = "")) as [Hempty | Hne].
    + left. apply chars_inj. rewrite Hchars, Hempty. done.
    + right. pose proof (starts_with_text_strip _ Hne) as Hstart.
      fold (normalized (FlaskApp.html_text soup)) in Hstart. fold text in Hstart.
      destruct (chars text); done.
Qed.

Lemma flask_scrape_page_shape_witness :
  FlaskApp.scrape_page (fun _ _ => Returned flask_page) 0 "https://example.com/"
    !! "content" = Some "Welcome to our site."
  /\ FlaskApp.scrape_page (fun _ _ => Raised (HTTPError 404 "Not Found")) 0
       "https://example.com/"
     = {[ "error" := "Not Found" ]}.
Proof.
  split; [vm_compute; reflexivity |].
  apply (proj1 (flask_scrape_page_shape
                  (fun _ _ => Raised (HTTPError 404 "Not Found")) 0
                  "https://example.com/")
               (HTTPError 404 "Not Found")).
  reflexivity.
Defined.
